(** * PDF annotation store, coordinate mapper, render cache and reading
    progress of the viewer add-on ([src/__init__.py]).

    The development is a shallow embedding: every Python function that the
    properties below talk about is a Rocq function of the same name over an
    explicit state (the profile folder with its SQLite files, the cache
    directory, the viewer object).

    Conventions.
    - Python [int] is [Z]; a Python [float] is a rational [Qc], and a
      float operation is the exact operation followed by [float_round], the
      rounding to the nearest double (infinities and NaN are not
      represented); [int(f)] is truncation toward zero.  Coordinates read
      from the store are taken as they are.
    - A SQLite table is the list of its rows in insertion order together
      with its [sqlite_sequence] counter (all tables of the add-on are
      declared [AUTOINCREMENT]).  A [SELECT] without [ORDER BY] that SQLite
      answers from an index returns the rows in the order of that index.
    - Storage-layer failures (disk full, locked file) are not represented,
      except in [migrate_pdf_data] where the order of the steps under
      failure is the point; there a fault plan says which step raises. *)

From Stdlib Require Import ZArith QArith Qcanon Lia Permutation Sorted Ascii.
From stdpp Require Import gmap strings list sorting pretty.

Local Open Scope Z_scope.

(** ** SQLite tables with an [INTEGER PRIMARY KEY AUTOINCREMENT] column *)

Class HasRowid (A : Type) := rowid : A → Z.

Record table (A : Type) := Table { rows : list A; sqlite_sequence : Z }.
Arguments Table {A} _ _.
Arguments rows {A} _.
Arguments sqlite_sequence {A} _.

Definition empty_table {A} : table A := Table [] 0.

Definition max_rowid `{HasRowid A} (l : list A) : Z :=
  foldr (λ r m, Z.max (rowid r) m) 0 l.

(** The rowid an [AUTOINCREMENT] column hands out: one more than the largest
    rowid the table has ever seen. *)
Definition new_rowid `{HasRowid A} (t : table A) : Z :=
  Z.max (sqlite_sequence t) (max_rowid (rows t)) + 1.

Definition pk_conflict `{HasRowid A} (l : list A) (id : Z) : bool :=
  existsb (λ r, bool_decide (rowid r = id)) l.

(** ** Rows of the per-document store *)

Record highlight_row := HighlightRow {
  h_id : Z;
  h_pdf_path : string;
  h_page_number : Z;
  h_x0 : Qc; h_y0 : Qc; h_x1 : Qc; h_y1 : Qc;
  h_highlighted_text : option string
}.

Record comment_row := CommentRow {
  c_id : Z;
  c_pdf_path : string;
  c_page_number : Z;
  c_x0 : Qc; c_y0 : Qc;
  c_comment_text : string
}.

#[global] Instance highlight_row_eq_dec : EqDecision highlight_row.
Proof. solve_decision. Defined.
#[global] Instance comment_row_eq_dec : EqDecision comment_row.
Proof. solve_decision. Defined.

#[global] Instance highlight_rowid : HasRowid highlight_row := h_id.
#[global] Instance comment_rowid : HasRowid comment_row := c_id.

(** The columns of [UNIQUE (pdf_path, page_number, x0, y0, x1, y1)]. *)
Definition h_unique_key (r : highlight_row) : string * Z * Qc * Qc * Qc * Qc :=
  (h_pdf_path r, h_page_number r, h_x0 r, h_y0 r, h_x1 r, h_y1 r).

Definition unique_conflict (l : list highlight_row) (r : highlight_row) : bool :=
  existsb (λ r', bool_decide (h_unique_key r' = h_unique_key r)) l.

(** [INSERT OR IGNORE INTO pdf_highlights (pdf_path, ..., highlighted_text)
    VALUES (...)]: the rowid is allocated first and recorded in
    [sqlite_sequence] even when the row is then dropped by the conflict
    clause. *)
Definition insert_or_ignore_highlight (t : table highlight_row)
    (pdf_path : string) (page_number : Z) (a0 b0 a1 b1 : Qc)
    (text : option string) : table highlight_row :=
  let id := new_rowid t in
  let r := HighlightRow id pdf_path page_number a0 b0 a1 b1 text in
  Table (if unique_conflict (rows t) r then rows t else rows t ++ [r]) id.

(** [INSERT OR IGNORE INTO pdf_highlights VALUES (?, ?, ?, ?, ?, ?, ?, ?)]:
    the row brings its own rowid. *)
Definition insert_or_ignore_highlight_row (t : table highlight_row)
    (r : highlight_row) : table highlight_row :=
  Table (if pk_conflict (rows t) (h_id r) || unique_conflict (rows t) r
         then rows t else rows t ++ [r])
        (Z.max (sqlite_sequence t) (h_id r)).

(** [INSERT INTO pdf_comments (pdf_path, page_number, x0, y0, comment_text)
    VALUES (...)]. *)
Definition insert_comment (t : table comment_row)
    (pdf_path : string) (page_number : Z) (a0 b0 : Qc) (text : string)
    : table comment_row :=
  let id := new_rowid t in
  Table (rows t ++ [CommentRow id pdf_path page_number a0 b0 text]) id.

(** [INSERT OR IGNORE INTO pdf_comments VALUES (?, ?, ?, ?, ?, ?)]. *)
Definition insert_or_ignore_comment_row (t : table comment_row)
    (r : comment_row) : table comment_row :=
  Table (if pk_conflict (rows t) (c_id r) then rows t else rows t ++ [r])
        (Z.max (sqlite_sequence t) (c_id r)).

(** [DELETE FROM t WHERE cond]. *)
Definition delete_where {A} (cond : A → bool) (t : table A) : table A :=
  Table (filter (λ r, negb (cond r)) (rows t)) (sqlite_sequence t).

(** [SELECT * FROM t WHERE cond]. *)
Definition select_where {A} (cond : A → bool) (t : table A) : list A :=
  filter (λ r, cond r) (rows t).

(** ** The files of the profile folder *)

(** [pdf_<md5>.db]: the per-document store. *)
Record pdf_db := PdfDb {
  pdf_highlights : table highlight_row;
  pdf_comments : table comment_row
}.

Definition empty_pdf_db : pdf_db := PdfDb empty_table empty_table.

(** A row of [item_queue]; [last_page] and [progress] are nullable. *)
Record queue_item := QueueItem {
  q_id : Z;
  q_title : option string;
  q_path : string;
  q_last_page : option Z;
  q_progress : option string
}.

#[global] Instance queue_item_rowid : HasRowid queue_item := q_id.

(** [item_manager.db]: the shared store.  Files written by earlier versions
    of the add-on may also hold [pdf_highlights] and [pdf_comments]. *)
Record main_db := MainDb {
  item_queue : table queue_item;
  old_pdf_highlights : option (table highlight_row);
  old_pdf_comments : option (table comment_row)
}.

Definition empty_main_db : main_db := MainDb empty_table None None.

Record profile := Profile {
  pdf_files : gmap string pdf_db;
  item_manager : option main_db
}.

Definition empty_profile : profile := Profile ∅ None.

(** fitz.Rect and fitz.Point. *)
Record Rect := MkRect { Rect_x0 : Qc; Rect_y0 : Qc; Rect_x1 : Qc; Rect_y1 : Qc }.
Record Point := MkPoint { Point_x : Qc; Point_y : Qc }.

(** [bool(rect)] of the PDF library: a rectangle is falsy exactly when all
    four coordinates are zero. *)
Definition Rect_bool (r : Rect) : bool :=
  negb (bool_decide (Rect_x0 r = 0%Qc ∧ Rect_y0 r = 0%Qc ∧ Rect_x1 r = 0%Qc ∧ Rect_y1 r = 0%Qc)).

(** ** Python numbers *)

(** [float(n)] is stdpp's [Qc_of_Z n]. *)

(** [int(f)]: truncation toward zero. *)
Definition py_int (f : Qc) : Z := Z.quot (Qnum (this f)) (Zpos (Qden (this f))).

Definition Qc_ltb (a b : Qc) : bool := bool_decide (a < b)%Qc.

(** The integer nearest to [n / d] for [0 < d], ties to even. *)
Definition round_half_even (n d : Z) : Z :=
  let f := n `div` d in
  let r2 := 2 * (n `mod` d) in
  if r2 <? d then f else if d <? r2 then f + 1 else if Z.even f then f else f + 1.

(** [2 ^ k] for any integer [k]. *)
Definition Qc_pow2 (k : Z) : Qc :=
  if 0 <=? k then Qc_of_Z (2 ^ k) else (/ Qc_of_Z (2 ^ (- k)))%Qc.

(** The double nearest to [q]: IEEE 754 binary64, round to nearest, ties to
    even, 53 bits of significand, subnormals below [2 ^ -1022].  [k] is the
    exponent with [2 ^ k <= |q| < 2 ^ (k + 1)]. *)
Definition float_round (q : Qc) : Qc :=
  let n := Qnum (this q) in
  let d := Zpos (Qden (this q)) in
  if n =? 0 then 0%Qc else
  let k := Z.log2 (Z.abs n) - Z.log2 d in
  let k := if (if 0 <=? k then d * 2 ^ k <=? Z.abs n else d <=? Z.abs n * 2 ^ (- k))
           then k else k - 1 in
  let e := Z.max (k - 52) (-1074) in
  let m := if 0 <=? e then round_half_even n (d * 2 ^ e)
           else round_half_even (n * 2 ^ (- e)) d in
  (Qc_of_Z m * Qc_pow2 e)%Qc.

(** [a + b], [a - b], [a * b] and [a / b] on floats. *)
Definition float_add (a b : Qc) : Qc := float_round (a + b)%Qc.
Definition float_sub (a b : Qc) : Qc := float_round (a - b)%Qc.
Definition float_mul (a b : Qc) : Qc := float_round (a * b)%Qc.
Definition float_div (a b : Qc) : Qc := float_round (a / b)%Qc.

(** What a call does: it returns a value or it raises. *)
Inductive outcome (A : Type) := Returned (a : A) | Raised (exn : string).
Arguments Returned {A} _.
Arguments Raised {A} _.

#[global] Instance outcome_bind : MBind outcome := λ A B k o,
  match o with Returned a => k a | Raised e => Raised e end.

(** A number as Python holds it.  The arithmetic of the coordinate mapper
    mixes [int] and [float], and a call into Qt tells them apart.  An
    operation on two ints is exact; with a float among the operands the int
    is converted (exactly, for the sizes and positions of a screen) and the
    result is a float. *)
Inductive py_number := PyInt (n : Z) | PyFloat (f : Qc).

Definition py_value (a : py_number) : Qc :=
  match a with PyInt n => Qc_of_Z n | PyFloat f => f end.

Definition py_sub (a b : py_number) : py_number :=
  match a, b with
  | PyInt m, PyInt n => PyInt (m - n)
  | _, _ => PyFloat (float_sub (py_value a) (py_value b))
  end.

Definition py_mul (a b : py_number) : py_number :=
  match a, b with
  | PyInt m, PyInt n => PyInt (m * n)
  | _, _ => PyFloat (float_mul (py_value a) (py_value b))
  end.

(** [a / b]: always a float. *)
Definition py_truediv (a b : py_number) : outcome py_number :=
  if bool_decide (py_value b = 0%Qc) then Raised "ZeroDivisionError"
  else Returned (PyFloat (float_div (py_value a) (py_value b))).

(** [a > b]. *)
Definition py_gt (a b : py_number) : bool := Qc_ltb (py_value b) (py_value a).

(** ** Qt geometry ([QRect], [QSize]) *)

(** A [QRect] stores its two corners; [right()] and [bottom()] are
    [x + w - 1] and [y + h - 1]. *)
Record QRect := MkQRect { QRect_left : Z; QRect_top : Z; QRect_right : Z; QRect_bottom : Z }.

Definition QRect_xywh (a b w h : Z) : QRect := MkQRect a b (a + w - 1) (b + h - 1).

Record QSize := MkQSize { QSize_width : Z; QSize_height : Z }.

Definition QSize_isEmpty (s : QSize) : bool := (QSize_width s <? 1) || (QSize_height s <? 1).

(** [QRect(pos, QSize(w, h))]. *)
Definition QRect_pos_size (pos : Z * Z) (s : QSize) : QRect :=
  QRect_xywh (fst pos) (snd pos) (QSize_width s) (QSize_height s).

Definition QRect_isNull (r : QRect) : bool :=
  (QRect_right r =? QRect_left r - 1) && (QRect_bottom r =? QRect_top r - 1).

(** [QRect::intersects]: null rectangles intersect nothing; otherwise the
    two spans must overlap on both axes (a rectangle with negative width is
    read with its corners swapped). *)
Definition QRect_intersects (a b : QRect) : bool :=
  if QRect_isNull a || QRect_isNull b then false else
  let '(l1, r1) := if QRect_right a - QRect_left a + 1 <? 0 then (QRect_right a, QRect_left a) else (QRect_left a, QRect_right a) in
  let '(l2, r2) := if QRect_right b - QRect_left b + 1 <? 0 then (QRect_right b, QRect_left b) else (QRect_left b, QRect_right b) in
  if (r2 <? l1) || (r1 <? l2) then false else
  let '(t1, b1) := if QRect_bottom a - QRect_top a + 1 <? 0 then (QRect_bottom a, QRect_top a) else (QRect_top a, QRect_bottom a) in
  let '(t2, b2) := if QRect_bottom b - QRect_top b + 1 <? 0 then (QRect_bottom b, QRect_top b) else (QRect_top b, QRect_bottom b) in
  if (b2 <? t1) || (b1 <? t2) then false else true.

(** ** Coordinate mapper *)

(** What the mapper reads from a page widget: the size of the pixmap shown
    by the image label ([None] when there is no pixmap or it is null) and the
    size of the label itself. *)
Record PdfPageWidget := MkPageWidget {
  pixmap_size : option QSize;
  label_size : QSize
}.

(** [QRect(x, y, w, h)] called from Python.  The binding takes an [int] for
    each argument and does not convert a [float]: with a float among the
    arguments no overload matches and the call raises [TypeError].
    ([load_page] wraps each argument in [int()] before the same call.) *)
Definition QRect_new (x y w h : py_number) : outcome QRect :=
  match x, y, w, h with
  | PyInt x, PyInt y, PyInt w, PyInt h => Returned (QRect_xywh x y w h)
  | _, _, _, _ => Raised "TypeError"
  end.

Definition _convert_widget_pos_to_pdf_rect (current_dpi : Z)
    (page_widget : PdfPageWidget) (selection_rect : QRect) : outcome (option Rect) :=
  match pixmap_size page_widget with
  | None => Returned None
  | Some pixmap_original_size =>
    let label_size := label_size page_widget in
    if QSize_isEmpty pixmap_original_size || QSize_isEmpty label_size then Returned None else
    let '(pix_w, pix_h) := (QSize_width pixmap_original_size, QSize_height pixmap_original_size) in
    let '(lbl_w, lbl_h) := (QSize_width label_size, QSize_height label_size) in
    ratio_pix ← (if 0 <? pix_h then py_truediv (PyInt pix_w) (PyInt pix_h)
                 else Returned (PyInt 1));
    ratio_lbl ← (if 0 <? lbl_h then py_truediv (PyInt lbl_w) (PyInt lbl_h)
                 else Returned (PyInt 1));
    '(scaled_w, scaled_h, offset_x, offset_y) ←
      (if py_gt ratio_lbl ratio_pix then
         let scaled_h := lbl_h in
         let scaled_w := py_int (py_value (py_mul (PyInt lbl_h) ratio_pix)) in
         offset_x ← py_truediv (PyInt (lbl_w - scaled_w)) (PyInt 2);
         Returned (scaled_w, scaled_h, offset_x, PyInt 0)
       else
         let scaled_w := lbl_w in
         scaled ← py_truediv (PyInt lbl_w) ratio_pix;
         let scaled_h := py_int (py_value scaled) in
         offset_y ← py_truediv (PyInt (lbl_h - scaled_h)) (PyInt 2);
         Returned (scaled_w, scaled_h, PyInt 0, offset_y));
    image_rect ← QRect_new offset_x offset_y (PyInt scaled_w) (PyInt scaled_h);
    if negb (QRect_intersects image_rect selection_rect) then Returned None else
    scale_x_ratio ← (if 0 <? scaled_w then py_truediv (PyInt pix_w) (PyInt scaled_w)
                     else Returned (PyInt 1));
    scale_y_ratio ← (if 0 <? scaled_h then py_truediv (PyInt pix_h) (PyInt scaled_h)
                     else Returned (PyInt 1));
    let pixmap_x0 := py_mul (py_sub (PyInt (QRect_left selection_rect)) offset_x) scale_x_ratio in
    let pixmap_y0 := py_mul (py_sub (PyInt (QRect_top selection_rect)) offset_y) scale_y_ratio in
    let pixmap_x1 := py_mul (py_sub (PyInt (QRect_right selection_rect)) offset_x) scale_x_ratio in
    let pixmap_y1 := py_mul (py_sub (PyInt (QRect_bottom selection_rect)) offset_y) scale_y_ratio in
    pdf_points_per_pixel ← py_truediv (PyFloat (Qc_of_Z 72)) (PyInt current_dpi);
    Returned (Some (MkRect
      (py_value (py_mul pixmap_x0 pdf_points_per_pixel))
      (py_value (py_mul pixmap_y0 pdf_points_per_pixel))
      (py_value (py_mul pixmap_x1 pdf_points_per_pixel))
      (py_value (py_mul pixmap_y1 pdf_points_per_pixel))))
  end.

Definition _convert_widget_pos_to_pdf_point (current_dpi : Z)
    (page_widget : PdfPageWidget) (pos : Z * Z) : outcome (option Point) :=
  match _convert_widget_pos_to_pdf_rect current_dpi page_widget
          (QRect_pos_size pos (MkQSize 1 1)) with
  | Raised e => Raised e
  | Returned None => Returned None
  | Returned (Some rect) =>
    Returned (if Rect_bool rect then Some (MkPoint (Rect_x0 rect) (Rect_y0 rect)) else None)
  end.


(** ** Ordering rows: [ORDER BY] and Python's [sorted]

    Both are stable; a stable sort has one possible result, given here by
    insertion from the right. *)

Fixpoint insert_sorted {A} (leb : A → A → bool) (a : A) (l : list A) : list A :=
  match l with
  | [] => [a]
  | b :: l' => if leb a b then a :: l else b :: insert_sorted leb a l'
  end.

Definition stable_sort {A} (leb : A → A → bool) (l : list A) : list A :=
  foldr (insert_sorted leb) [] l.

(** The order of the [UNIQUE] index of [pdf_highlights] on the rows of one
    document and page: by [x0], then [y0], [x1], [y1]. *)
Definition index_leb (r s : highlight_row) : bool :=
  Qc_ltb (h_x0 r) (h_x0 s) || (bool_decide (h_x0 r = h_x0 s) &&
  (Qc_ltb (h_y0 r) (h_y0 s) || (bool_decide (h_y0 r = h_y0 s) &&
  (Qc_ltb (h_x1 r) (h_x1 s) || (bool_decide (h_x1 r = h_x1 s) &&
  negb (Qc_ltb (h_y1 s) (h_y1 r))))))).

(** [sorted(l, key=key)]. *)
Definition sorted_by_key {A} (key : A → Z) (l : list A) : list A :=
  stable_sort (λ a b, key a <=? key b) l.

(** [ORDER BY page_number, id]. *)
Definition order_by_page_id {A} (page id : A → Z) (l : list A) : list A :=
  stable_sort (λ a b, (page a <? page b) || ((page a =? page b) && (id a <=? id b))) l.

(** ** Annotation store *)

Inductive annotation_type := highlight | comment.

(** The dictionaries [{"type": ..., "page": ..., "text": ...}]. *)
Record annotation := Annotation {
  a_type : annotation_type;
  a_page : Z;
  a_text : option string
}.

(** The dictionaries [{"id": ..., "point": ..., "text": ...}]. *)
Record page_comment := PageComment {
  pc_id : Z;
  pc_point : Point;
  pc_text : string
}.

(** What the annotations panel shows, one entry per list item. *)
Inductive list_item :=
  | NoAnnotationsFound
  | AnnotationItem (annot : annotation).

#[global] Instance annotation_type_eq_dec : EqDecision annotation_type.
Proof. solve_decision. Defined.
#[global] Instance annotation_eq_dec : EqDecision annotation.
Proof. solve_decision. Defined.

(** A stand-in for the digest in concrete runs; with a single document the
    digest only names its files. *)
Definition path_digest (s : string) : string := s.

Section Addon.

(** [hashlib.md5(s.encode('utf-8')).hexdigest()]. *)
Variable md5_hexdigest : string → string.

(** File name of the per-document store inside the profile folder. *)
Definition get_pdf_db_path (pdf_path : string) : string :=
  "pdf_" +:+ md5_hexdigest pdf_path +:+ ".db".

(** Opening the per-document store creates the file and both tables when
    they are missing, and commits. *)
Definition get_pdf_specific_db_connection (fs : profile) (pdf_path : string)
    : profile * pdf_db :=
  let db_path := get_pdf_db_path pdf_path in
  let conn := default empty_pdf_db (pdf_files fs !! db_path) in
  (Profile (<[db_path := conn]> (pdf_files fs)) (item_manager fs), conn).

(** [conn.commit()] on a connection to the per-document store. *)
Definition commit_pdf_db (fs : profile) (pdf_path : string) (conn : pdf_db) : profile :=
  Profile (<[get_pdf_db_path pdf_path := conn]> (pdf_files fs)) (item_manager fs).

(** Opening the shared store creates the file and [item_queue]. *)
Definition get_main_db_connection (fs : profile) : profile * main_db :=
  let conn := default empty_main_db (item_manager fs) in
  (Profile (pdf_files fs) (Some conn), conn).

Definition add_highlight_to_db (fs : profile) (pdf_path : string) (page_num : Z)
    (rect : Rect) (text : string) : profile :=
  let '(fs, conn) := get_pdf_specific_db_connection fs pdf_path in
  commit_pdf_db fs pdf_path
    (PdfDb (insert_or_ignore_highlight (pdf_highlights conn) pdf_path page_num
              (Rect_x0 rect) (Rect_y0 rect) (Rect_x1 rect) (Rect_y1 rect) (Some text))
           (pdf_comments conn)).

(** The [WHERE] clause of [remove_highlight_from_db]. *)
Definition highlight_matches (pdf_path : string) (page_num : Z) (rect : Rect)
    (r : highlight_row) : bool :=
  bool_decide (h_unique_key r =
    (pdf_path, page_num, Rect_x0 rect, Rect_y0 rect, Rect_x1 rect, Rect_y1 rect)).

Definition remove_highlight_from_db (fs : profile) (pdf_path : string) (page_num : Z)
    (rect : Rect) : profile :=
  let '(fs, conn) := get_pdf_specific_db_connection fs pdf_path in
  commit_pdf_db fs pdf_path
    (PdfDb (delete_where (highlight_matches pdf_path page_num rect) (pdf_highlights conn))
           (pdf_comments conn)).

(** The query names no order and reads only columns of the [UNIQUE] index
    on (pdf_path, page_number, x0, y0, x1, y1); SQLite answers it from that
    index, so the rows of the page come in the order of [index_leb]. *)
Definition get_highlights_for_page (fs : profile) (pdf_path : string) (page_num : Z)
    : profile * list Rect :=
  let '(fs, conn) := get_pdf_specific_db_connection fs pdf_path in
  (fs, map (λ r, MkRect (h_x0 r) (h_y0 r) (h_x1 r) (h_y1 r))
         (stable_sort index_leb
            (select_where (λ r, bool_decide (h_pdf_path r = pdf_path ∧ h_page_number r = page_num))
               (pdf_highlights conn)))).

(** The function has no [return] statement: the caller gets [None], which
    is the second component. *)
Definition add_comment_to_db (fs : profile) (pdf_path : string) (page_num : Z)
    (point : Point) (text : string) : profile * option Z :=
  let '(fs, conn) := get_pdf_specific_db_connection fs pdf_path in
  (commit_pdf_db fs pdf_path
     (PdfDb (pdf_highlights conn)
            (insert_comment (pdf_comments conn) pdf_path page_num
               (Point_x point) (Point_y point) text)),
   None).

Definition update_comment_in_db (fs : profile) (pdf_path : string) (comment_id : Z)
    (new_text : string) : profile :=
  let '(fs, conn) := get_pdf_specific_db_connection fs pdf_path in
  commit_pdf_db fs pdf_path
    (PdfDb (pdf_highlights conn)
       (Table (map (λ r, if bool_decide (c_id r = comment_id)
                         then CommentRow (c_id r) (c_pdf_path r) (c_page_number r)
                                (c_x0 r) (c_y0 r) new_text
                         else r) (rows (pdf_comments conn)))
              (sqlite_sequence (pdf_comments conn)))).

Definition delete_comment_from_db (fs : profile) (pdf_path : string) (comment_id : Z)
    : profile :=
  let '(fs, conn) := get_pdf_specific_db_connection fs pdf_path in
  commit_pdf_db fs pdf_path
    (PdfDb (pdf_highlights conn)
       (delete_where (λ r, bool_decide (c_id r = comment_id)) (pdf_comments conn))).

Definition get_comments_for_page (fs : profile) (pdf_path : string) (page_num : Z)
    : profile * list page_comment :=
  let '(fs, conn) := get_pdf_specific_db_connection fs pdf_path in
  (fs, map (λ r, PageComment (c_id r) (MkPoint (c_x0 r) (c_y0 r)) (c_comment_text r))
         (select_where (λ r, bool_decide (c_pdf_path r = pdf_path ∧ c_page_number r = page_num))
            (pdf_comments conn))).

Definition get_all_highlights_for_pdf (fs : profile) (pdf_path : string)
    : profile * list annotation :=
  let '(fs, conn) := get_pdf_specific_db_connection fs pdf_path in
  (fs, map (λ r, Annotation highlight (h_page_number r) (h_highlighted_text r))
         (order_by_page_id h_page_number h_id
            (select_where (λ r, bool_decide (h_pdf_path r = pdf_path)) (pdf_highlights conn)))).

Definition get_all_comments_for_pdf (fs : profile) (pdf_path : string)
    : profile * list annotation :=
  let '(fs, conn) := get_pdf_specific_db_connection fs pdf_path in
  (fs, map (λ r, Annotation comment (c_page_number r) (Some (c_comment_text r)))
         (order_by_page_id c_page_number c_id
            (select_where (λ r, bool_decide (c_pdf_path r = pdf_path)) (pdf_comments conn)))).

(** The merged, sorted sequence the annotations panel is filled from. *)
Definition all_annotations (fs : profile) (pdf_path : string) : profile * list annotation :=
  let '(fs, all_highlights) := get_all_highlights_for_pdf fs pdf_path in
  let '(fs, all_comments) := get_all_comments_for_pdf fs pdf_path in
  (fs, sorted_by_key a_page (all_highlights ++ all_comments)).

(** The items of the annotations panel, top to bottom. *)
Definition populate_annotations_list (fs : profile) (pdf_path : string)
    : profile * list list_item :=
  let '(fs, all_annotations) := all_annotations fs pdf_path in
  (fs, match all_annotations with
       | [] => [NoAnnotationsFound]
       | _ => map AnnotationItem all_annotations
       end).

(** ** Reading progress *)

Definition get_item_details (fs : profile) (path : string) : profile * (Z * string) :=
  let '(fs, conn) := get_main_db_connection fs in
  (fs, match select_where (λ r, bool_decide (q_path r = path)) (item_queue conn) with
       | result :: _ =>
         (default 1 (q_last_page result), default "[]"%string (q_progress result))
       | [] => (1, "[]"%string)
       end).

Definition save_last_page (fs : profile) (path : string) (page_num : Z) : profile :=
  let '(fs, conn) := get_main_db_connection fs in
  Profile (pdf_files fs)
    (Some (MainDb
       (Table (map (λ r, if bool_decide (q_path r = path)
                         then QueueItem (q_id r) (q_title r) (q_path r) (Some page_num) (q_progress r)
                         else r) (rows (item_queue conn)))
              (sqlite_sequence (item_queue conn)))
       (old_pdf_highlights conn) (old_pdf_comments conn))).

(** ** Render cache and page display *)

(** The handle returned by the PDF library for an opened file. *)
Record document := Document { doc_path : string; page_count : Z }.

(** One painter call on a pixmap. *)
Inductive stroke :=
  | DrawRect (brush : Z * Z * Z * Z) (rect : QRect)
  | DrawCommentMark (pos : Z * Z).

(** An image is the raster the PDF library produced for (file, page index,
    dpi) plus what has been painted over it since. *)
Record image := Image { raster : string * Z * Z; painted : list stroke }.

(** A [QPixmap] object ([NullPixmap] when loading a file failed). *)
Inductive pixmap := NullPixmap | Pixmap (img : image).

(** A file of the cache directory: a PNG written by [QPixmap.save], or
    something a [QPixmap] cannot be loaded from. *)
Inductive cache_file := PngFile (img : image) | Unreadable.

(** [QPixmap(path)] for an existing file. *)
Definition QPixmap_load (f : cache_file) : pixmap :=
  match f with PngFile img => Pixmap img | Unreadable => NullPixmap end.

(** Everything outside the viewer object: the profile folder, the cache
    directory, the pixmap objects alive (addressed by position), and the
    calls made so far to the PDF library's renderer as (page index, dpi). *)
Record world := World {
  fs : profile;
  cache_dir : gmap string cache_file;
  heap : list pixmap;
  render_calls : list (Z * Z)
}.

Record PdfViewerDialog := Viewer {
  pdf_path : string;
  doc : option document;
  total_pages : Z;
  current_dpi : Z;
  last_known_page : Z;
  current_page_num : Z;
  search_results : list (Z * Rect);
  (** the pixmap each page widget's image label shows *)
  page_widgets : list pixmap;
  (** the page last handed to [ensureWidgetVisible] *)
  visible_page : option Z
}.

(** A new pixmap object. *)
Definition alloc (h : list pixmap) (p : pixmap) : list pixmap * nat :=
  (h ++ [p], length h).

(** A painter call mutates the pixmap object it was opened on. *)
Definition paint (target : nat) (h : list pixmap) (s : stroke) : list pixmap :=
  alter (λ p, match p with
              | Pixmap img => Pixmap (Image (raster img) (painted img ++ [s]))
              | NullPixmap => NullPixmap
              end) target h.

(** [QLabel.setPixmap] on the label of page [page_num]. *)
Definition set_pixmap (self : PdfViewerDialog) (page_num : Z) (p : pixmap) : PdfViewerDialog :=
  Viewer (pdf_path self) (doc self) (total_pages self) (current_dpi self)
    (last_known_page self) (current_page_num self) (search_results self)
    (<[Z.to_nat (page_num - 1) := p]> (page_widgets self)) (visible_page self).

(** [c] does not occur in [s]. *)
Fixpoint free_of (c : ascii) (s : string) : bool :=
  match s with
  | EmptyString => true
  | String a s => negb (bool_decide (a = c)) && free_of c s
  end.

(** The name of the cache file: [f"{pdf_hash}_p{page_num}_d{self.current_dpi}.png"]. *)
Definition cache_filename (pdf_path : string) (page_num dpi : Z) : string :=
  md5_hexdigest pdf_path +:+ "_p" +:+ pretty page_num +:+ "_d" +:+ pretty dpi +:+ ".png".

(** [Rect.width] and [Rect.height] of the PDF library. *)
Definition Rect_width (r : Rect) : Qc :=
  let d := float_sub (Rect_x1 r) (Rect_x0 r) in if Qc_ltb d 0 then 0%Qc else d.
Definition Rect_height (r : Rect) : Qc :=
  let d := float_sub (Rect_y1 r) (Rect_y0 r) in if Qc_ltb d 0 then 0%Qc else d.

(** [QRect(int(rect.x0 * scale), int(rect.y0 * scale), int(rect.width *
    scale), int(rect.height * scale))]. *)
Definition overlay_rect (scale : Qc) (rect : Rect) : QRect :=
  QRect_xywh (py_int (float_mul (Rect_x0 rect) scale)) (py_int (float_mul (Rect_y0 rect) scale))
             (py_int (float_mul (Rect_width rect) scale))
             (py_int (float_mul (Rect_height rect) scale)).

(** First half of [load_page]: the base image, from the cache file when it
    exists and loads, from the renderer otherwise (and then saved). Returns
    the pixmap object bound to [qpixmap]. *)
Definition load_base_pixmap (w : world) (self : PdfViewerDialog) (d : document)
    (page_num : Z) : world * nat :=
  let cache_filepath := cache_filename (pdf_path self) page_num (current_dpi self) in
  let '(h, qpixmap) :=
    match cache_dir w !! cache_filepath with
    | Some f => let '(h, q) := alloc (heap w) (QPixmap_load f) in (h, Some q)
    | None => (heap w, None)
    end in
  match qpixmap ≫= (λ q, h !! q) with
  | Some (Pixmap _) => (World (fs w) (cache_dir w) h (render_calls w), default 0%nat qpixmap)
  | _ =>
    let pix := Image (doc_path d, page_num - 1, current_dpi self) [] in
    let '(h, q) := alloc h (Pixmap pix) in
    (World (fs w) (<[cache_filepath := PngFile pix]> (cache_dir w)) h
           (render_calls w ++ [(page_num - 1, current_dpi self)]), q)
  end.

(** Second half of [load_page]: overlays are painted on [qpixmap.copy()]. *)
Definition composite_overlays (w : world) (self : PdfViewerDialog) (page_num : Z)
    (qpixmap : nat) : world * PdfViewerDialog :=
  let '(fs1, highlights) := get_highlights_for_page (fs w) (pdf_path self) page_num in
  let '(fs2, comments) := get_comments_for_page fs1 (pdf_path self) page_num in
  let search_rects :=
    map snd (filter (λ pr, bool_decide (fst pr = page_num)) (search_results self)) in
  let base := default NullPixmap (heap w !! qpixmap) in
  match highlights, comments, search_rects with
  | [], [], [] =>
    (World fs2 (cache_dir w) (heap w) (render_calls w), set_pixmap self page_num base)
  | _, _, _ =>
    let '(h, temp_pixmap) := alloc (heap w) base in
    let scale := float_div (Qc_of_Z (current_dpi self)) (Qc_of_Z 72) in
    let h := foldl (λ h rect, paint temp_pixmap h
                      (DrawRect (255, 255, 0, 100) (overlay_rect scale rect))) h highlights in
    let h := foldl (λ h rect, paint temp_pixmap h
                      (DrawRect (255, 165, 0, 120) (overlay_rect scale rect))) h search_rects in
    let h := foldl (λ h c, paint temp_pixmap h
                      (DrawCommentMark
                         (py_int (float_mul (Point_x (pc_point c)) scale),
                          py_int (float_add (float_mul (Point_y (pc_point c)) scale)
                                    (Qc_of_Z 10))))) h comments in
    (World fs2 (cache_dir w) h (render_calls w),
     set_pixmap self page_num (default NullPixmap (h !! temp_pixmap)))
  end.

Definition load_page (w : world) (self : PdfViewerDialog) (page_num : Z)
    : outcome (world * PdfViewerDialog) :=
  match doc self with
  | None => Returned (w, self)
  | Some d =>
    if negb ((1 <=? page_num) && (page_num <=? total_pages self)) then Returned (w, self) else
    match page_widgets self !! Z.to_nat (page_num - 1) with
    | None => Raised "IndexError"
    | Some _ =>
      let '(w, qpixmap) := load_base_pixmap w self d page_num in
      Returned (composite_overlays w self page_num qpixmap)
    end
  end.

Fixpoint load_pages (pages : list Z) (w : world) (self : PdfViewerDialog)
    : outcome (world * PdfViewerDialog) :=
  match pages with
  | [] => Returned (w, self)
  | p :: pages => '(w, self) ← load_page w self p; load_pages pages w self
  end.

Definition load_all_pages (w : world) (self : PdfViewerDialog)
    : outcome (world * PdfViewerDialog) :=
  match doc self with
  | None => Returned (w, self)
  | Some _ => load_pages (seqZ 1 (total_pages self)) w self
  end.

Definition go_to_page (self : PdfViewerDialog) (page_num : Z) : outcome PdfViewerDialog :=
  if negb ((1 <=? page_num) && (page_num <=? total_pages self)) then Returned self else
  match page_widgets self !! Z.to_nat (page_num - 1) with
  | None => Raised "IndexError"
  | Some _ =>
    Returned (Viewer (pdf_path self) (doc self) (total_pages self) (current_dpi self)
                (last_known_page self) page_num (search_results self)
                (page_widgets self) (Some page_num))
  end.

(** ** Migration from the shared store *)

(** The statements of [migrate_pdf_data] that touch a database, in program
    order.  A fault plan marks the ones at which the storage layer raises. *)
Inductive migration_step :=
  | ConnectOld | CheckHighlightsTable | SelectHighlights | SelectComments
  | ConnectNew | CreateTables | InsertHighlights | InsertComments
  | CommitNew | CloseNew
  | DeleteHighlights | DeleteComments | CommitOld | CloseOld.

(** How a run ended: an early [return], the [tooltip] after a full
    migration, the silent [pass] of the first handler (the shared store has
    no [pdf_comments] table), or a [showWarning] after the given step
    raised. *)
Inductive migration_report :=
  | Skipped | Migrated | Silenced | Warned (at_step : migration_step).

Definition no_faults : migration_step → bool := λ _, false.

(** The steps up to and including the commit of the per-document store. *)
Definition before_new_commit (s : migration_step) : bool :=
  match s with
  | ConnectOld | CheckHighlightsTable | SelectHighlights | SelectComments
  | ConnectNew | CreateTables | InsertHighlights | InsertComments | CommitNew => true
  | _ => false
  end.

Definition is_nil {A} (l : list A) : bool := match l with [] => true | _ => false end.

(** Changes made through a connection reach the file at [commit()]; a
    connection dropped by an exception leaves the file as last committed.
    An old-format shared store is read with the row layout of the new
    tables, which is what the eight- and six-placeholder inserts require. *)
Definition migrate_pdf_data (faults : migration_step → bool) (fs : profile)
    (pdf_path : string) : profile * migration_report :=
  let new_db_path := get_pdf_db_path pdf_path in
  if bool_decide (is_Some (pdf_files fs !! new_db_path)) then (fs, Skipped) else
  match item_manager fs with
  | None => (fs, Skipped)
  | Some old =>
    if faults ConnectOld then (fs, Warned ConnectOld) else
    if faults CheckHighlightsTable then (fs, Warned CheckHighlightsTable) else
    match old_pdf_highlights old with
    | None => (fs, Skipped)
    | Some old_h =>
      if faults SelectHighlights then (fs, Warned SelectHighlights) else
      let highlights := select_where (λ r, bool_decide (h_pdf_path r = pdf_path)) old_h in
      match old_pdf_comments old with
      | None => (fs, Silenced)
      | Some old_c =>
        if faults SelectComments then (fs, Warned SelectComments) else
        let comments := select_where (λ r, bool_decide (c_pdf_path r = pdf_path)) old_c in
        if is_nil highlights && is_nil comments then (fs, Skipped) else
        if faults ConnectNew then (fs, Warned ConnectNew) else
        let '(fs1, new_conn) := get_pdf_specific_db_connection fs pdf_path in
        if faults CreateTables then (fs1, Warned CreateTables) else
        if negb (is_nil highlights) && faults InsertHighlights then (fs1, Warned InsertHighlights) else
        let new_h := foldl insert_or_ignore_highlight_row (pdf_highlights new_conn) highlights in
        if negb (is_nil comments) && faults InsertComments then (fs1, Warned InsertComments) else
        let new_c := foldl insert_or_ignore_comment_row (pdf_comments new_conn) comments in
        if faults CommitNew then (fs1, Warned CommitNew) else
        let fs2 := commit_pdf_db fs1 pdf_path (PdfDb new_h new_c) in
        if faults CloseNew then (fs2, Warned CloseNew) else
        if faults DeleteHighlights then (fs2, Warned DeleteHighlights) else
        let old_h' := delete_where (λ r, bool_decide (h_pdf_path r = pdf_path)) old_h in
        if faults DeleteComments then (fs2, Warned DeleteComments) else
        let old_c' := delete_where (λ r, bool_decide (c_pdf_path r = pdf_path)) old_c in
        if faults CommitOld then (fs2, Warned CommitOld) else
        let fs3 := Profile (pdf_files fs2)
                     (Some (MainDb (item_queue old) (Some old_h') (Some old_c'))) in
        if faults CloseOld then (fs3, Warned CloseOld) else
        (fs3, Migrated)
      end
    end
  end.

(** ** Opening the viewer and editing annotations *)

(** [PdfViewerDialog.__init__] up to the point where the document is opened;
    [initial_dpi] is the configured ["zoom.initial_dpi"]. *)
Definition PdfViewerDialog_init (faults : migration_step → bool) (w : world)
    (pdf_path : string) (initial_dpi : Z) : world * PdfViewerDialog :=
  let '(fs1, _) := migrate_pdf_data faults (fs w) pdf_path in
  let '(fs2, (last_page, progress_json)) := get_item_details fs1 pdf_path in
  (World fs2 (cache_dir w) (heap w) (render_calls w),
   Viewer pdf_path None 0 initial_dpi last_page last_page [] [] None).

(** [_open_pdf_document] when the PDF library hands back [d]. *)
Definition _open_pdf_document (self : PdfViewerDialog) (d : document) : PdfViewerDialog :=
  Viewer (pdf_path self) (Some d) (total_pages self) (current_dpi self)
    (last_known_page self) (current_page_num self) (search_results self)
    (page_widgets self) (visible_page self).

(** [setup_pages], without the single-shot timer it arms at the end. *)
Definition setup_pages (w : world) (self : PdfViewerDialog)
    : outcome (world * PdfViewerDialog) :=
  match doc self with
  | None => Returned (w, self)
  | Some d =>
    let total := page_count d in
    let self := Viewer (pdf_path self) (doc self) total (current_dpi self)
                  (last_known_page self) (current_page_num self) (search_results self)
                  [] (visible_page self) in
    if negb (0 <? total) then Returned (w, self) else
    let self := Viewer (pdf_path self) (doc self) total (current_dpi self)
                  (last_known_page self) (current_page_num self) (search_results self)
                  (replicate (Z.to_nat total) NullPixmap) (visible_page self) in
    '(w, self) ← load_all_pages w self;
    let '(fs1, _) := populate_annotations_list (fs w) (pdf_path self) in
    Returned (World fs1 (cache_dir w) (heap w) (render_calls w), self)
  end.

(** Opening a document: [__init__], [_open_pdf_document], [setup_pages], and
    then the timer callback [go_to_page(self.last_known_page)] (which
    [setup_pages] arms only when the document has pages). *)
Definition open_viewer (faults : migration_step → bool) (w : world)
    (pdf_path : string) (initial_dpi : Z) (d : document)
    : outcome (world * PdfViewerDialog) :=
  let '(w, self) := PdfViewerDialog_init faults w pdf_path initial_dpi in
  let self := _open_pdf_document self d in
  '(w, self) ← setup_pages w self;
  if negb (0 <? total_pages self) then Returned (w, self) else
  self ← go_to_page self (last_known_page self);
  Returned (w, self).

(** The store operation behind each annotation gesture of the viewer:
    highlighting a selection, removing a clicked highlight, placing a
    comment, and saving or deleting a comment from its dialog. *)
Inductive annotation_edit :=
  | AddHighlight (page_number : Z) (rect : Rect) (text : string)
  | RemoveHighlight (page_number : Z) (rect : Rect)
  | AddComment (page_number : Z) (point : Point) (text : string)
  | UpdateComment (page_number : Z) (comment_id : Z) (new_text : string)
  | DeleteComment (page_number : Z) (comment_id : Z).

Definition edit_page (e : annotation_edit) : Z :=
  match e with
  | AddHighlight p _ _ | RemoveHighlight p _ | AddComment p _ _
  | UpdateComment p _ _ | DeleteComment p _ => p
  end.

Definition edit_store (fs : profile) (pdf_path : string) (e : annotation_edit) : profile :=
  match e with
  | AddHighlight p rect text => add_highlight_to_db fs pdf_path p rect text
  | RemoveHighlight p rect => remove_highlight_from_db fs pdf_path p rect
  | AddComment p point text => fst (add_comment_to_db fs pdf_path p point text)
  | UpdateComment _ id text => update_comment_in_db fs pdf_path id text
  | DeleteComment _ id => delete_comment_from_db fs pdf_path id
  end.

(** Every gesture does the same three things: the store operation,
    [self.load_page(page_number)], [self.populate_annotations_list()]. *)
Definition apply_edit (w : world) (self : PdfViewerDialog) (e : annotation_edit)
    : outcome (world * PdfViewerDialog) :=
  let w := World (edit_store (fs w) (pdf_path self) e) (cache_dir w) (heap w) (render_calls w) in
  '(w, self) ← load_page w self (edit_page e);
  let '(fs1, _) := populate_annotations_list (fs w) (pdf_path self) in
  Returned (World fs1 (cache_dir w) (heap w) (render_calls w), self).

Fixpoint apply_edits (w : world) (self : PdfViewerDialog) (es : list annotation_edit)
    : outcome (world * PdfViewerDialog) :=
  match es with
  | [] => Returned (w, self)
  | e :: es => '(w, self) ← apply_edit w self e; apply_edits w self es
  end.

(** ** Observations used in the statements *)

(** The per-document store as it is on disk (empty when the file does not
    exist yet). *)
Definition pdf_db_of (fs : profile) (pdf_path : string) : pdf_db :=
  default empty_pdf_db (pdf_files fs !! get_pdf_db_path pdf_path).

Definition stored_highlights (fs : profile) (pdf_path : string) : list highlight_row :=
  rows (pdf_highlights (pdf_db_of fs pdf_path)).

Definition stored_comments (fs : profile) (pdf_path : string) : list comment_row :=
  rows (pdf_comments (pdf_db_of fs pdf_path)).

(** The [UNIQUE] constraint of [pdf_highlights], as a property of the rows. *)
Definition unique_highlights (l : list highlight_row) : Prop :=
  NoDup (h_unique_key <$> l).

(** The entry a highlight row and a comment row give in the listing. *)
Definition highlight_annotation (r : highlight_row) : annotation :=
  Annotation highlight (h_page_number r) (h_highlighted_text r).

Definition comment_annotation (r : comment_row) : annotation :=
  Annotation comment (c_page_number r) (Some (c_comment_text r)).

(** The readable cache entry for a file name, if any. *)
Definition cached_image (w : world) (name : string) : option image :=
  match cache_dir w !! name with Some (PngFile img) => Some img | _ => None end.

(** What [setup_pages] establishes: a document is open and there is one
    page widget per page. *)
Definition viewer_ready (self : PdfViewerDialog) : Prop :=
  is_Some (doc self) ∧ length (page_widgets self) = Z.to_nat (total_pages self).

(** The viewer changed in its page widgets only. *)
Definition same_but_widgets (self self' : PdfViewerDialog) : Prop :=
  pdf_path self' = pdf_path self ∧ doc self' = doc self
  ∧ total_pages self' = total_pages self ∧ current_dpi self' = current_dpi self
  ∧ last_known_page self' = last_known_page self
  ∧ current_page_num self' = current_page_num self
  ∧ search_results self' = search_results self
  ∧ visible_page self' = visible_page self
  ∧ length (page_widgets self') = length (page_widgets self).

(** The annotations panel as the specification words it: every annotation
    created so far, sorted by page, same-page entries in the order they were
    created whatever their type.  Compared with [all_annotations] below. *)
Definition annotation_of_edit (e : annotation_edit) : option annotation :=
  match e with
  | AddHighlight p _ text => Some (Annotation highlight p (Some text))
  | AddComment p _ text => Some (Annotation comment p (Some text))
  | _ => None
  end.

Definition listing_in_creation_order (es : list annotation_edit) : list annotation :=
  sorted_by_key a_page (omap annotation_of_edit es).

(** ** The document queue *)

(** [INSERT OR IGNORE INTO item_queue (title, path) VALUES (?, ?)]: [path]
    is [UNIQUE]; [last_page] takes its column default 1 and [progress] stays
    NULL. *)
Definition insert_or_ignore_queue_item (t : table queue_item) (title path : string)
    : table queue_item :=
  let id := new_rowid t in
  Table (if existsb (λ r, bool_decide (q_path r = path)) (rows t) then rows t
         else rows t ++ [QueueItem id (Some title) path (Some 1) None]) id.

Definition add_to_item_queue (fs : profile) (title path : string) : profile :=
  let '(fs, conn) := get_main_db_connection fs in
  Profile (pdf_files fs)
    (Some (MainDb (insert_or_ignore_queue_item (item_queue conn) title path)
             (old_pdf_highlights conn) (old_pdf_comments conn))).

(** The row is deleted and committed, then the per-document store file is
    removed when it exists. *)
Definition remove_from_item_queue (fs : profile) (path : string) : profile :=
  let '(fs, conn) := get_main_db_connection fs in
  Profile (delete (get_pdf_db_path path) (pdf_files fs))
    (Some (MainDb (delete_where (λ r, bool_decide (q_path r = path)) (item_queue conn))
             (old_pdf_highlights conn) (old_pdf_comments conn))).

(** [SELECT title, path FROM item_queue ORDER BY id]. *)
Definition get_item_queue (fs : profile) : profile * list (option string * string) :=
  let '(fs, conn) := get_main_db_connection fs in
  (fs, map (λ r, (q_title r, q_path r)) (sorted_by_key q_id (rows (item_queue conn)))).

Definition save_progress (fs : profile) (path : string) (progress_json : string) : profile :=
  let '(fs, conn) := get_main_db_connection fs in
  Profile (pdf_files fs)
    (Some (MainDb
       (Table (map (λ r, if bool_decide (q_path r = path)
                         then QueueItem (q_id r) (q_title r) (q_path r) (q_last_page r)
                                (Some progress_json)
                         else r) (rows (item_queue conn)))
              (sqlite_sequence (item_queue conn)))
       (old_pdf_highlights conn) (old_pdf_comments conn))).

(** The rows of [item_queue] as they are on disk. *)
Definition queue_rows (fs : profile) : list queue_item :=
  rows (item_queue (default empty_main_db (item_manager fs))).

(** ** Moving between pages *)

Definition go_to_previous_page (self : PdfViewerDialog) : outcome PdfViewerDialog :=
  go_to_page self (current_page_num self - 1).

Definition go_to_next_page (self : PdfViewerDialog) : outcome PdfViewerDialog :=
  go_to_page self (current_page_num self + 1).

(** [input] is [int(self.page_input.text())], [None] when that raises
    [ValueError]. *)
Definition jump_to_page_from_input (self : PdfViewerDialog) (input : option Z)
    : outcome PdfViewerDialog :=
  match input with
  | Some page_to_jump =>
    if (1 <=? page_to_jump) && (page_to_jump <=? total_pages self)
    then go_to_page self page_to_jump else Returned self
  | None => Returned self
  end.

(** [abs(f)]. *)
Definition Qc_abs (f : Qc) : Qc := if Qc_ltb f 0 then (- f)%Qc else f.

(** [abs(viewport_center - widget_center)] for a widget given by its
    [(y(), height())]. *)
Definition widget_distance (viewport_center : Qc) (widget : Z * Z) : Qc :=
  let widget_center := (Qc_of_Z widget.1 + Qc_of_Z widget.2 / Qc_of_Z 2)%Qc in
  Qc_abs (viewport_center - widget_center).

(** The loop of [update_current_page_on_scroll] from widget number [i] on;
    [min_distance] is [None] for [float('inf')]. *)
Fixpoint closest_page_from (viewport_center : Qc) (i : Z) (closest_page : Z)
    (min_distance : option Qc) (widgets : list (Z * Z)) : Z :=
  match widgets with
  | [] => closest_page
  | widget :: widgets =>
    let distance := widget_distance viewport_center widget in
    if match min_distance with None => true | Some m => Qc_ltb distance m end
    then closest_page_from viewport_center (i + 1) (i + 1) (Some distance) widgets
    else closest_page_from viewport_center (i + 1) closest_page min_distance widgets
  end.

(** [c] is the first widget of [p] at the least distance. *)
Definition first_closest (viewport_center : Qc) (p : list (Z * Z)) (c : Z) : Prop :=
  1 ≤ c ≤ Z.of_nat (length p)
  ∧ ∃ w, p !! Z.to_nat (c - 1) = Some w
      ∧ (∀ j w', p !! j = Some w' →
           (widget_distance viewport_center w ≤ widget_distance viewport_center w')%Qc)
      ∧ (∀ j w', p !! j = Some w' → Z.of_nat j < c - 1 →
           (widget_distance viewport_center w < widget_distance viewport_center w')%Qc).

(** [geometry] lists [(y(), height())] of the page widgets, in order;
    [scroll_value] and [viewport_height] are the scroll bar's value and the
    viewport's height. *)
Definition update_current_page_on_scroll (self : PdfViewerDialog)
    (scroll_value viewport_height : Z) (geometry : list (Z * Z)) : PdfViewerDialog :=
  match page_widgets self with
  | [] => self
  | _ =>
    let viewport_center := (Qc_of_Z scroll_value + Qc_of_Z viewport_height / Qc_of_Z 2)%Qc in
    let closest_page := closest_page_from viewport_center 0 1 None geometry in
    if bool_decide (current_page_num self ≠ closest_page)
    then Viewer (pdf_path self) (doc self) (total_pages self) (current_dpi self)
           (last_known_page self) closest_page (search_results self)
           (page_widgets self) (visible_page self)
    else self
  end.

(** A step of the user through the document. *)
Inductive navigation :=
  | GoToPage (page_num : Z)
  | PreviousPage
  | NextPage
  | JumpToInput (input : option Z).

Definition navigate (self : PdfViewerDialog) (step : navigation) : outcome PdfViewerDialog :=
  match step with
  | GoToPage n => go_to_page self n
  | PreviousPage => go_to_previous_page self
  | NextPage => go_to_next_page self
  | JumpToInput input => jump_to_page_from_input self input
  end.

Fixpoint navigate_all (self : PdfViewerDialog) (steps : list navigation)
    : outcome PdfViewerDialog :=
  match steps with
  | [] => Returned self
  | step :: steps => self ← navigate self step; navigate_all self steps
  end.

(** ** Zoom *)

Definition with_dpi (self : PdfViewerDialog) (dpi : Z) : PdfViewerDialog :=
  Viewer (pdf_path self) (doc self) (total_pages self) dpi
    (last_known_page self) (current_page_num self) (search_results self)
    (page_widgets self) (visible_page self).

(** [step_dpi] is the configured ["zoom.step_dpi"]. *)
Definition zoom_in (w : world) (self : PdfViewerDialog) (step_dpi : Z)
    : outcome (world * PdfViewerDialog) :=
  load_all_pages w (with_dpi self (current_dpi self + step_dpi)).

Definition zoom_out (w : world) (self : PdfViewerDialog) (step_dpi : Z)
    : outcome (world * PdfViewerDialog) :=
  if 50 <? current_dpi self
  then load_all_pages w (with_dpi self (current_dpi self - step_dpi))
  else Returned (w, self).

Inductive zoom := ZoomIn | ZoomOut.

Fixpoint zoom_all (w : world) (self : PdfViewerDialog) (step_dpi : Z) (zs : list zoom)
    : outcome (world * PdfViewerDialog) :=
  match zs with
  | [] => Returned (w, self)
  | z :: zs =>
    '(w, self) ← match z with
                 | ZoomIn => zoom_in w self step_dpi
                 | ZoomOut => zoom_out w self step_dpi
                 end;
    zoom_all w self step_dpi zs
  end.

(** Every page of the document has a readable cache file at the current
    dpi. *)
Definition pages_cached (w : world) (self : PdfViewerDialog) : Prop :=
  ∀ n, 1 ≤ n ≤ total_pages self →
    is_Some (cached_image w (cache_filename (pdf_path self) n (current_dpi self))).

(** ** Stepping through search results *)

(** The viewer keeps [current_search_index] beside [search_results]; it is
    passed in and handed back next to the viewer. *)
Definition go_to_next_result (self : PdfViewerDialog) (current_search_index : Z)
    : outcome (PdfViewerDialog * Z) :=
  match search_results self with
  | [] => Returned (self, current_search_index)
  | _ =>
    let current_search_index :=
      (current_search_index + 1) `mod` Z.of_nat (length (search_results self)) in
    match search_results self !! Z.to_nat current_search_index with
    | None => Raised "IndexError"
    | Some (page_num, rect) =>
      self ← go_to_page self page_num; Returned (self, current_search_index)
    end
  end.

Definition go_to_prev_result (self : PdfViewerDialog) (current_search_index : Z)
    : outcome (PdfViewerDialog * Z) :=
  match search_results self with
  | [] => Returned (self, current_search_index)
  | _ =>
    let current_search_index := current_search_index - 1 in
    let current_search_index :=
      if current_search_index <? 0
      then Z.of_nat (length (search_results self)) - 1 else current_search_index in
    match search_results self !! Z.to_nat current_search_index with
    | None => Raised "IndexError"
    | Some (page_num, rect) =>
      self ← go_to_page self page_num; Returned (self, current_search_index)
    end
  end.

(** ** Colours of extracted text *)

(** The values [srgb_int_to_css] tells apart: an [int], or anything else. *)
Inductive span_color := ColorInt (n : Z) | ColorOther.

Definition srgb_components (srgb_int : Z) : Z * Z * Z :=
  (Z.land (Z.shiftr srgb_int 16) 255, Z.land (Z.shiftr srgb_int 8) 255, Z.land srgb_int 255).

Definition srgb_int_to_css (srgb_int : span_color) : string :=
  match srgb_int with
  | ColorOther => "var(--text-fg)"
  | ColorInt n =>
    let '(r, g, b) := srgb_components n in
    "rgb(" +:+ pretty r +:+ ", " +:+ pretty g +:+ ", " +:+ pretty b +:+ ")"
  end.

(** ** Opening a protected document *)

(** What [fitz.open] finds: whether the file is encrypted, which passwords
    [authenticate] accepts, and its page count. *)
Record pdf_on_disk := PdfOnDisk {
  is_encrypted : bool;
  authenticate : string → bool;
  disk_page_count : Z
}.

(** The [while True] loop of [_open_pdf_with_prompt].  [answers] are the
    results [(text, ok)] of the password dialog, in order; the loop has no
    result ([None]) while the dialog waits for an answer that is not in the
    list. *)
Fixpoint password_loop (pdf : pdf_on_disk) (pdf_path : string)
    (pdf_passwords : gmap string string) (password : string)
    (answers : list (string * bool))
    : option (gmap string string * option document) :=
  if authenticate pdf password
  then Some (<[pdf_path := password]> pdf_passwords,
             Some (Document pdf_path (disk_page_count pdf)))
  else match answers with
       | [] => None
       | (text, ok) :: answers =>
         if ok then password_loop pdf pdf_path pdf_passwords text answers
         else Some (pdf_passwords, None)
       end.

(** [opened] is [None] when [fitz.open] raises (the handler shows a warning
    and returns [None]).  The result is the password cache and the document
    handed back. *)
Definition _open_pdf_with_prompt (opened : option pdf_on_disk) (pdf_path : string)
    (prompt_if_needed : bool) (pdf_passwords : gmap string string)
    (answers : list (string * bool))
    : option (gmap string string * option document) :=
  match opened with
  | None => Some (pdf_passwords, None)
  | Some pdf =>
    let doc := Document pdf_path (disk_page_count pdf) in
    if is_encrypted pdf then
      if match pdf_passwords !! pdf_path with
         | Some cached_password => authenticate pdf cached_password
         | None => false
         end
      then Some (pdf_passwords, Some doc)
      else if negb prompt_if_needed then Some (pdf_passwords, None)
      else password_loop pdf pdf_path pdf_passwords "" answers
    else Some (pdf_passwords, Some doc)
  end.

(** ** Closing the viewer *)

(** [closeEvent]: the page number is saved; closing the document handle and
    detaching from the editor leave the stores as they are. *)
Definition closeEvent (w : world) (self : PdfViewerDialog) : world :=
  World (save_last_page (fs w) (pdf_path self) (current_page_num self))
    (cache_dir w) (heap w) (render_calls w).

(** * Properties *)

(** ** Tables *)

Lemma unique_conflict_spec l r :
  unique_conflict l r = true ↔ h_unique_key r ∈ h_unique_key <$> l.
Proof.
  unfold unique_conflict. rewrite existsb_exists, list_elem_of_fmap.
  split.
  - intros (r' & Hin & Heq). apply bool_decide_eq_true in Heq.
    exists r'. split; [done | by apply list_elem_of_In].
  - intros (r' & Heq & Hin). exists r'. split; [by apply list_elem_of_In |].
    by apply bool_decide_eq_true.
Qed.

Lemma max_rowid_ge `{HasRowid A} (l : list A) r : r ∈ l → rowid r ≤ max_rowid l.
Proof.
  induction 1 as [r l | r r' l _ IH]; simpl; lia.
Qed.

(** A rowid handed out by [AUTOINCREMENT] is above every rowid in the table
    and above the sequence counter. *)
Lemma new_rowid_fresh `{HasRowid A} (t : table A) r :
  r ∈ rows t → rowid r < new_rowid t.
Proof. intros Hin. apply max_rowid_ge in Hin. unfold new_rowid. lia. Qed.

Lemma new_rowid_above_sequence `{HasRowid A} (t : table A) :
  sqlite_sequence t < new_rowid t.
Proof. unfold new_rowid. lia. Qed.

Lemma filter_none {A} (P : A → Prop) `{∀ x, Decision (P x)} (l : list A) :
  (∀ x, x ∈ l → ¬ P x) → filter P l = [].
Proof.
  intros Hno. destruct (filter P l) as [|x l'] eqn:E; [done |].
  assert (x ∈ filter P l) as Hx by (rewrite E; left).
  apply list_elem_of_filter in Hx as [HP Hx]. by destruct (Hno x Hx).
Qed.

Lemma filter_all {A} (P : A → Prop) `{∀ x, Decision (P x)} (l : list A) :
  (∀ x, x ∈ l → P x) → filter P l = l.
Proof.
  induction l as [|a l IH]; intros Hall; [done |].
  rewrite filter_cons_True by (apply Hall; left).
  f_equal. apply IH. intros x Hx. apply Hall. by right.
Qed.

(** Rows selected by a key that holds at most once. *)
Lemma filter_unique_key {A K} `{EqDecision K} (key : A → K) (k : K) (l : list A) :
  NoDup (key <$> l) → k ∈ key <$> l →
  length (filter (λ r, key r = k) l) = 1%nat.
Proof.
  induction l as [|a l IH]; simpl; intros Hnd Hin.
  - by apply elem_of_nil in Hin.
  - apply NoDup_cons in Hnd as [Hna Hnd].
    rewrite filter_cons. destruct (decide (key a = k)) as [Heq | Hne]; simpl.
    + f_equal. rewrite filter_none; [done |].
      intros r Hr Hk. apply Hna. rewrite Heq, <- Hk. by apply list_elem_of_fmap_2.
    + apply IH; [done |]. apply elem_of_cons in Hin as [Hin | Hin]; [congruence | done].
Qed.

Lemma insert_or_ignore_highlight_rows t p n a0 b0 a1 b1 text :
  (p, n, a0, b0, a1, b1) ∈ h_unique_key <$> rows t →
  rows (insert_or_ignore_highlight t p n a0 b0 a1 b1 text) = rows t.
Proof.
  intros Hin. unfold insert_or_ignore_highlight. simpl.
  set (r := HighlightRow _ _ _ _ _ _ _ _).
  destruct (unique_conflict (rows t) r) eqn:Hc; [done |].
  apply not_true_iff_false in Hc. destruct Hc. by apply unique_conflict_spec.
Qed.

Lemma insert_or_ignore_highlight_key t p n a0 b0 a1 b1 text :
  (p, n, a0, b0, a1, b1) ∈
    h_unique_key <$> rows (insert_or_ignore_highlight t p n a0 b0 a1 b1 text).
Proof.
  unfold insert_or_ignore_highlight. simpl.
  set (r := HighlightRow _ _ _ _ _ _ _ _).
  destruct (unique_conflict (rows t) r) eqn:Hc.
  - by apply unique_conflict_spec in Hc.
  - rewrite fmap_app. apply elem_of_app. right. simpl. apply list_elem_of_singleton. done.
Qed.

Lemma insert_or_ignore_highlight_unique t p n a0 b0 a1 b1 text :
  unique_highlights (rows t) →
  unique_highlights (rows (insert_or_ignore_highlight t p n a0 b0 a1 b1 text)).
Proof.
  unfold unique_highlights, insert_or_ignore_highlight. simpl. intros Hnd.
  set (r := HighlightRow _ _ _ _ _ _ _ _).
  destruct (unique_conflict (rows t) r) eqn:Hc; [done |].
  rewrite fmap_app. apply NoDup_app. split; [done |]. split.
  - intros k Hk Hk'. apply list_elem_of_singleton in Hk'. subst k.
    apply not_true_iff_false in Hc. apply Hc. by apply unique_conflict_spec.
  - apply NoDup_singleton.
Qed.

(** ** Files *)

Lemma pdf_db_of_connection fs p :
  pdf_db_of (get_pdf_specific_db_connection fs p).1 p = pdf_db_of fs p
  ∧ (get_pdf_specific_db_connection fs p).2 = pdf_db_of fs p.
Proof.
  unfold get_pdf_specific_db_connection, pdf_db_of. simpl.
  by rewrite lookup_insert_eq.
Qed.

Lemma pdf_db_of_commit fs p conn : pdf_db_of (commit_pdf_db fs p conn) p = conn.
Proof. unfold commit_pdf_db, pdf_db_of. simpl. by rewrite lookup_insert_eq. Qed.

Lemma pdf_db_of_add_highlight fs p n rect text :
  pdf_db_of (add_highlight_to_db fs p n rect text) p =
  PdfDb (insert_or_ignore_highlight (pdf_highlights (pdf_db_of fs p)) p n
           (Rect_x0 rect) (Rect_y0 rect) (Rect_x1 rect) (Rect_y1 rect) (Some text))
        (pdf_comments (pdf_db_of fs p)).
Proof.
  unfold add_highlight_to_db.
  destruct (get_pdf_specific_db_connection fs p) as [fs1 conn] eqn:E.
  rewrite pdf_db_of_commit.
  pose proof (pdf_db_of_connection fs p) as [_ H]. rewrite E in H. simpl in H. by subst.
Qed.

Lemma pdf_db_of_remove_highlight fs p n rect :
  pdf_db_of (remove_highlight_from_db fs p n rect) p =
  PdfDb (delete_where (highlight_matches p n rect) (pdf_highlights (pdf_db_of fs p)))
        (pdf_comments (pdf_db_of fs p)).
Proof.
  unfold remove_highlight_from_db.
  destruct (get_pdf_specific_db_connection fs p) as [fs1 conn] eqn:E.
  rewrite pdf_db_of_commit.
  pose proof (pdf_db_of_connection fs p) as [_ H]. rewrite E in H. simpl in H. by subst.
Qed.

Lemma pdf_db_of_add_comment fs p n point text :
  pdf_db_of (add_comment_to_db fs p n point text).1 p =
  PdfDb (pdf_highlights (pdf_db_of fs p))
        (insert_comment (pdf_comments (pdf_db_of fs p)) p n
           (Point_x point) (Point_y point) text).
Proof.
  unfold add_comment_to_db.
  destruct (get_pdf_specific_db_connection fs p) as [fs1 conn] eqn:E. simpl.
  rewrite pdf_db_of_commit.
  pose proof (pdf_db_of_connection fs p) as [_ H]. rewrite E in H. simpl in H. by subst.
Qed.

(** ** Coordinate mapper *)

Lemma py_truediv_cases a b :
  py_truediv a b = Raised "ZeroDivisionError"
  ∨ ∃ f, py_truediv a b = Returned (PyFloat f).
Proof. unfold py_truediv. case_bool_decide; [by left | right; by eexists]. Qed.

(** C2 (the code raises where the claim says null).  With a pixmap and a
    label of non-empty size the mapper never reaches its padding test: the
    rectangle of the image is built by [QRect(offset_x, offset_y, scaled_w,
    scaled_h)], one of the two offsets is the float result of a division by
    2, and the call raises [TypeError].  So every selection and every click,
    in the padding or on the image, raises instead of mapping to [None] or
    to a point.  (A [ZeroDivisionError] comes first only when the ratio of
    the pixmap rounds to zero, which no screen-sized pixmap does.) *)
Theorem mapping_raises_before_padding_test current_dpi pix lbl :
  QSize_isEmpty pix = false → QSize_isEmpty lbl = false →
  let page_widget := MkPageWidget (Some pix) lbl in
  (∀ selection_rect, ∃ e,
     _convert_widget_pos_to_pdf_rect current_dpi page_widget selection_rect = Raised e
     ∧ (e = "TypeError"%string ∨ e = "ZeroDivisionError"%string))
  ∧ (∀ pos, ∃ e,
       _convert_widget_pos_to_pdf_point current_dpi page_widget pos = Raised e
       ∧ _convert_widget_pos_to_pdf_point current_dpi page_widget pos ≠ Returned None).
Proof.
  intros Hpix Hlbl page_widget.
  assert (∀ selection_rect, ∃ e,
            _convert_widget_pos_to_pdf_rect current_dpi page_widget selection_rect = Raised e
            ∧ (e = "TypeError"%string ∨ e = "ZeroDivisionError"%string)) as Hrect.
  { intros selection_rect. unfold _convert_widget_pos_to_pdf_rect, page_widget.
    cbn [pixmap_size label_size]. rewrite Hpix, Hlbl. cbn [orb].
    set (ratio_pix := if 0 <? QSize_height pix then _ else _).
    assert (ratio_pix = Raised "ZeroDivisionError" ∨ ∃ a, ratio_pix = Returned a) as Hp.
    { unfold ratio_pix. destruct (0 <? QSize_height pix); [| right; by eexists].
      destruct (py_truediv_cases (PyInt (QSize_width pix)) (PyInt (QSize_height pix)))
        as [-> | [f ->]]; [by left | right; by eexists]. }
    destruct Hp as [-> | [rp ->]]; [eexists; split; [done | by right] |].
    set (ratio_lbl := if 0 <? QSize_height lbl then _ else _).
    assert (ratio_lbl = Raised "ZeroDivisionError" ∨ ∃ a, ratio_lbl = Returned a) as Hl.
    { unfold ratio_lbl. destruct (0 <? QSize_height lbl); [| right; by eexists].
      destruct (py_truediv_cases (PyInt (QSize_width lbl)) (PyInt (QSize_height lbl)))
        as [-> | [f ->]]; [by left | right; by eexists]. }
    destruct Hl as [-> | [rl ->]]; [eexists; split; [done | by right] |].
    cbn [mbind outcome_bind].
    destruct (py_gt rl rp).
    - destruct (py_truediv_cases
                  (PyInt (QSize_width lbl
                          - py_int (py_value (py_mul (PyInt (QSize_height lbl)) rp))))
                  (PyInt 2)) as [-> | [f ->]]; cbn [mbind outcome_bind];
        eexists; (split; [reflexivity |]); [by right | by left].
    - destruct (py_truediv_cases (PyInt (QSize_width lbl)) rp) as [-> | [f ->]];
        cbn [mbind outcome_bind]; [eexists; split; [reflexivity | by right] |].
      destruct (py_truediv_cases
                  (PyInt (QSize_height lbl - py_int (py_value (PyFloat f)))) (PyInt 2))
        as [-> | [g ->]]; cbn [mbind outcome_bind];
        eexists; (split; [reflexivity |]); [by right | by left]. }
  split; [exact Hrect |].
  intros pos. unfold _convert_widget_pos_to_pdf_point.
  destruct (Hrect (QRect_pos_size pos (MkQSize 1 1))) as (e & -> & _).
  exists e. by split.
Qed.

(** ** Highlights *)

Lemma highlight_matches_spec p n rect r :
  highlight_matches p n rect r ↔
  h_unique_key r = (p, n, Rect_x0 rect, Rect_y0 rect, Rect_x1 rect, Rect_y1 rect).
Proof. unfold highlight_matches. apply bool_decide_spec. Qed.

(** C1. Calling [add_highlight_to_db] twice with the same document, page and
    rectangle (whatever the texts) leaves exactly one stored row for that
    tuple: the second call changes no row, and the [UNIQUE] constraint still
    holds.  The function has no raising path. *)
Theorem add_highlight_twice_one_row fs pdf_path page_num rect text text' :
  unique_highlights (stored_highlights fs pdf_path) →
  let fs1 := add_highlight_to_db fs pdf_path page_num rect text in
  let fs2 := add_highlight_to_db fs1 pdf_path page_num rect text' in
  stored_highlights fs2 pdf_path = stored_highlights fs1 pdf_path
  ∧ length (filter (λ r, highlight_matches pdf_path page_num rect r)
              (stored_highlights fs2 pdf_path)) = 1%nat
  ∧ unique_highlights (stored_highlights fs2 pdf_path).
Proof.
  intros Hu fs1 fs2. unfold stored_highlights in *. subst fs2 fs1.
  rewrite !pdf_db_of_add_highlight. cbn [pdf_highlights].
  set (t := pdf_highlights (pdf_db_of fs pdf_path)) in *.
  set (t1 := insert_or_ignore_highlight t _ _ _ _ _ _ (Some text)).
  assert (rows (insert_or_ignore_highlight t1 pdf_path page_num (Rect_x0 rect)
                  (Rect_y0 rect) (Rect_x1 rect) (Rect_y1 rect) (Some text')) = rows t1) as ->.
  { apply insert_or_ignore_highlight_rows, insert_or_ignore_highlight_key. }
  pose proof (insert_or_ignore_highlight_unique t pdf_path page_num (Rect_x0 rect)
                (Rect_y0 rect) (Rect_x1 rect) (Rect_y1 rect) (Some text) Hu) as Hu1.
  split; [done |]. split; [| done].
  rewrite (list_filter_iff _ (λ r, h_unique_key r =
             (pdf_path, page_num, Rect_x0 rect, Rect_y0 rect, Rect_x1 rect, Rect_y1 rect))).
  - apply filter_unique_key; [done |]. apply insert_or_ignore_highlight_key.
  - intros r. apply highlight_matches_spec.
Qed.

(** C9. [remove_highlight_from_db] keeps exactly the rows that do not match
    (document, page, rectangle), in their order.  Hence with no matching row
    the stored highlights are unchanged, and with a matching row (unique by
    the table's constraint) exactly one row goes.  Comments are untouched
    and the function has no raising path. *)
Theorem remove_highlight_exact_match_only fs pdf_path page_num rect :
  let fs1 := remove_highlight_from_db fs pdf_path page_num rect in
  stored_highlights fs1 pdf_path =
    filter (λ r, ¬ highlight_matches pdf_path page_num rect r) (stored_highlights fs pdf_path)
  ∧ stored_comments fs1 pdf_path = stored_comments fs pdf_path
  ∧ (existsb (highlight_matches pdf_path page_num rect) (stored_highlights fs pdf_path) = false →
     stored_highlights fs1 pdf_path = stored_highlights fs pdf_path)
  ∧ (unique_highlights (stored_highlights fs pdf_path) →
     existsb (highlight_matches pdf_path page_num rect) (stored_highlights fs pdf_path) = true →
     S (length (stored_highlights fs1 pdf_path)) = length (stored_highlights fs pdf_path)).
Proof.
  intros fs1. unfold stored_highlights, stored_comments. subst fs1.
  rewrite pdf_db_of_remove_highlight. simpl.
  set (l := rows (pdf_highlights (pdf_db_of fs pdf_path))).
  assert (filter (λ r, negb (highlight_matches pdf_path page_num rect r)) l =
          filter (λ r, ¬ highlight_matches pdf_path page_num rect r) l) as Hf.
  { apply list_filter_iff. intros r. apply negb_True. }
  rewrite Hf. split; [done |]. split; [done |]. split.
  - intros Hno. apply filter_all. intros r Hr Hm.
    assert (existsb (highlight_matches pdf_path page_num rect) l = true) as Hex.
    { apply existsb_exists. exists r. split; [by apply list_elem_of_In | by apply Is_true_eq_true]. }
    congruence.
  - intros Hu Hex.
    pose proof (filter_app_complement (λ r, Is_true (highlight_matches pdf_path page_num rect r)) l) as Hp.
    apply Permutation_length in Hp. rewrite length_app in Hp.
    rewrite (list_filter_iff _ (λ r, h_unique_key r =
               (pdf_path, page_num, Rect_x0 rect, Rect_y0 rect, Rect_x1 rect, Rect_y1 rect))) in Hp
      by (intros r; apply highlight_matches_spec).
    rewrite filter_unique_key in Hp; [simpl in Hp; lia | done |].
    apply existsb_exists in Hex as (r & Hr & Hm).
    apply Is_true_eq_left, highlight_matches_spec in Hm. rewrite <- Hm.
    apply list_elem_of_fmap_2. by apply list_elem_of_In.
Qed.

(** ** Comments *)

(** C3 (as the code has it). [add_comment_to_db] always appends one row,
    whatever is stored already; the row gets a rowid above every stored one,
    so two calls with the same arguments leave two rows with distinct ids.
    The function hands nothing back to its caller. *)
Theorem add_comment_appends_fresh_row fs pdf_path page_num point text :
  let t := pdf_comments (pdf_db_of fs pdf_path) in
  let '(fs1, ret1) := add_comment_to_db fs pdf_path page_num point text in
  let t1 := pdf_comments (pdf_db_of fs1 pdf_path) in
  let '(fs2, ret2) := add_comment_to_db fs1 pdf_path page_num point text in
  let row id := CommentRow id pdf_path page_num (Point_x point) (Point_y point) text in
  stored_comments fs1 pdf_path = stored_comments fs pdf_path ++ [row (new_rowid t)]
  ∧ stored_comments fs2 pdf_path =
      stored_comments fs pdf_path ++ [row (new_rowid t); row (new_rowid t1)]
  ∧ (∀ r, r ∈ stored_comments fs pdf_path → c_id r < new_rowid t)
  ∧ new_rowid t < new_rowid t1
  ∧ ret1 = None ∧ ret2 = None.
Proof.
  intros t.
  destruct (add_comment_to_db fs pdf_path page_num point text) as [fs1 ret1] eqn:E1.
  intros t1.
  destruct (add_comment_to_db fs1 pdf_path page_num point text) as [fs2 ret2] eqn:E2.
  intros row.
  pose proof (pdf_db_of_add_comment fs pdf_path page_num point text) as H1.
  pose proof (pdf_db_of_add_comment fs1 pdf_path page_num point text) as H2.
  rewrite E1 in H1. rewrite E2 in H2. simpl in H1, H2.
  assert (ret1 = None ∧ ret2 = None) as [-> ->].
  { unfold add_comment_to_db in E1, E2.
    destruct (get_pdf_specific_db_connection fs pdf_path).
    destruct (get_pdf_specific_db_connection fs1 pdf_path).
    split; congruence. }
  unfold stored_comments. subst t1. rewrite H2, H1. simpl. fold t.
  split; [done |]. split; [by rewrite <- app_assoc |].
  split; [intros r Hr; by apply (new_rowid_fresh t) |].
  split; [| done].
  apply (new_rowid_above_sequence
           (insert_comment t pdf_path page_num (Point_x point) (Point_y point) text)).
Qed.

(** ** Sorting *)

Section stable_sort.
Context {A : Type} (leb : A → A → bool).

Lemma insert_sorted_perm a l : insert_sorted leb a l ≡ₚ a :: l.
Proof.
  induction l as [|b l IH]; simpl; [done |].
  destruct (leb a b); [done |]. rewrite IH. apply perm_swap.
Qed.

Lemma stable_sort_perm l : stable_sort leb l ≡ₚ l.
Proof.
  induction l as [|a l IH]; simpl; [done |].
  rewrite insert_sorted_perm. by rewrite IH.
Qed.

Hypothesis leb_total : ∀ a b, leb a b = true ∨ leb b a = true.
Hypothesis leb_trans : ∀ a b c, leb a b = true → leb b c = true → leb a c = true.

Lemma insert_sorted_StronglySorted a l :
  StronglySorted (λ a b, leb a b = true) l →
  StronglySorted (λ a b, leb a b = true) (insert_sorted leb a l).
Proof.
  induction 1 as [|b l Hs IH Hb]; simpl.
  - repeat constructor.
  - destruct (leb a b) eqn:Hab.
    + constructor; [by constructor |].
      constructor; [done |].
      eapply Forall_impl; [exact Hb |]. intros c Hbc. by eapply leb_trans.
    + constructor; [done |].
      rewrite insert_sorted_perm. constructor; [| done].
      destruct (leb_total a b); congruence.
Qed.

Lemma stable_sort_StronglySorted l :
  StronglySorted (λ a b, leb a b = true) (stable_sort leb l).
Proof.
  induction l as [|a l IH]; simpl; [constructor |].
  by apply insert_sorted_StronglySorted.
Qed.
End stable_sort.

Lemma StronglySorted_filter {A} (R : relation A) (P : A → Prop) `{∀ x, Decision (P x)} l :
  StronglySorted R l → StronglySorted R (filter P l).
Proof.
  induction 1 as [|a l Hs IH Ha]; [constructor |].
  rewrite filter_cons. destruct (decide (P a)); [| done].
  constructor; [done |]. apply Forall_forall. intros b Hb.
  apply list_elem_of_filter in Hb as [_ Hb]. by eapply Forall_forall in Ha.
Qed.

Lemma StronglySorted_weaken {A} (R R' : relation A) l :
  (∀ a b, a ∈ l → b ∈ l → R a b → R' a b) →
  StronglySorted R l → StronglySorted R' l.
Proof.
  intros HR Hs. induction Hs as [|a l Hs IH Ha]; [constructor |].
  constructor.
  - apply IH. intros b c Hb Hc. apply HR; by right.
  - apply Forall_forall. intros b Hb. apply HR; [left | by right |].
    by eapply Forall_forall in Ha.
Qed.

(** Stability of [sorted(l, key=key)]: elements with equal keys keep their
    relative order. *)
Lemma sorted_by_key_stable {A} (key : A → Z) (k : Z) (l : list A) :
  filter (λ a, key a = k) (sorted_by_key key l) = filter (λ a, key a = k) l.
Proof.
  unfold sorted_by_key, stable_sort.
  induction l as [|a l IH]; simpl; [done |].
  rewrite (filter_cons _ a l), <- IH. clear IH.
  generalize (foldr (insert_sorted (λ a b, key a <=? key b)) [] l). intros s.
  induction s as [|b s IHs]; simpl; [done |].
  destruct (key a <=? key b) eqn:Hab; [done |].
  apply Z.leb_gt in Hab.
  rewrite !(filter_cons _ b), IHs.
  destruct (decide (key a = k)), (decide (key b = k)); try done. lia.
Qed.

Lemma sorted_by_key_sorted {A} (key : A → Z) (l : list A) :
  StronglySorted (λ a b, key a ≤ key b) (sorted_by_key key l).
Proof.
  eapply StronglySorted_weaken;
    [| apply (stable_sort_StronglySorted (λ a b, key a <=? key b))].
  - intros a b _ _ Hab. by apply Z.leb_le.
  - intros a b. destruct (Z.leb_spec (key a) (key b)); [by left |].
    right. apply Z.leb_le. lia.
  - intros a b c Hab Hbc. apply Z.leb_le. apply Z.leb_le in Hab, Hbc. lia.
Qed.

(** [ORDER BY page_number, id], read page by page: the rows of one page are
    those of the unsorted list, in ascending id. *)
Lemma order_by_page_id_page {A} (page id : A → Z) (p : Z) (l : list A) :
  let on_page := filter (λ r, page r = p) (order_by_page_id page id l) in
  on_page ≡ₚ filter (λ r, page r = p) l
  ∧ StronglySorted (λ r r', id r ≤ id r') on_page.
Proof.
  intros on_page. split.
  - unfold on_page, order_by_page_id. by rewrite stable_sort_perm.
  - eapply StronglySorted_weaken;
      [| apply StronglySorted_filter, stable_sort_StronglySorted].
    + intros r r' Hr Hr' Hle.
      apply list_elem_of_filter in Hr as [Hr _]. apply list_elem_of_filter in Hr' as [Hr' _].
      simpl in Hle. apply orb_true_iff in Hle as [Hlt | Heq]; [apply Z.ltb_lt in Hlt; lia |].
      apply andb_true_iff in Heq as [_ Hid]. by apply Z.leb_le.
    + intros a b. destruct (Z.lt_total (page a) (page b)) as [Hlt | [Heq | Hgt]].
      * left. apply orb_true_iff. left. by apply Z.ltb_lt.
      * destruct (Z.le_ge_cases (id a) (id b)); [left | right];
          apply orb_true_iff; right; apply andb_true_iff;
          (split; [apply Z.eqb_eq | apply Z.leb_le]); lia.
      * right. apply orb_true_iff. left. by apply Z.ltb_lt.
    + intros a b c Hab Hbc.
      apply orb_true_iff in Hab as [Hab | Hab]; apply orb_true_iff in Hbc as [Hbc | Hbc];
        repeat match goal with
        | H : (_ <? _) = true |- _ => apply Z.ltb_lt in H
        | H : _ && _ = true |- _ => apply andb_true_iff in H as [? ?]
        | H : (_ =? _) = true |- _ => apply Z.eqb_eq in H
        | H : (_ <=? _) = true |- _ => apply Z.leb_le in H
        end; apply orb_true_iff.
      * left. apply Z.ltb_lt. lia.
      * left. apply Z.ltb_lt. lia.
      * left. apply Z.ltb_lt. lia.
      * right. apply andb_true_iff. split; [apply Z.eqb_eq | apply Z.leb_le]; lia.
Qed.

(** ** The annotations panel *)

Lemma filter_fmap {A B} (f : A → B) (P : B → Prop) `{∀ x, Decision (P x)} (l : list A) :
  filter P (f <$> l) = f <$> filter (λ a, P (f a)) l.
Proof.
  induction l as [|a l IH]; [done |]. rewrite fmap_cons, !filter_cons, IH.
  by destruct (decide (P (f a))).
Qed.

Lemma all_annotations_eq fs p :
  (all_annotations fs p).2 =
  sorted_by_key a_page
    ((highlight_annotation <$> order_by_page_id h_page_number h_id
        (filter (λ r, h_pdf_path r = p) (stored_highlights fs p)))
     ++ (comment_annotation <$> order_by_page_id c_page_number c_id
        (filter (λ r, c_pdf_path r = p) (stored_comments fs p)))).
Proof.
  unfold all_annotations, get_all_highlights_for_pdf, get_all_comments_for_pdf.
  pose proof (pdf_db_of_connection fs p) as [H1 H2].
  destruct (get_pdf_specific_db_connection fs p) as [fs1 conn1]. simpl in H1, H2.
  pose proof (pdf_db_of_connection fs1 p) as [_ H4].
  destruct (get_pdf_specific_db_connection fs1 p) as [fs2 conn2]. simpl in H4.
  subst conn1 conn2. rewrite H1. simpl.
  unfold select_where, stored_highlights, stored_comments.
  rewrite (list_filter_iff (λ r, bool_decide (h_pdf_path r = p)) (λ r, h_pdf_path r = p))
    by (intros r; apply bool_decide_spec).
  rewrite (list_filter_iff (λ r, bool_decide (c_pdf_path r = p)) (λ r, c_pdf_path r = p))
    by (intros r; apply bool_decide_spec).
  done.
Qed.

(** C4 (as the code has it). The merged listing is in ascending page order.
    Read page by page, it shows the highlights of the page first and its
    comments after them, whenever they were created; the highlights are in
    ascending rowid, and so are the comments.  The annotations panel gets one
    item per entry of the listing, in that order. *)
Theorem all_annotations_by_page_then_kind fs pdf_path :
  let l := (all_annotations fs pdf_path).2 in
  StronglySorted (λ a b, a_page a ≤ a_page b) l
  ∧ (∀ page, ∃ hs cs,
       filter (λ a, a_page a = page) l =
         (highlight_annotation <$> hs) ++ (comment_annotation <$> cs)
       ∧ hs ≡ₚ filter (λ r, h_page_number r = page)
                 (filter (λ r, h_pdf_path r = pdf_path) (stored_highlights fs pdf_path))
       ∧ StronglySorted (λ r r', h_id r ≤ h_id r') hs
       ∧ cs ≡ₚ filter (λ r, c_page_number r = page)
                 (filter (λ r, c_pdf_path r = pdf_path) (stored_comments fs pdf_path))
       ∧ StronglySorted (λ r r', c_id r ≤ c_id r') cs)
  ∧ (populate_annotations_list fs pdf_path).2 =
      match l with [] => [NoAnnotationsFound] | _ => AnnotationItem <$> l end.
Proof.
  intros l. split; [| split].
  - unfold l. rewrite all_annotations_eq. apply sorted_by_key_sorted.
  - intros page.
    set (H := filter (λ r, h_pdf_path r = pdf_path) (stored_highlights fs pdf_path)).
    set (C := filter (λ r, c_pdf_path r = pdf_path) (stored_comments fs pdf_path)).
    exists (filter (λ r, h_page_number r = page) (order_by_page_id h_page_number h_id H)),
           (filter (λ r, c_page_number r = page) (order_by_page_id c_page_number c_id C)).
    destruct (order_by_page_id_page h_page_number h_id page H) as [Hp Hs].
    destruct (order_by_page_id_page c_page_number c_id page C) as [Cp Cs].
    split; [| done].
    unfold l. rewrite all_annotations_eq. fold H C.
    rewrite sorted_by_key_stable, filter_app, !filter_fmap. done.
  - unfold populate_annotations_list, l.
    by destruct (all_annotations fs pdf_path) as [fs1 [|a l1]].
Qed.

(** ** Render cache and compositing *)

Lemma same_but_widgets_refl self : same_but_widgets self self.
Proof. by repeat split. Qed.

Lemma same_but_widgets_trans a b c :
  same_but_widgets a b → same_but_widgets b c → same_but_widgets a c.
Proof. unfold same_but_widgets. intros ? ?. destruct_and!. repeat split; congruence. Qed.

Lemma same_but_widgets_set_pixmap self page_num p :
  same_but_widgets self (set_pixmap self page_num p).
Proof. unfold same_but_widgets, set_pixmap. simpl. repeat split. apply length_insert. Qed.

Lemma viewer_ready_same self self' :
  same_but_widgets self self' → viewer_ready self → viewer_ready self'.
Proof.
  unfold same_but_widgets, viewer_ready. intros ? [? ?]. destruct_and!.
  split; congruence.
Qed.

Lemma paint_other t h s i : i ≠ t → paint t h s !! i = h !! i.
Proof. intros Hne. unfold paint. by apply list_lookup_alter_ne. Qed.

Lemma foldl_paint_other {X} (f : X → stroke) t xs h i :
  i ≠ t → foldl (λ h x, paint t h (f x)) h xs !! i = h !! i.
Proof.
  intros Hne. revert h. induction xs as [|x xs IH]; intros h; simpl; [done |].
  rewrite IH. by apply paint_other.
Qed.

(** Compositing leaves the cache directory and every existing pixmap
    object, the base pixmap included, as they were. *)
Lemma composite_overlays_frame w self page_num qpixmap :
  let r := composite_overlays w self page_num qpixmap in
  cache_dir r.1 = cache_dir w
  ∧ render_calls r.1 = render_calls w
  ∧ (∀ i p, heap w !! i = Some p → heap r.1 !! i = Some p)
  ∧ ∃ p, r.2 = set_pixmap self page_num p.
Proof.
  unfold composite_overlays.
  destruct (get_highlights_for_page _ _ _) as [fs1 highlights].
  destruct (get_comments_for_page _ _ _) as [fs2 comments].
  set (search_rects := map snd _).
  assert (∀ (xs : list Rect) (ys : list Rect) (cs : list page_comment) f g k i p,
            heap w !! i = Some p →
            foldl (λ h c, paint (length (heap w)) h (k c))
              (foldl (λ h y, paint (length (heap w)) h (g y))
                 (foldl (λ h x, paint (length (heap w)) h (f x))
                    (heap w ++ [default NullPixmap (heap w !! qpixmap)]) xs) ys) cs !! i
            = Some p) as Hpaint.
  { intros xs ys cs f g k i p Hi.
    assert (i ≠ length (heap w)) as Hne by (apply lookup_lt_Some in Hi; lia).
    rewrite !foldl_paint_other by done. rewrite lookup_app_l; [done |].
    by apply lookup_lt_Some in Hi. }
  destruct highlights, comments, search_rects; unfold alloc;
    cbn [fst snd cache_dir render_calls heap];
    (split; [done |]; split; [done |]; split; [| by eexists]);
    try done; intros i0 p0 Hi; by apply Hpaint.
Qed.

Lemma load_base_pixmap_spec w self d page_num :
  let name := cache_filename (pdf_path self) page_num (current_dpi self) in
  let pix := Image (doc_path d, page_num - 1, current_dpi self) [] in
  let r := load_base_pixmap w self d page_num in
  fs r.1 = fs w
  ∧ (∀ i p, heap w !! i = Some p → heap r.1 !! i = Some p)
  ∧ match cached_image w name with
    | Some img =>
      cache_dir r.1 = cache_dir w ∧ render_calls r.1 = render_calls w
      ∧ heap r.1 !! r.2 = Some (Pixmap img)
    | None =>
      cache_dir r.1 = <[name := PngFile pix]> (cache_dir w)
      ∧ render_calls r.1 = render_calls w ++ [(page_num - 1, current_dpi self)]
      ∧ heap r.1 !! r.2 = Some (Pixmap pix)
    end.
Proof.
  intros name pix. unfold load_base_pixmap, cached_image. fold name. fold pix.
  destruct (cache_dir w !! name) as [[img |] |]; unfold alloc; simpl.
  - rewrite list_lookup_middle by done. simpl.
    split; [done |]. split; [intros i p Hi; by apply lookup_app_l_Some |].
    split; [done |]. split; [done |]. by apply list_lookup_middle.
  - rewrite list_lookup_middle by done. simpl.
    split; [done |]. split.
    { intros i p Hi. rewrite <- app_assoc. by apply lookup_app_l_Some. }
    split; [done |]. split; [done |]. apply list_lookup_middle. by rewrite length_app.
  - split; [done |]. split; [intros i p Hi; by apply lookup_app_l_Some |].
    split; [done |]. split; [done |]. by apply list_lookup_middle.
Qed.

(** [load_page] on a ready viewer returns; it changes page widgets only. *)
Lemma load_page_returns w self page_num :
  length (page_widgets self) = Z.to_nat (total_pages self) →
  ∃ w' self', load_page w self page_num = Returned (w', self')
              ∧ same_but_widgets self self'.
Proof.
  intros Hlen. unfold load_page.
  destruct (doc self) as [d |]; [| eexists _, _; split; [done | apply same_but_widgets_refl]].
  destruct (negb _) eqn:Hrange; [eexists _, _; split; [done | apply same_but_widgets_refl] |].
  apply negb_false_iff, andb_true_iff in Hrange as [H1 H2].
  apply Z.leb_le in H1, H2.
  destruct (page_widgets self !! Z.to_nat (page_num - 1)) as [shown |] eqn:Hw.
  - destruct (load_base_pixmap w self d page_num) as [w1 q].
    pose proof (composite_overlays_frame w1 self page_num q) as (_ & _ & _ & p & Hp).
    destruct (composite_overlays w1 self page_num q) as [w2 self2]. simpl in Hp. subst.
    eexists _, _. split; [done |]. apply same_but_widgets_set_pixmap.
  - apply lookup_ge_None in Hw. lia.
Qed.

Lemma load_page_eq w self d page_num :
  doc self = Some d → 1 ≤ page_num ≤ total_pages self →
  length (page_widgets self) = Z.to_nat (total_pages self) →
  load_page w self page_num =
  Returned (composite_overlays (load_base_pixmap w self d page_num).1 self page_num
              (load_base_pixmap w self d page_num).2).
Proof.
  intros Hd Hrange Hlen. unfold load_page. rewrite Hd.
  assert ((1 <=? page_num) && (page_num <=? total_pages self) = true) as ->.
  { apply andb_true_iff. split; apply Z.leb_le; lia. }
  simpl. destruct (page_widgets self !! Z.to_nat (page_num - 1)) as [shown |] eqn:Hw.
  - by destruct (load_base_pixmap w self d page_num).
  - apply lookup_ge_None in Hw. lia.
Qed.

(** What [load_page] does to the cache directory: at most the file of the
    page at the current dpi is written, only when no readable file was
    there, and with the bare raster from the PDF library. *)
Lemma load_page_cache w self page_num w' self' :
  load_page w self page_num = Returned (w', self') →
  ∀ name,
    cache_dir w' !! name = cache_dir w !! name
    ∨ (cached_image w name = None
       ∧ ∃ d, doc self = Some d
           ∧ cache_dir w' !! name =
             Some (PngFile (Image (doc_path d, page_num - 1, current_dpi self) []))).
Proof.
  unfold load_page. intros Hload name.
  destruct (doc self) as [d |]; [| left; congruence].
  destruct (negb _); [left; congruence |].
  destruct (page_widgets self !! Z.to_nat (page_num - 1)); [| done].
  pose proof (load_base_pixmap_spec w self d page_num) as (_ & _ & Hbase).
  destruct (load_base_pixmap w self d page_num) as [w1 q]. simpl in Hbase.
  pose proof (composite_overlays_frame w1 self page_num q) as (Hc & _).
  injection Hload as Hload. rewrite Hload in Hc. simpl in Hc. rewrite Hc.
  set (key := cache_filename (pdf_path self) page_num (current_dpi self)) in *.
  destruct (cached_image w key) as [img |] eqn:Hkey.
  - destruct Hbase as (-> & _). by left.
  - destruct Hbase as (-> & _). destruct (decide (key = name)) as [<- | Hne].
    + right. split; [done |]. exists d. split; [done |]. by rewrite lookup_insert_eq.
    + left. by rewrite lookup_insert_ne.
Qed.

Lemma load_page_keeps_cached w self page_num w' self' name img :
  load_page w self page_num = Returned (w', self') →
  cached_image w name = Some img → cached_image w' name = Some img.
Proof.
  intros Hload Hc. destruct (load_page_cache _ _ _ _ _ Hload name) as [Heq | [Hn _]].
  - unfold cached_image in *. by rewrite Heq.
  - congruence.
Qed.

(** *** The cache key *)

Lemma append_inj_length (h h' s s' : string) :
  String.length h = String.length h' → h +:+ s = h' +:+ s' → h = h' ∧ s = s'.
Proof.
  revert h'. induction h as [| a h IH]; intros [| a' h'] Hlen Heq; simpl in *; try done.
  injection Heq as -> Heq. injection Hlen as Hlen.
  destruct (IH h' Hlen Heq) as [-> ->]. done.
Qed.

Lemma append_inj_free_of c (a a' r r' : string) :
  free_of c a = true → free_of c a' = true →
  a +:+ String c r = a' +:+ String c r' → a = a' ∧ r = r'.
Proof.
  revert a'. induction a as [| x a IH]; intros [| x' a'] Ha Ha' Heq; simpl in *.
  - by injection Heq as ->.
  - injection Heq as <- _. apply andb_true_iff in Ha' as [Hx _].
    apply negb_true_iff, bool_decide_eq_false in Hx. done.
  - injection Heq as -> _. apply andb_true_iff in Ha as [Hx _].
    apply negb_true_iff, bool_decide_eq_false in Hx. done.
  - injection Heq as -> Heq.
    apply andb_true_iff in Ha as [_ Ha]. apply andb_true_iff in Ha' as [_ Ha'].
    destruct (IH a' Ha Ha' Heq) as [-> ->]. done.
Qed.

Lemma free_of_pretty_N_go c x s :
  (∀ d, pretty_N_char d ≠ c) → free_of c s = true → free_of c (pretty_N_go x s) = true.
Proof.
  intros Hc. revert s. induction (N.lt_wf_0 x) as [x _ IH]; intros s Hs.
  assert (x = 0 ∨ 0 < x)%N as [-> | Hpos] by lia.
  - by rewrite pretty_N_go_0.
  - rewrite pretty_N_go_step by done. apply IH; [by apply N.div_lt |].
    simpl. rewrite Hs, andb_true_r. apply negb_true_iff, bool_decide_eq_false, Hc.
Qed.

(** The decimal form of an integer has digits and a sign only. *)
Lemma free_of_pretty_Z c (n : Z) :
  (∀ d, pretty_N_char d ≠ c) → c ≠ "-"%char → free_of c (pretty n) = true.
Proof.
  intros Hc Hdash.
  assert (∀ p : positive, free_of c (pretty p) = true) as Hpos.
  { intros p. unfold pretty, pretty_positive, pretty, pretty_N.
    case_decide; [done |]. by apply free_of_pretty_N_go. }
  destruct n as [| p | p].
  - change (pretty 0) with (String "0" "")%string. cbn [free_of].
    rewrite andb_true_r. apply negb_true_iff, bool_decide_eq_false. apply (Hc 0%N).
  - apply Hpos.
  - change (pretty (Z.neg p)) with (String "-" (pretty p)). cbn [free_of].
    rewrite Hpos, andb_true_r. apply negb_true_iff, bool_decide_eq_false. congruence.
Qed.

Lemma pretty_N_char_not_underscore d : pretty_N_char d ≠ "_"%char.
Proof. unfold pretty_N_char. by repeat case_match. Qed.

Lemma pretty_N_char_not_dot d : pretty_N_char d ≠ "."%char.
Proof. unfold pretty_N_char. by repeat case_match. Qed.

(** Two cache files of documents whose digests have the same length (an
    MD5 digest always has 32 characters) have the same name only for the
    same digest, page and dpi. *)
Lemma cache_filename_inj p n d p' n' d' :
  String.length (md5_hexdigest p) = String.length (md5_hexdigest p') →
  cache_filename p n d = cache_filename p' n' d' →
  md5_hexdigest p = md5_hexdigest p' ∧ n = n' ∧ d = d'.
Proof.
  unfold cache_filename. intros Hlen Heq.
  apply append_inj_length in Heq as [Hh Heq]; [| done].
  split; [done |]. simpl in Heq. injection Heq as Heq.
  apply append_inj_free_of in Heq as [Hn Heq];
    [| apply free_of_pretty_Z; [apply pretty_N_char_not_underscore | done]..].
  injection Heq as Heq.
  change ".png"%string with (String "." "png") in Heq.
  apply append_inj_free_of in Heq as [Hd _];
    [| apply free_of_pretty_Z; [apply pretty_N_char_not_dot | done]..].
  split; by apply (inj pretty).
Qed.

(** [load_page] touches no cache file but the one of its own key. *)
Lemma load_page_other_files w self page_num w' self' name :
  load_page w self page_num = Returned (w', self') →
  name ≠ cache_filename (pdf_path self) page_num (current_dpi self) →
  cache_dir w' !! name = cache_dir w !! name.
Proof.
  unfold load_page. intros Hload Hname.
  destruct (doc self) as [d |]; [| congruence].
  destruct (negb _); [congruence |].
  destruct (page_widgets self !! Z.to_nat (page_num - 1)); [| done].
  pose proof (load_base_pixmap_spec w self d page_num) as (_ & _ & Hbase).
  destruct (load_base_pixmap w self d page_num) as [w1 q]. simpl in Hbase.
  pose proof (composite_overlays_frame w1 self page_num q) as (Hc & _).
  injection Hload as Hload. rewrite Hload in Hc. simpl in Hc. rewrite Hc.
  destruct (cached_image w _) as [img |].
  - by destruct Hbase as (-> & _).
  - destruct Hbase as (-> & _). by rewrite lookup_insert_ne.
Qed.

Lemma load_page_effect w self d page_num :
  doc self = Some d → 1 ≤ page_num ≤ total_pages self →
  length (page_widgets self) = Z.to_nat (total_pages self) →
  let name := cache_filename (pdf_path self) page_num (current_dpi self) in
  ∃ w' self', load_page w self page_num = Returned (w', self')
    ∧ same_but_widgets self self'
    ∧ is_Some (cached_image w' name)
    ∧ match cached_image w name with
      | Some _ => cache_dir w' = cache_dir w ∧ render_calls w' = render_calls w
      | None => render_calls w' = render_calls w ++ [(page_num - 1, current_dpi self)]
      end.
Proof.
  intros Hd Hrange Hlen name.
  rewrite (load_page_eq w self d page_num Hd Hrange Hlen).
  pose proof (load_base_pixmap_spec w self d page_num) as (_ & _ & Hb). fold name in Hb.
  destruct (load_base_pixmap w self d page_num) as [wb q]. simpl in Hb. cbn [fst snd].
  pose proof (composite_overlays_frame wb self page_num q) as (Hc & Hr & _ & p & Hp).
  destruct (composite_overlays wb self page_num q) as [w1 self1]. simpl in Hc, Hr, Hp.
  exists w1, self1. split; [done |].
  split; [subst self1; apply same_but_widgets_set_pixmap |].
  unfold cached_image in *. rewrite Hc, Hr.
  destruct (cache_dir w !! name) as [[img |] |] eqn:Hold.
  - destruct Hb as (-> & -> & _). rewrite Hold. split; [by eexists | done].
  - destruct Hb as (-> & -> & _). rewrite lookup_insert_eq. split; [by eexists | done].
  - destruct Hb as (-> & -> & _). rewrite lookup_insert_eq. split; [by eexists | done].
Qed.

(** C6. The cache is keyed by (digest of the document path, page, dpi) and
    a hit skips rendering.  On a ready viewer, loading a page twice at the
    same dpi: the second call makes no call to the renderer and writes no
    file, and its base pixmap holds the image of the cache file.  When no
    readable cache file existed before the first call, the two calls
    together made exactly one call to the renderer, for that page at that
    dpi.  A load that differs in the document digest, the page or the dpi
    uses another cache file, and when that file was not there it does call
    the renderer, after the two loads as before them. *)
Theorem second_load_page_skips_render w self page_num :
  viewer_ready self → 1 ≤ page_num ≤ total_pages self →
  let name := cache_filename (pdf_path self) page_num (current_dpi self) in
  ∃ d w1 self1 w2 self2,
    doc self = Some d
    ∧ load_page w self page_num = Returned (w1, self1)
    ∧ load_page w1 self1 page_num = Returned (w2, self2)
    ∧ render_calls w2 = render_calls w1
    ∧ cache_dir w2 = cache_dir w1
    ∧ (cached_image w name = None →
       render_calls w2 = render_calls w ++ [(page_num - 1, current_dpi self)])
    ∧ (∃ img, cached_image w1 name = Some img
        ∧ heap (load_base_pixmap w1 self1 d page_num).1
            !! (load_base_pixmap w1 self1 d page_num).2 = Some (Pixmap img))
    ∧ ∀ other n,
        viewer_ready other → 1 ≤ n ≤ total_pages other →
        String.length (md5_hexdigest (pdf_path other))
          = String.length (md5_hexdigest (pdf_path self)) →
        (md5_hexdigest (pdf_path other), n, current_dpi other)
          ≠ (md5_hexdigest (pdf_path self), page_num, current_dpi self) →
        let name' := cache_filename (pdf_path other) n (current_dpi other) in
        name' ≠ name
        ∧ (cached_image w name' = None →
           ∃ w3 other3,
             load_page w2 other n = Returned (w3, other3)
             ∧ render_calls w3 = render_calls w2 ++ [(n - 1, current_dpi other)]
             ∧ is_Some (cached_image w3 name')).
Proof.
  intros [[d Hd] Hlen] Hrange name.
  pose proof (load_page_eq w self d page_num Hd Hrange Hlen) as H1.
  pose proof (load_base_pixmap_spec w self d page_num) as (_ & _ & Hb1). fold name in Hb1.
  destruct (load_base_pixmap w self d page_num) as [wb q] eqn:Eb. simpl in H1, Hb1.
  pose proof (composite_overlays_frame wb self page_num q) as (Hc1 & Hr1 & _ & p & Hp).
  destruct (composite_overlays wb self page_num q) as [w1 self1]. simpl in Hc1, Hr1, Hp.
  assert (same_but_widgets self self1) as Hsame
    by (subst self1; apply same_but_widgets_set_pixmap).
  pose proof Hsame as (Hpath & Hdoc & Htot & Hdpi & _ & _ & _ & _ & Hlen1).
  assert (∃ img, cached_image w1 name = Some img) as [img Himg].
  { unfold cached_image. rewrite Hc1.
    destruct (cached_image w name) as [img |] eqn:Hold.
    - destruct Hb1 as (-> & _). exists img. unfold cached_image in Hold.
      destruct (cache_dir w !! name) as [[? |] |]; congruence.
    - destruct Hb1 as (-> & _). rewrite lookup_insert_eq. by eexists. }
  pose proof (load_page_eq w1 self1 d page_num) as H2.
  rewrite Hdoc, Htot, Hlen1 in H2. specialize (H2 Hd Hrange Hlen).
  pose proof (load_base_pixmap_spec w1 self1 d page_num) as (_ & _ & Hb2).
  rewrite Hpath, Hdpi in Hb2. fold name in Hb2. rewrite Himg in Hb2.
  destruct Hb2 as (Hc2 & Hr2 & Hh2).
  destruct (load_base_pixmap w1 self1 d page_num) as [wb2 q2] eqn:Eb2.
  simpl in H2, Hc2, Hr2, Hh2.
  pose proof (composite_overlays_frame wb2 self1 page_num q2) as (Hc3 & Hr3 & _).
  destruct (composite_overlays wb2 self1 page_num q2) as [w2 self2]. simpl in Hc3, Hr3.
  exists d, w1, self1, w2, self2.
  split; [done |]. split; [done |]. split; [done |].
  split; [congruence |]. split; [congruence |]. split; [| split].
  - intros Hmiss. rewrite Hmiss in Hb1. destruct Hb1 as (_ & Hr & _). congruence.
  - exists img. rewrite Eb2. by split.
  - intros other n [[d' Hd'] Hlen'] Hn Hdigest Hkey name'.
    assert (name' ≠ name) as Hname.
    { intros Heq. apply cache_filename_inj in Heq as (Hh & -> & Hdpi'); [| done].
      apply Hkey. by rewrite Hh, Hdpi'. }
    split; [done |]. intros Hmiss.
    assert (cached_image w2 name' = None) as Hmiss2.
    { unfold cached_image in *.
      rewrite Hc3, Hc2, (load_page_other_files _ _ _ _ _ name' H1 Hname). exact Hmiss. }
    destruct (load_page_effect w2 other d' n Hd' Hn Hlen')
      as (w3 & other3 & Hload & _ & Hsome & Hcalls).
    fold name' in Hsome, Hcalls. rewrite Hmiss2 in Hcalls.
    by exists w3, other3.
Qed.

Lemma apply_edit_returns w self e :
  viewer_ready self →
  ∃ w' self', apply_edit w self e = Returned (w', self')
    ∧ same_but_widgets self self'
    ∧ ∀ name img, cached_image w name = Some img → cached_image w' name = Some img.
Proof.
  intros [_ Hlen]. unfold apply_edit.
  set (w0 := World _ (cache_dir w) (heap w) (render_calls w)).
  destruct (load_page_returns w0 self (edit_page e) Hlen) as (w1 & self1 & Hload & Hsame).
  rewrite Hload. simpl.
  destruct (populate_annotations_list (fs w1) (pdf_path self1)) as [fs1 items].
  eexists _, _. split; [done |]. split; [done |].
  intros name img Hc. by apply (load_page_keeps_cached _ _ _ _ _ name img Hload).
Qed.

(** C7. Overlays are painted on a pixmap object of their own: compositing
    leaves the cache directory and every pixmap object that existed before,
    the base pixmap among them, unchanged.  [load_page] writes a cache file
    only where no readable one was, and then writes the bare raster.  Hence
    any sequence of annotation gestures (add or remove a highlight; add,
    edit or delete a comment), each followed by its reload of the page,
    leaves every readable cache file as it was. *)
Theorem overlays_never_reach_cache w self :
  (∀ page_num qpixmap,
     let r := composite_overlays w self page_num qpixmap in
     cache_dir r.1 = cache_dir w
     ∧ ∀ i p, heap w !! i = Some p → heap r.1 !! i = Some p)
  ∧ (∀ page_num w' self', load_page w self page_num = Returned (w', self') →
     ∀ name,
       cache_dir w' !! name = cache_dir w !! name
       ∨ (cached_image w name = None
          ∧ ∃ d, doc self = Some d
              ∧ cache_dir w' !! name =
                Some (PngFile (Image (doc_path d, page_num - 1, current_dpi self) []))))
  ∧ (viewer_ready self → ∀ es,
     ∃ w' self', apply_edits w self es = Returned (w', self')
       ∧ ∀ name img, cached_image w name = Some img → cached_image w' name = Some img).
Proof.
  split; [| split].
  - intros page_num qpixmap r.
    pose proof (composite_overlays_frame w self page_num qpixmap) as (Hc & _ & Hh & _).
    by split.
  - intros page_num w' self'. apply load_page_cache.
  - intros Hready es. revert w self Hready.
    induction es as [|e es IH]; intros w self Hready; simpl.
    + eexists _, _. by split.
    + destruct (apply_edit_returns w self e Hready) as (w1 & self1 & He & Hsame & Hkeep).
      rewrite He. simpl.
      destruct (IH w1 self1 (viewer_ready_same _ _ Hsame Hready)) as (w2 & self2 & Hes & Hkeep2).
      exists w2, self2. split; [done |]. intros name img Hc. by apply Hkeep2, Hkeep.
Qed.

(** ** Migration *)

Lemma pk_conflict_spec `{HasRowid A} (l : list A) id :
  pk_conflict l id = true ↔ id ∈ rowid <$> l.
Proof.
  unfold pk_conflict. rewrite existsb_exists, list_elem_of_fmap. split.
  - intros (r & Hin & Heq). apply bool_decide_eq_true in Heq.
    exists r. split; [done | by apply list_elem_of_In].
  - intros (r & Heq & Hin). exists r. split; [by apply list_elem_of_In |].
    by apply bool_decide_eq_true.
Qed.

(** Rows that respect the primary key and the [UNIQUE] constraint among
    themselves and with the table are all inserted, in order. *)
Lemma insert_highlight_rows_all l t :
  NoDup (h_id <$> (rows t ++ l)) → unique_highlights (rows t ++ l) →
  rows (foldl insert_or_ignore_highlight_row t l) = rows t ++ l.
Proof.
  revert t. induction l as [|a l IH]; intros t Hid Hkey; simpl.
  - by rewrite app_nil_r.
  - assert (rows (insert_or_ignore_highlight_row t a) = rows t ++ [a]) as Hrows.
    { unfold insert_or_ignore_highlight_row. simpl.
      destruct (pk_conflict (rows t) (h_id a)) eqn:Hpk.
      { apply pk_conflict_spec in Hpk. rewrite fmap_app in Hid.
        apply NoDup_app in Hid as (_ & Hid & _). destruct (Hid _ Hpk). simpl. left. }
      destruct (unique_conflict (rows t) a) eqn:Hu; [| done].
      apply unique_conflict_spec in Hu. unfold unique_highlights in Hkey.
      rewrite fmap_app in Hkey.
      apply NoDup_app in Hkey as (_ & Hkey & _). destruct (Hkey _ Hu). simpl. left. }
    rewrite IH; rewrite Hrows, <- app_assoc; done.
Qed.

Lemma insert_comment_rows_all l t :
  NoDup (c_id <$> (rows t ++ l)) →
  rows (foldl insert_or_ignore_comment_row t l) = rows t ++ l.
Proof.
  revert t. induction l as [|a l IH]; intros t Hid; simpl.
  - by rewrite app_nil_r.
  - assert (rows (insert_or_ignore_comment_row t a) = rows t ++ [a]) as Hrows.
    { unfold insert_or_ignore_comment_row. simpl.
      destruct (pk_conflict (rows t) (c_id a)) eqn:Hpk; [| done].
      apply pk_conflict_spec in Hpk. rewrite fmap_app in Hid.
      apply NoDup_app in Hid as (_ & Hid & _). destruct (Hid _ Hpk). simpl. left. }
    rewrite IH; rewrite Hrows, <- app_assoc; done.
Qed.

Lemma NoDup_fmap_filter {A B} (f : A → B) (P : A → Prop) `{∀ x, Decision (P x)} l :
  NoDup (f <$> l) → NoDup (f <$> filter P l).
Proof.
  intros Hnd. eapply sublist_NoDup; [exact Hnd |].
  apply fmap_sublist, sublist_filter.
Qed.

(** A run either leaves the profile folder as it was, or leaves a
    per-document store behind. *)
Lemma migrate_pdf_data_unchanged_or_created faults fs p :
  (migrate_pdf_data faults fs p).1 = fs
  ∨ is_Some (pdf_files (migrate_pdf_data faults fs p).1 !! get_pdf_db_path p).
Proof.
  unfold migrate_pdf_data, get_pdf_specific_db_connection, commit_pdf_db.
  repeat case_match; simpl; try (by left); right; rewrite ?lookup_insert_eq; by eexists.
Qed.

Lemma migrate_pdf_data_idempotent faults fs p :
  (migrate_pdf_data faults (migrate_pdf_data faults fs p).1 p).1
  = (migrate_pdf_data faults fs p).1.
Proof.
  destruct (migrate_pdf_data_unchanged_or_created faults fs p) as [Heq | Hnew].
  - by rewrite Heq.
  - generalize dependent (migrate_pdf_data faults fs p).1. intros fs1 Hnew.
    unfold migrate_pdf_data. by rewrite bool_decide_eq_true_2.
Qed.

(** C8. When the per-document store exists, [migrate_pdf_data] returns at
    its first test and changes nothing, whatever the storage layer would
    have done.  Running it again, any number of times, gives the state the
    first run gave. *)
Theorem migration_guarded_and_idempotent faults fs pdf_path :
  (is_Some (pdf_files fs !! get_pdf_db_path pdf_path) →
     migrate_pdf_data faults fs pdf_path = (fs, Skipped))
  ∧ (∀ n, Nat.iter (S n) (λ fs, (migrate_pdf_data faults fs pdf_path).1) fs
          = (migrate_pdf_data faults fs pdf_path).1).
Proof.
  split.
  - intros Hnew. unfold migrate_pdf_data. by rewrite bool_decide_eq_true_2.
  - induction n as [|n IH]; [done |].
    change (Nat.iter (S (S n)) ?f ?x) with (f (Nat.iter (S n) f x)).
    rewrite IH. apply migrate_pdf_data_idempotent.
Qed.

(** C10. A step that raises up to and including the commit of the
    per-document store leaves the shared store as it was, and so does the
    silent exit on a missing [pdf_comments] table.  Whenever the shared store
    has changed, the per-document store is on disk and holds what the
    insert-or-ignore of the selected rows into empty tables gives: all of
    them, in order, when the shared tables respect their primary key and the
    [UNIQUE] constraint of [pdf_highlights]. *)
Theorem shared_rows_deleted_only_after_commit faults fs pdf_path :
  let r := migrate_pdf_data faults fs pdf_path in
  (∀ s, r.2 = Warned s → before_new_commit s = true → item_manager r.1 = item_manager fs)
  ∧ (r.2 = Silenced → item_manager r.1 = item_manager fs)
  ∧ (item_manager r.1 ≠ item_manager fs →
     ∃ old old_h old_c,
       item_manager fs = Some old
       ∧ old_pdf_highlights old = Some old_h ∧ old_pdf_comments old = Some old_c
       ∧ let highlights := select_where (λ r, bool_decide (h_pdf_path r = pdf_path)) old_h in
         let comments := select_where (λ r, bool_decide (c_pdf_path r = pdf_path)) old_c in
         pdf_files r.1 !! get_pdf_db_path pdf_path =
           Some (PdfDb (foldl insert_or_ignore_highlight_row empty_table highlights)
                       (foldl insert_or_ignore_comment_row empty_table comments))
         ∧ (NoDup (h_id <$> rows old_h) → unique_highlights (rows old_h) →
            stored_highlights r.1 pdf_path = highlights)
         ∧ (NoDup (c_id <$> rows old_c) → stored_comments r.1 pdf_path = comments)).
Proof.
  intros r. subst r. split; [| split].
  - unfold migrate_pdf_data, get_pdf_specific_db_connection, commit_pdf_db.
    intros s. repeat case_match; simpl; intros Hs Hb; try done;
      injection Hs as <-; done.
  - unfold migrate_pdf_data, get_pdf_specific_db_connection, commit_pdf_db.
    repeat case_match; simpl; done.
  - unfold migrate_pdf_data, get_pdf_specific_db_connection, commit_pdf_db.
    destruct (bool_decide (is_Some (pdf_files fs !! get_pdf_db_path pdf_path))) eqn:Hguard;
      [done |].
    apply bool_decide_eq_false in Hguard.
    assert (pdf_files fs !! get_pdf_db_path pdf_path = None) as Hnone.
    { destruct (pdf_files fs !! get_pdf_db_path pdf_path); [| done].
      destruct Hguard. by eexists. }
    rewrite Hnone. simpl.
    destruct (item_manager fs) as [old |] eqn:Hold; [| done].
    destruct (old_pdf_highlights old) as [old_h |] eqn:Hh; [| by repeat case_match].
    destruct (old_pdf_comments old) as [old_c |] eqn:Hc; [| by repeat case_match].
    intros Hchanged. exists old, old_h, old_c.
    split; [done |]. split; [done |]. split; [done |].
    assert (∀ hs cs, stored_highlights
              (Profile (<[get_pdf_db_path pdf_path := PdfDb hs cs]>
                 (<[get_pdf_db_path pdf_path := empty_pdf_db]> (pdf_files fs)))
                 (Some (MainDb (item_queue old)
                    (Some (delete_where (λ r, bool_decide (h_pdf_path r = pdf_path)) old_h))
                    (Some (delete_where (λ r, bool_decide (c_pdf_path r = pdf_path)) old_c)))))
              pdf_path = rows hs) as Hsh.
    { intros hs cs. unfold stored_highlights, pdf_db_of. simpl. by rewrite lookup_insert_eq. }
    assert (∀ hs cs, stored_comments
              (Profile (<[get_pdf_db_path pdf_path := PdfDb hs cs]>
                 (<[get_pdf_db_path pdf_path := empty_pdf_db]> (pdf_files fs)))
                 (Some (MainDb (item_queue old)
                    (Some (delete_where (λ r, bool_decide (h_pdf_path r = pdf_path)) old_h))
                    (Some (delete_where (λ r, bool_decide (c_pdf_path r = pdf_path)) old_c)))))
              pdf_path = rows cs) as Hsc.
    { intros hs cs. unfold stored_comments, pdf_db_of. simpl. by rewrite lookup_insert_eq. }
    repeat case_match; simpl in *; try done;
      (split; [by rewrite lookup_insert_eq |]; split;
       [ intros Hid Hkey; rewrite Hsh, insert_highlight_rows_all;
         [done | by apply NoDup_fmap_filter | by apply NoDup_fmap_filter]
       | intros Hid; rewrite Hsc, insert_comment_rows_all;
         [done | by apply NoDup_fmap_filter] ]).
Qed.

(** ** Opening a document *)

Lemma load_pages_returns pages w self :
  length (page_widgets self) = Z.to_nat (total_pages self) →
  ∃ w' self', load_pages pages w self = Returned (w', self')
              ∧ same_but_widgets self self'.
Proof.
  revert w self. induction pages as [|p pages IH]; intros w self Hlen; simpl.
  - eexists _, _. split; [done | apply same_but_widgets_refl].
  - destruct (load_page_returns w self p Hlen) as (w1 & self1 & Hload & Hsame).
    rewrite Hload. simpl.
    pose proof Hsame as (_ & _ & Htot & _ & _ & _ & _ & _ & Hlen1).
    destruct (IH w1 self1) as (w2 & self2 & Hrest & Hsame2); [congruence |].
    exists w2, self2. split; [done |]. by eapply same_but_widgets_trans.
Qed.

Lemma setup_pages_returns w self d :
  doc self = Some d →
  ∃ w' self', setup_pages w self = Returned (w', self')
    ∧ total_pages self' = page_count d
    ∧ last_known_page self' = last_known_page self
    ∧ current_page_num self' = current_page_num self
    ∧ visible_page self' = visible_page self
    ∧ length (page_widgets self') = Z.to_nat (page_count d).
Proof.
  intros Hd. unfold setup_pages. rewrite Hd.
  destruct (0 <? page_count d) eqn:Hpages; simpl.
  - unfold load_all_pages. simpl.
    set (self0 := Viewer _ _ _ _ _ _ _ _ _).
    destruct (load_pages_returns (seqZ 1 (page_count d)) w self0)
      as (w1 & self1 & Hload & Hsame).
    { subst self0. simpl. by rewrite length_replicate. }
    rewrite Hload. simpl.
    destruct (populate_annotations_list (fs w1) (pdf_path self1)) as [fs1 items].
    destruct Hsame as (_ & _ & Htot & _ & Hlast & Hcur & _ & Hvis & Hlen).
    eexists _, _. split; [done |]. subst self0. simpl in *.
    rewrite length_replicate in Hlen. by repeat split.
  - eexists _, _. split; [done |]. simpl. repeat split.
    apply Z.ltb_ge in Hpages. lia.
Qed.

Lemma migrate_pdf_data_item_queue faults fs p :
  item_queue (default empty_main_db (item_manager (migrate_pdf_data faults fs p).1))
  = item_queue (default empty_main_db (item_manager fs)).
Proof.
  unfold migrate_pdf_data, get_pdf_specific_db_connection, commit_pdf_db.
  repeat case_match; simpl; try done;
    match goal with H : item_manager fs = _ |- _ => by rewrite H end.
Qed.

Lemma get_item_details_after_migration faults fs p :
  (get_item_details (migrate_pdf_data faults fs p).1 p).2 = (get_item_details fs p).2.
Proof.
  unfold get_item_details, get_main_db_connection. simpl.
  unfold select_where. by rewrite migrate_pdf_data_item_queue.
Qed.

(** C5 (as the code has it). Opening a document always succeeds in the
    model, and the viewer's page number is then the stored [last_page] as it
    is (1 when nothing is stored), within the page count or not.  The view is
    scrolled to that page only when it is within [1, page_count]; otherwise
    [go_to_page] returns at its guard and nothing is scrolled. *)
Theorem open_viewer_takes_stored_last_page faults w pdf_path initial_dpi d :
  let last_page := (get_item_details (fs w) pdf_path).2.1 in
  ∃ w' self',
    open_viewer faults w pdf_path initial_dpi d = Returned (w', self')
    ∧ total_pages self' = page_count d
    ∧ last_known_page self' = last_page
    ∧ current_page_num self' = last_page
    ∧ visible_page self' =
        if bool_decide (1 ≤ last_page ≤ page_count d) then Some last_page else None.
Proof.
  intros last_page. unfold open_viewer, PdfViewerDialog_init.
  pose proof (get_item_details_after_migration faults (fs w) pdf_path) as Hdetails.
  destruct (migrate_pdf_data faults (fs w) pdf_path) as [fs1 report].
  cbn [fst] in Hdetails.
  destruct (get_item_details fs1 pdf_path) as [fs2 [lp progress_json]].
  cbn [snd] in Hdetails.
  assert (lp = last_page) as -> by (subst last_page; by rewrite <- Hdetails).
  set (self0 := _open_pdf_document _ d).
  destruct (setup_pages_returns (World fs2 (cache_dir w) (heap w) (render_calls w)) self0 d)
    as (w1 & self1 & Hsetup & Htot & Hlast & Hcur & Hvis & Hlen); [done |].
  rewrite Hsetup. simpl. subst self0. simpl in Hlast, Hcur, Hvis.
  destruct (0 <? total_pages self1) eqn:Hpages; simpl.
  - unfold go_to_page. rewrite Hlast, Htot.
    destruct (bool_decide (1 ≤ last_page ≤ page_count d)) eqn:Hrange.
    + apply bool_decide_eq_true in Hrange.
      assert ((1 <=? last_page) && (last_page <=? page_count d) = true) as ->.
      { apply andb_true_iff. split; apply Z.leb_le; lia. }
      simpl. destruct (page_widgets self1 !! Z.to_nat (last_page - 1)) as [shown |] eqn:Hw.
      * simpl. eexists _, _. split; [done |]. simpl. by repeat split.
      * apply lookup_ge_None in Hw. lia.
    + apply bool_decide_eq_false in Hrange.
      assert ((1 <=? last_page) && (last_page <=? page_count d) = false) as ->.
      { apply andb_false_iff.
        destruct (Z.leb_spec 1 last_page); [| by left].
        right. apply Z.leb_gt. lia. }
      simpl. eexists _, _. split; [done |]. by repeat split.
  - eexists _, _. split; [done |]. repeat split; try done.
    rewrite Hvis. apply Z.ltb_ge in Hpages. rewrite bool_decide_eq_false_2; [done | lia].
Qed.

(** ** Store operations: look-ups after updates *)

Lemma pdf_db_of_update_comment fs p id new_text :
  pdf_db_of (update_comment_in_db fs p id new_text) p =
  PdfDb (pdf_highlights (pdf_db_of fs p))
    (Table (map (λ r, if bool_decide (c_id r = id)
                      then CommentRow (c_id r) (c_pdf_path r) (c_page_number r)
                             (c_x0 r) (c_y0 r) new_text
                      else r) (rows (pdf_comments (pdf_db_of fs p))))
           (sqlite_sequence (pdf_comments (pdf_db_of fs p)))).
Proof.
  unfold update_comment_in_db.
  destruct (get_pdf_specific_db_connection fs p) as [fs1 conn] eqn:E.
  rewrite pdf_db_of_commit.
  pose proof (pdf_db_of_connection fs p) as [_ H]. rewrite E in H. simpl in H. by subst.
Qed.

Lemma pdf_db_of_delete_comment fs p id :
  pdf_db_of (delete_comment_from_db fs p id) p =
  PdfDb (pdf_highlights (pdf_db_of fs p))
    (delete_where (λ r, bool_decide (c_id r = id)) (pdf_comments (pdf_db_of fs p))).
Proof.
  unfold delete_comment_from_db.
  destruct (get_pdf_specific_db_connection fs p) as [fs1 conn] eqn:E.
  rewrite pdf_db_of_commit.
  pose proof (pdf_db_of_connection fs p) as [_ H]. rewrite E in H. simpl in H. by subst.
Qed.

Lemma get_highlights_for_page_eq fs p n :
  (get_highlights_for_page fs p n).2 =
  (λ r, MkRect (h_x0 r) (h_y0 r) (h_x1 r) (h_y1 r)) <$>
    stable_sort index_leb
      (filter (λ r, h_pdf_path r = p ∧ h_page_number r = n) (stored_highlights fs p)).
Proof.
  unfold get_highlights_for_page, stored_highlights.
  pose proof (pdf_db_of_connection fs p) as [_ H].
  destruct (get_pdf_specific_db_connection fs p) as [fs1 conn]. simpl in H. subst conn.
  simpl. unfold select_where. do 2 f_equal.
  apply list_filter_iff. intros r. apply bool_decide_spec.
Qed.

Lemma get_highlights_for_page_perm fs p n :
  (get_highlights_for_page fs p n).2 ≡ₚ
  (λ r, MkRect (h_x0 r) (h_y0 r) (h_x1 r) (h_y1 r)) <$>
    filter (λ r, h_pdf_path r = p ∧ h_page_number r = n) (stored_highlights fs p).
Proof. rewrite get_highlights_for_page_eq. by rewrite stable_sort_perm. Qed.

Lemma get_comments_for_page_eq fs p n :
  (get_comments_for_page fs p n).2 =
  (λ r, PageComment (c_id r) (MkPoint (c_x0 r) (c_y0 r)) (c_comment_text r)) <$>
    filter (λ r, c_pdf_path r = p ∧ c_page_number r = n) (stored_comments fs p).
Proof.
  unfold get_comments_for_page, stored_comments.
  pose proof (pdf_db_of_connection fs p) as [_ H].
  destruct (get_pdf_specific_db_connection fs p) as [fs1 conn]. simpl in H. subst conn.
  simpl. unfold select_where. f_equal.
  apply list_filter_iff. intros r. apply bool_decide_spec.
Qed.

Lemma stored_highlights_add fs p n rect text :
  stored_highlights (add_highlight_to_db fs p n rect text) p =
  if existsb (highlight_matches p n rect) (stored_highlights fs p)
  then stored_highlights fs p
  else stored_highlights fs p ++
       [HighlightRow (new_rowid (pdf_highlights (pdf_db_of fs p))) p n
          (Rect_x0 rect) (Rect_y0 rect) (Rect_x1 rect) (Rect_y1 rect) (Some text)].
Proof.
  unfold stored_highlights. rewrite pdf_db_of_add_highlight.
  cbn [pdf_highlights]. unfold insert_or_ignore_highlight. cbn [rows].
  unfold unique_conflict, highlight_matches. done.
Qed.

(** X1. After [add_highlight_to_db], the rectangle is among the rectangles
    [get_highlights_for_page] returns for that page; when the region was not
    stored before, the page has exactly the old rectangles and the new one.
    The other pages of the document are not affected, and after
    [remove_highlight_from_db] the rectangle is not returned any more. *)
Theorem added_highlight_is_listed fs pdf_path page_num rect text :
  let fs1 := add_highlight_to_db fs pdf_path page_num rect text in
  rect ∈ (get_highlights_for_page fs1 pdf_path page_num).2
  ∧ (existsb (highlight_matches pdf_path page_num rect) (stored_highlights fs pdf_path) = false →
     (get_highlights_for_page fs1 pdf_path page_num).2
     ≡ₚ rect :: (get_highlights_for_page fs pdf_path page_num).2)
  ∧ (∀ n, n ≠ page_num →
     (get_highlights_for_page fs1 pdf_path n).2 = (get_highlights_for_page fs pdf_path n).2)
  ∧ rect ∉ (get_highlights_for_page
              (remove_highlight_from_db fs1 pdf_path page_num rect) pdf_path page_num).2.
Proof.
  intros fs1. subst fs1. destruct rect as [a0 b0 a1 b1].
  set (rect := MkRect a0 b0 a1 b1).
  set (row := HighlightRow (new_rowid (pdf_highlights (pdf_db_of fs pdf_path))) pdf_path
                page_num a0 b0 a1 b1 (Some text)).
  assert (∀ n, filter (λ r, h_pdf_path r = pdf_path ∧ h_page_number r = n) [row]
               = if decide (n = page_num) then [row] else []) as Hrow.
  { intros n. rewrite filter_cons, filter_nil. simpl.
    destruct (decide (n = page_num)) as [-> | Hne].
    - by rewrite decide_True.
    - rewrite decide_False; [done |]. intros [_ ?]. congruence. }
  split; [| split; [| split]].
  - rewrite get_highlights_for_page_perm, stored_highlights_add.
    destruct (existsb _ _) eqn:Hex.
    + apply existsb_exists in Hex as (r & Hr & Hm).
      apply Is_true_eq_left, highlight_matches_spec in Hm. simpl in Hm.
      apply list_elem_of_fmap. exists r. split.
      * unfold h_unique_key in Hm. by simplify_eq.
      * apply list_elem_of_filter. split; [| by apply list_elem_of_In].
        unfold h_unique_key in Hm. by simplify_eq.
    + rewrite filter_app, fmap_app. apply elem_of_app. right.
      fold row. rewrite Hrow, decide_True by done. simpl. left.
  - intros Hfresh. rewrite !get_highlights_for_page_perm, stored_highlights_add, Hfresh.
    rewrite filter_app, fmap_app. fold row. rewrite Hrow, decide_True by done. simpl.
    symmetry. apply Permutation_cons_append.
  - intros n Hne. rewrite !get_highlights_for_page_eq, stored_highlights_add.
    destruct (existsb _ _); [done |].
    rewrite filter_app. fold row. rewrite Hrow, decide_False by done. by rewrite app_nil_r.
  - rewrite get_highlights_for_page_perm. unfold stored_highlights.
    rewrite pdf_db_of_remove_highlight. cbn [pdf_highlights delete_where rows].
    intros Hin. apply list_elem_of_fmap in Hin as (r & Hr & Hin).
    apply list_elem_of_filter in Hin as [[Hp Hn] Hin].
    apply list_elem_of_filter in Hin as [Hm _].
    apply negb_True in Hm. apply Hm, highlight_matches_spec.
    unfold h_unique_key. simpl. inversion Hr. by subst.
Qed.

(** X2. After [add_comment_to_db], [get_comments_for_page] returns the old
    comments of the page followed by the new one, with the rowid it was
    given, its point and its text; other pages and the highlights are not
    affected. *)
Theorem added_comment_is_listed fs pdf_path page_num point text :
  let fs1 := (add_comment_to_db fs pdf_path page_num point text).1 in
  (get_comments_for_page fs1 pdf_path page_num).2 =
    (get_comments_for_page fs pdf_path page_num).2
    ++ [PageComment (new_rowid (pdf_comments (pdf_db_of fs pdf_path))) point text]
  ∧ (∀ n, n ≠ page_num →
     (get_comments_for_page fs1 pdf_path n).2 = (get_comments_for_page fs pdf_path n).2)
  ∧ stored_highlights fs1 pdf_path = stored_highlights fs pdf_path.
Proof.
  intros fs1. subst fs1. destruct point as [a b].
  assert (stored_comments (add_comment_to_db fs pdf_path page_num (MkPoint a b) text).1 pdf_path
          = stored_comments fs pdf_path ++
            [CommentRow (new_rowid (pdf_comments (pdf_db_of fs pdf_path))) pdf_path page_num
               a b text]) as Hstored.
  { unfold stored_comments. by rewrite pdf_db_of_add_comment. }
  split; [| split].
  - rewrite !get_comments_for_page_eq, Hstored, filter_app, fmap_app. f_equal.
    rewrite filter_cons, filter_nil. simpl. by rewrite decide_True.
  - intros n Hne. rewrite !get_comments_for_page_eq, Hstored, filter_app.
    rewrite filter_cons, filter_nil. simpl.
    rewrite decide_False; [by rewrite app_nil_r |]. intros [_ ?]. congruence.
  - unfold stored_highlights. by rewrite pdf_db_of_add_comment.
Qed.

(** X3. [update_comment_in_db] changes the text of the comment with the
    given id and nothing else: every row keeps its id, document, page and
    point, rows with another id are unchanged, and the highlights are
    untouched.  With an id no stored comment has, nothing changes. *)
Theorem update_comment_changes_text_only fs pdf_path comment_id new_text :
  let fs1 := update_comment_in_db fs pdf_path comment_id new_text in
  let anchor r := (c_id r, c_pdf_path r, c_page_number r, c_x0 r, c_y0 r) in
  anchor <$> stored_comments fs1 pdf_path = anchor <$> stored_comments fs pdf_path
  ∧ (∀ r, r ∈ stored_comments fs1 pdf_path → c_id r = comment_id → c_comment_text r = new_text)
  ∧ (∀ r, c_id r ≠ comment_id →
       r ∈ stored_comments fs1 pdf_path ↔ r ∈ stored_comments fs pdf_path)
  ∧ (comment_id ∉ (c_id <$> stored_comments fs pdf_path) →
       stored_comments fs1 pdf_path = stored_comments fs pdf_path)
  ∧ stored_highlights fs1 pdf_path = stored_highlights fs pdf_path.
Proof.
  intros fs1 anchor. subst fs1. unfold stored_comments, stored_highlights.
  rewrite pdf_db_of_update_comment. cbn [pdf_comments pdf_highlights rows].
  set (l := rows (pdf_comments (pdf_db_of fs pdf_path))).
  set (f := λ r : comment_row, if bool_decide (c_id r = comment_id)
              then CommentRow (c_id r) (c_pdf_path r) (c_page_number r) (c_x0 r) (c_y0 r) new_text
              else r).
  change (map f l) with (f <$> l).
  split; [| split; [| split; [| split]]].
  - rewrite <- list_fmap_compose. apply list_fmap_ext. intros i r _.
    unfold f. simpl. by case_bool_decide.
  - intros r Hr Hid. apply list_elem_of_fmap in Hr as (r0 & -> & _).
    unfold f in *. case_bool_decide; [done |]. congruence.
  - intros r Hne. rewrite list_elem_of_fmap. split.
    + intros (r0 & -> & Hin). unfold f in *. case_bool_decide; [| done].
      simpl in Hne. congruence.
    + intros Hin. exists r. split; [| done]. unfold f. by rewrite bool_decide_eq_false_2.
  - intros Hno. rewrite <- (list_fmap_id l) at 2. apply list_fmap_ext. intros i r Hi.
    unfold f. rewrite bool_decide_eq_false_2; [done |]. intros Hid. apply Hno.
    rewrite <- Hid. apply list_elem_of_fmap_2. by eapply list_elem_of_lookup_2.
  - done.
Qed.

(** X4. A comment id is never handed out twice: when the comment just added
    is deleted again, the stored comments are as before the addition, and the
    next comment added gets a larger id than the deleted one. *)
Theorem deleted_comment_id_is_not_reused fs pdf_path page_num point text
    page_num' point' text' :
  let id1 := new_rowid (pdf_comments (pdf_db_of fs pdf_path)) in
  let fs1 := (add_comment_to_db fs pdf_path page_num point text).1 in
  let fs2 := delete_comment_from_db fs1 pdf_path id1 in
  let id2 := new_rowid (pdf_comments (pdf_db_of fs2 pdf_path)) in
  let fs3 := (add_comment_to_db fs2 pdf_path page_num' point' text').1 in
  stored_comments fs2 pdf_path = stored_comments fs pdf_path
  ∧ stored_comments fs3 pdf_path =
      stored_comments fs pdf_path
      ++ [CommentRow id2 pdf_path page_num' (Point_x point') (Point_y point') text']
  ∧ id1 < id2.
Proof.
  intros id1 fs1 fs2 id2 fs3.
  assert (stored_comments fs2 pdf_path = stored_comments fs pdf_path) as H2.
  { unfold stored_comments, fs2, fs1.
    rewrite pdf_db_of_delete_comment, pdf_db_of_add_comment.
    cbn [pdf_comments delete_where rows insert_comment]. fold id1.
    rewrite filter_app, filter_cons, filter_nil. simpl.
    rewrite decide_False by (rewrite bool_decide_eq_true_2; [tauto | done]).
    rewrite app_nil_r. apply filter_all. intros r Hr. apply negb_True. intros Hid.
    apply bool_decide_spec in Hid.
    pose proof (new_rowid_fresh (pdf_comments (pdf_db_of fs pdf_path)) r Hr) as Hlt.
    fold id1 in Hlt. unfold rowid, comment_rowid in Hlt. lia. }
  split; [exact H2 |]. split.
  - unfold fs3, stored_comments at 1. rewrite pdf_db_of_add_comment.
    cbn [pdf_comments insert_comment rows]. fold id2. by rewrite <- H2.
  - unfold id2, fs2, fs1. rewrite pdf_db_of_delete_comment, pdf_db_of_add_comment.
    cbn [pdf_comments]. unfold new_rowid at 1, delete_where, insert_comment.
    cbn [sqlite_sequence]. fold id1. lia.
Qed.

(** ** The document queue and reading progress *)

Lemma insert_sorted_snoc {A} (leb : A → A → bool) a s x :
  leb a x = true → insert_sorted leb a (s ++ [x]) = insert_sorted leb a s ++ [x].
Proof.
  intros Hax. induction s as [|b s IH]; simpl.
  - by rewrite Hax.
  - destruct (leb a b); [done |]. by rewrite IH.
Qed.

(** Sorting a list whose last element has a key no smaller than the others
    leaves that element last. *)
Lemma sorted_by_key_snoc {A} (key : A → Z) l x :
  (∀ a, a ∈ l → key a ≤ key x) →
  sorted_by_key key (l ++ [x]) = sorted_by_key key l ++ [x].
Proof.
  unfold sorted_by_key, stable_sort. intros Hle.
  rewrite foldr_app. simpl.
  induction l as [|a l IH]; simpl; [done |].
  rewrite IH by (intros b Hb; apply Hle; by right).
  apply insert_sorted_snoc. apply Z.leb_le, Hle. left.
Qed.

Lemma queue_rows_connection fs :
  rows (item_queue (get_main_db_connection fs).2) = queue_rows fs
  ∧ queue_rows (get_main_db_connection fs).1 = queue_rows fs.
Proof. done. Qed.

Lemma get_item_details_eq fs path :
  (get_item_details fs path).2 =
  match filter (λ r, q_path r = path) (queue_rows fs) with
  | result :: _ => (default 1 (q_last_page result), default "[]"%string (q_progress result))
  | [] => (1, "[]"%string)
  end.
Proof.
  unfold get_item_details, get_main_db_connection, queue_rows, select_where. simpl.
  rewrite (list_filter_iff (λ r, bool_decide (q_path r = path)) (λ r, q_path r = path))
    by (intros r; apply bool_decide_spec).
  done.
Qed.

Lemma get_item_queue_eq fs :
  (get_item_queue fs).2 = (λ r, (q_title r, q_path r)) <$> sorted_by_key q_id (queue_rows fs).
Proof. done. Qed.

Lemma queued_spec path (l : list queue_item) :
  existsb (λ r, bool_decide (q_path r = path)) l = true ↔ path ∈ q_path <$> l.
Proof.
  rewrite existsb_exists, list_elem_of_fmap. split.
  - intros (r & Hin & Heq). apply bool_decide_eq_true in Heq.
    exists r. split; [done | by apply list_elem_of_In].
  - intros (r & Heq & Hin). exists r. split; [by apply list_elem_of_In |].
    by apply bool_decide_eq_true.
Qed.

(** X5. [add_to_item_queue] with a path that is already queued changes no
    row: the first title, the last page and the progress stay.  With a new
    path, [get_item_queue] returns the old entries followed by the new one,
    and the document starts on page 1 with empty progress.  Paths stay
    unique. *)
Theorem add_to_item_queue_keeps_first_entry fs title path :
  let fs1 := add_to_item_queue fs title path in
  let queued := existsb (λ r, bool_decide (q_path r = path)) (queue_rows fs) in
  (queued = true → queue_rows fs1 = queue_rows fs)
  ∧ (queued = false →
       (get_item_queue fs1).2 = (get_item_queue fs).2 ++ [(Some title, path)]
       ∧ (get_item_details fs1 path).2 = (1, "[]"%string))
  ∧ (NoDup (q_path <$> queue_rows fs) → NoDup (q_path <$> queue_rows fs1))
  ∧ pdf_files fs1 = pdf_files fs.
Proof.
  intros fs1 queued.
  assert (queue_rows fs1 =
          if queued then queue_rows fs
          else queue_rows fs ++ [QueueItem (new_rowid (item_queue (default empty_main_db
                 (item_manager fs)))) (Some title) path (Some 1) None]) as Hrows by done.
  split; [| split; [| split]].
  - intros Hq. by rewrite Hrows, Hq.
  - intros Hq. rewrite Hq in Hrows. split.
    + rewrite !get_item_queue_eq, Hrows, sorted_by_key_snoc, fmap_app; [done |].
      intros r Hr. simpl.
      pose proof (new_rowid_fresh (item_queue (default empty_main_db (item_manager fs))) r Hr).
      unfold rowid, queue_item_rowid in *. lia.
    + rewrite get_item_details_eq, Hrows, filter_app, filter_cons, filter_nil. simpl.
      rewrite decide_True by done.
      rewrite filter_none; [done |]. intros r Hr Hp.
      assert (queued = true) by (apply queued_spec; rewrite <- Hp; by apply list_elem_of_fmap_2).
      congruence.
  - intros Hnd. rewrite Hrows. destruct queued eqn:Hq; [done |].
    rewrite fmap_app. apply NoDup_app. split; [done |]. split; [| apply NoDup_singleton].
    intros p Hp Hp'. apply list_elem_of_singleton in Hp'. simpl in Hp'. subst p.
    apply queued_spec in Hp. unfold queued in Hq. congruence.
  - done.
Qed.

(** X6. [save_last_page] followed by [get_item_details] gives the saved page
    back when the document is in the queue, and leaves its progress as it
    was.  For a document that is not in the queue the update matches no row:
    nothing is stored and [get_item_details] still answers page 1.  Other
    documents keep their details. *)
Theorem saved_last_page_is_read_back fs path page_num :
  let fs1 := save_last_page fs path page_num in
  let queued := existsb (λ r, bool_decide (q_path r = path)) (queue_rows fs) in
  (queued = true →
     (get_item_details fs1 path).2 = (page_num, (get_item_details fs path).2.2))
  ∧ (queued = false →
     queue_rows fs1 = queue_rows fs ∧ (get_item_details fs1 path).2 = (1, "[]"%string))
  ∧ (∀ path', path' ≠ path →
     (get_item_details fs1 path').2 = (get_item_details fs path').2)
  ∧ pdf_files fs1 = pdf_files fs.
Proof.
  intros fs1 queued.
  set (f := λ r : queue_item, if bool_decide (q_path r = path)
              then QueueItem (q_id r) (q_title r) (q_path r) (Some page_num) (q_progress r)
              else r).
  assert (queue_rows fs1 = f <$> queue_rows fs) as Hrows by done.
  assert (∀ p, filter (λ r, q_path r = p) (f <$> queue_rows fs)
               = f <$> filter (λ r, q_path r = p) (queue_rows fs)) as Hfilter.
  { intros p. rewrite filter_fmap. f_equal. apply list_filter_iff. intros r.
    unfold f. by case_bool_decide. }
  split; [| split; [| split]].
  - intros Hq. rewrite !get_item_details_eq, Hrows, Hfilter.
    apply queued_spec, list_elem_of_fmap in Hq as (r & Hp & Hr).
    destruct (filter (λ r, q_path r = path) (queue_rows fs)) as [|r0 l] eqn:Hf.
    + assert (r ∈ filter (λ r, q_path r = path) (queue_rows fs)) as Hin
        by (by apply list_elem_of_filter).
      rewrite Hf in Hin. by apply elem_of_nil in Hin.
    + assert (q_path r0 = path) as Hr0.
      { assert (r0 ∈ filter (λ r, q_path r = path) (queue_rows fs)) as Hin
          by (rewrite Hf; left).
        by apply list_elem_of_filter in Hin as [? _]. }
      simpl. unfold f. by rewrite bool_decide_eq_true_2.
  - intros Hq.
    assert (f <$> queue_rows fs = queue_rows fs) as Hsame.
    { rewrite <- (list_fmap_id (queue_rows fs)) at 2. apply list_fmap_ext.
      intros i r Hi. unfold f. rewrite bool_decide_eq_false_2; [done |]. intros Hp.
      assert (queued = true)
        by (apply queued_spec; rewrite <- Hp;
            apply list_elem_of_fmap_2; by eapply list_elem_of_lookup_2).
      congruence. }
    rewrite Hrows, Hsame. split; [done |].
    rewrite get_item_details_eq, Hrows, Hsame.
    rewrite filter_none; [done |]. intros r Hr Hp.
    assert (queued = true) by (apply queued_spec; rewrite <- Hp; by apply list_elem_of_fmap_2).
    congruence.
  - intros path' Hne. rewrite !get_item_details_eq, Hrows, Hfilter.
    assert (f <$> filter (λ r, q_path r = path') (queue_rows fs)
            = filter (λ r, q_path r = path') (queue_rows fs)) as ->; [| done].
    rewrite <- (list_fmap_id (filter _ _)) at 2. apply list_fmap_ext.
    intros i r Hi. apply list_elem_of_lookup_2, list_elem_of_filter in Hi as [Hp _].
    unfold f. rewrite bool_decide_eq_false_2; [done | congruence].
  - done.
Qed.

(** X7. [remove_from_item_queue] removes the queue row and the whole
    per-document store: afterwards the document has no stored highlights or
    comments and its details are the defaults, also after it is added to the
    queue again.  Rows of other documents stay, and so do the tables an
    older version left in the shared store. *)
Theorem remove_from_item_queue_drops_annotations fs path :
  let fs1 := remove_from_item_queue fs path in
  (path ∉ q_path <$> queue_rows fs1)
  ∧ pdf_files fs1 !! get_pdf_db_path path = None
  ∧ stored_highlights fs1 path = [] ∧ stored_comments fs1 path = []
  ∧ (get_item_details fs1 path).2 = (1, "[]"%string)
  ∧ (∀ title, (get_item_details (add_to_item_queue fs1 title path) path).2 = (1, "[]"%string))
  ∧ (∀ r, q_path r ≠ path → r ∈ queue_rows fs1 ↔ r ∈ queue_rows fs)
  ∧ (item_manager fs1 ≫= old_pdf_highlights) = (item_manager fs ≫= old_pdf_highlights)
  ∧ (item_manager fs1 ≫= old_pdf_comments) = (item_manager fs ≫= old_pdf_comments).
Proof.
  intros fs1.
  assert (queue_rows fs1 = filter (λ r, q_path r ≠ path) (queue_rows fs)) as Hrows.
  { unfold fs1, remove_from_item_queue, queue_rows. simpl.
    apply list_filter_iff. intros r. rewrite negb_True. by rewrite bool_decide_spec. }
  assert (path ∉ (q_path <$> queue_rows fs1)) as Hgone.
  { rewrite Hrows. intros Hin. apply list_elem_of_fmap in Hin as (r & Hp & Hr).
    apply list_elem_of_filter in Hr as [Hne _]. congruence. }
  assert (pdf_files fs1 !! get_pdf_db_path path = None) as Hfile
    by apply lookup_delete_eq.
  assert ((get_item_details fs1 path).2 = (1, "[]"%string)) as Hdetails.
  { rewrite get_item_details_eq. rewrite filter_none; [done |].
    intros r Hr Hp. apply Hgone. rewrite <- Hp. by apply list_elem_of_fmap_2. }
  split; [done |]. split; [done |].
  split; [unfold stored_highlights, pdf_db_of; by rewrite Hfile |].
  split; [unfold stored_comments, pdf_db_of; by rewrite Hfile |].
  split; [done |]. split.
  - intros title. rewrite get_item_details_eq.
    change (queue_rows (add_to_item_queue fs1 title path)) with
      (rows (insert_or_ignore_queue_item (item_queue (default empty_main_db (item_manager fs1)))
               title path)).
    unfold insert_or_ignore_queue_item. cbn [rows]. fold (queue_rows fs1).
    destruct (existsb _ (queue_rows fs1)) eqn:Hq.
    { apply queued_spec in Hq. contradiction. }
    rewrite filter_app, filter_cons, filter_nil. simpl. rewrite decide_True by done.
    rewrite filter_none; [done |].
    intros r Hr Hp. apply Hgone. rewrite <- Hp. by apply list_elem_of_fmap_2.
  - split; [| split].
    + intros r Hne. rewrite Hrows, list_elem_of_filter. tauto.
    + unfold fs1, remove_from_item_queue. simpl. by destruct (item_manager fs).
    + unfold fs1, remove_from_item_queue. simpl. by destruct (item_manager fs).
Qed.

(** ** Migration and the other store functions *)

Lemma connection_creates_file fs p :
  is_Some (pdf_files (get_pdf_specific_db_connection fs p).1 !! get_pdf_db_path p).
Proof. unfold get_pdf_specific_db_connection. simpl. rewrite lookup_insert_eq. by eexists. Qed.

Lemma commit_creates_file fs p conn :
  is_Some (pdf_files (commit_pdf_db fs p conn) !! get_pdf_db_path p).
Proof. unfold commit_pdf_db. simpl. rewrite lookup_insert_eq. by eexists. Qed.

Lemma migrate_pdf_data_skips faults fs p :
  is_Some (pdf_files fs !! get_pdf_db_path p) → migrate_pdf_data faults fs p = (fs, Skipped).
Proof. intros Hnew. unfold migrate_pdf_data. by rewrite bool_decide_eq_true_2. Qed.

(** X8. Every function of the annotation store, the reading ones included,
    creates the per-document store when it opens it.  So once any of them has
    run for a document, [migrate_pdf_data] returns at its first test: rows
    the shared store still holds for the document are not migrated. *)
Theorem store_access_blocks_migration faults fs pdf_path page_num rect point text id :
  let skipped fs1 := migrate_pdf_data faults fs1 pdf_path = (fs1, Skipped) in
  skipped (get_highlights_for_page fs pdf_path page_num).1
  ∧ skipped (get_comments_for_page fs pdf_path page_num).1
  ∧ skipped (get_all_highlights_for_pdf fs pdf_path).1
  ∧ skipped (get_all_comments_for_pdf fs pdf_path).1
  ∧ skipped (add_highlight_to_db fs pdf_path page_num rect text)
  ∧ skipped (remove_highlight_from_db fs pdf_path page_num rect)
  ∧ skipped (add_comment_to_db fs pdf_path page_num point text).1
  ∧ skipped (update_comment_in_db fs pdf_path id text)
  ∧ skipped (delete_comment_from_db fs pdf_path id).
Proof.
  intros skipped. unfold skipped.
  pose proof (connection_creates_file fs pdf_path) as Hread.
  repeat split; apply migrate_pdf_data_skips.
  - unfold get_highlights_for_page.
    by destruct (get_pdf_specific_db_connection fs pdf_path).
  - unfold get_comments_for_page.
    by destruct (get_pdf_specific_db_connection fs pdf_path).
  - unfold get_all_highlights_for_pdf.
    by destruct (get_pdf_specific_db_connection fs pdf_path).
  - unfold get_all_comments_for_pdf.
    by destruct (get_pdf_specific_db_connection fs pdf_path).
  - unfold add_highlight_to_db.
    destruct (get_pdf_specific_db_connection fs pdf_path). apply commit_creates_file.
  - unfold remove_highlight_from_db.
    destruct (get_pdf_specific_db_connection fs pdf_path). apply commit_creates_file.
  - unfold add_comment_to_db.
    destruct (get_pdf_specific_db_connection fs pdf_path). apply commit_creates_file.
  - unfold update_comment_in_db.
    destruct (get_pdf_specific_db_connection fs pdf_path). apply commit_creates_file.
  - unfold delete_comment_from_db.
    destruct (get_pdf_specific_db_connection fs pdf_path). apply commit_creates_file.
Qed.

(** X9. When [migrate_pdf_data] reports a full migration of a shared store
    whose tables respect their keys, the viewer finds the old annotations in
    the per-document store: page by page, [get_highlights_for_page] returns
    the rectangles of the old rows of the document, in the order of the
    index ([x0], then [y0], [x1], [y1]) and not in the order they were
    stored, and [get_comments_for_page] returns the comments of the old
    rows (up to their order).  The shared store keeps no row of the document
    while the rows of other documents stay. *)
Theorem migrated_annotations_are_listed faults fs pdf_path old old_h old_c :
  item_manager fs = Some old →
  old_pdf_highlights old = Some old_h → old_pdf_comments old = Some old_c →
  NoDup (h_id <$> rows old_h) → unique_highlights (rows old_h) →
  NoDup (c_id <$> rows old_c) →
  (migrate_pdf_data faults fs pdf_path).2 = Migrated →
  let fs1 := (migrate_pdf_data faults fs pdf_path).1 in
  (∀ n, (get_highlights_for_page fs1 pdf_path n).2 =
        (λ r, MkRect (h_x0 r) (h_y0 r) (h_x1 r) (h_y1 r)) <$>
          stable_sort index_leb
            (filter (λ r, h_pdf_path r = pdf_path ∧ h_page_number r = n) (rows old_h)))
  ∧ (∀ n, (get_comments_for_page fs1 pdf_path n).2 ≡ₚ
        (λ r, PageComment (c_id r) (MkPoint (c_x0 r) (c_y0 r)) (c_comment_text r)) <$>
          filter (λ r, c_pdf_path r = pdf_path ∧ c_page_number r = n) (rows old_c))
  ∧ ∃ old1 old_h1 old_c1,
      item_manager fs1 = Some old1
      ∧ old_pdf_highlights old1 = Some old_h1 ∧ old_pdf_comments old1 = Some old_c1
      ∧ rows old_h1 = filter (λ r, h_pdf_path r ≠ pdf_path) (rows old_h)
      ∧ rows old_c1 = filter (λ r, c_pdf_path r ≠ pdf_path) (rows old_c)
      ∧ item_queue old1 = item_queue old.
Proof.
  intros Hold Hh Hc Hhid Hhkey Hcid Hmig fs1.
  set (sel_h := filter (λ r, h_pdf_path r = pdf_path) (rows old_h)).
  set (sel_c := filter (λ r, c_pdf_path r = pdf_path) (rows old_c)).
  assert (stored_highlights fs1 pdf_path = sel_h ∧ stored_comments fs1 pdf_path = sel_c
          ∧ item_manager fs1 = Some (MainDb (item_queue old)
              (Some (delete_where (λ r, bool_decide (h_pdf_path r = pdf_path)) old_h))
              (Some (delete_where (λ r, bool_decide (c_pdf_path r = pdf_path)) old_c))))
    as (Hsh & Hsc & Hmain).
  { subst fs1. revert Hmig.
    unfold migrate_pdf_data, get_pdf_specific_db_connection, commit_pdf_db.
    destruct (bool_decide (is_Some (pdf_files fs !! get_pdf_db_path pdf_path))) eqn:Hguard;
      [done |].
    apply bool_decide_eq_false in Hguard.
    assert (pdf_files fs !! get_pdf_db_path pdf_path = None) as Hnone.
    { destruct (pdf_files fs !! get_pdf_db_path pdf_path); [| done].
      destruct Hguard. by eexists. }
    rewrite Hnone, Hold, Hh, Hc. simpl.
    assert (select_where (λ r, bool_decide (h_pdf_path r = pdf_path)) old_h = sel_h) as ->.
    { apply list_filter_iff. intros r. apply bool_decide_spec. }
    assert (select_where (λ r, bool_decide (c_pdf_path r = pdf_path)) old_c = sel_c) as ->.
    { apply list_filter_iff. intros r. apply bool_decide_spec. }
    repeat case_match; simpl; try done; intros _;
      unfold stored_highlights, stored_comments, pdf_db_of; simpl;
      rewrite lookup_insert_eq; simpl;
      (split; [| split; [| done]]);
      [ apply (insert_highlight_rows_all sel_h empty_table);
        by apply NoDup_fmap_filter
      | apply (insert_comment_rows_all sel_c empty_table);
        by apply NoDup_fmap_filter ]. }
  split; [| split].
  - intros n. rewrite get_highlights_for_page_eq, Hsh. unfold sel_h.
    rewrite list_filter_filter. do 2 f_equal. apply list_filter_iff. tauto.
  - intros n. rewrite get_comments_for_page_eq, Hsc. unfold sel_c.
    rewrite list_filter_filter.
    assert (filter (λ r, (c_pdf_path r = pdf_path ∧ c_page_number r = n)
                         ∧ c_pdf_path r = pdf_path) (rows old_c)
            = filter (λ r, c_pdf_path r = pdf_path ∧ c_page_number r = n) (rows old_c))
      as ->; [| done].
    apply list_filter_iff. tauto.
  - eexists _, _, _. split; [exact Hmain |]. simpl. split; [done |]. split; [done |].
    split; [| split; [| done]]; apply list_filter_iff; intros r;
      rewrite negb_True; by rewrite bool_decide_spec.
Qed.

(** ** Moving between pages *)

Lemma go_to_page_cases self n :
  length (page_widgets self) = Z.to_nat (total_pages self) →
  (1 ≤ n ≤ total_pages self
   ∧ go_to_page self n =
     Returned (Viewer (pdf_path self) (doc self) (total_pages self) (current_dpi self)
                 (last_known_page self) n (search_results self)
                 (page_widgets self) (Some n)))
  ∨ (¬ (1 ≤ n ≤ total_pages self) ∧ go_to_page self n = Returned self).
Proof.
  intros Hlen. unfold go_to_page.
  destruct ((1 <=? n) && (n <=? total_pages self)) eqn:Hrange; simpl.
  - apply andb_true_iff in Hrange as [H1 H2]. apply Z.leb_le in H1, H2.
    left. split; [lia |].
    destruct (page_widgets self !! Z.to_nat (n - 1)) as [shown |] eqn:Hw; [done |].
    apply lookup_ge_None in Hw. lia.
  - right. split; [| done]. intros [H1 H2].
    apply andb_false_iff in Hrange as [H | H]; apply Z.leb_gt in H; lia.
Qed.

Lemma navigate_in_range self step :
  length (page_widgets self) = Z.to_nat (total_pages self) →
  1 ≤ current_page_num self ≤ total_pages self →
  ∃ self', navigate self step = Returned self'
    ∧ total_pages self' = total_pages self
    ∧ page_widgets self' = page_widgets self
    ∧ 1 ≤ current_page_num self' ≤ total_pages self'.
Proof.
  intros Hlen Hcur.
  assert (∀ n, ∃ self', go_to_page self n = Returned self'
            ∧ total_pages self' = total_pages self
            ∧ page_widgets self' = page_widgets self
            ∧ 1 ≤ current_page_num self' ≤ total_pages self') as Hgo.
  { intros n. destruct (go_to_page_cases self n Hlen) as [[Hn ->] | [_ ->]];
      eexists; split; try done. }
  destruct step as [n | | | [n |]]; simpl.
  - apply Hgo.
  - apply Hgo.
  - apply Hgo.
  - destruct ((1 <=? n) && (n <=? total_pages self)); [apply Hgo |].
    by eexists.
  - by eexists.
Qed.

(** X10. Once the page number is within the document, no sequence of page
    changes (go to a page, previous, next, jump to a typed number) takes it
    out again, and none of them raises; a request for a page outside the
    document is ignored. *)
Theorem navigation_stays_in_range self steps :
  viewer_ready self →
  1 ≤ current_page_num self ≤ total_pages self →
  ∃ self', navigate_all self steps = Returned self'
    ∧ total_pages self' = total_pages self
    ∧ 1 ≤ current_page_num self' ≤ total_pages self'.
Proof.
  intros [_ Hlen]. revert self Hlen.
  induction steps as [|step steps IH]; intros self Hlen Hcur; simpl.
  - by eexists.
  - destruct (navigate_in_range self step Hlen Hcur) as (self1 & -> & Htot & Hw & Hcur1).
    simpl. destruct (IH self1) as (self2 & Hrun & Htot2 & Hcur2); [congruence | done |].
    exists self2. split; [done |]. split; [congruence | done].
Qed.

(** X11. Next on the last page and Previous on the first page change
    nothing.  On any other page Next moves one page forward and scrolls to
    it, and Previous after it comes back to the page before. *)
Theorem previous_and_next_page self :
  viewer_ready self →
  1 ≤ current_page_num self ≤ total_pages self →
  (current_page_num self = total_pages self → go_to_next_page self = Returned self)
  ∧ (current_page_num self = 1 → go_to_previous_page self = Returned self)
  ∧ (current_page_num self < total_pages self →
     ∃ self1 self2,
       go_to_next_page self = Returned self1
       ∧ current_page_num self1 = current_page_num self + 1
       ∧ visible_page self1 = Some (current_page_num self + 1)
       ∧ go_to_previous_page self1 = Returned self2
       ∧ current_page_num self2 = current_page_num self
       ∧ visible_page self2 = Some (current_page_num self)).
Proof.
  intros [_ Hlen] Hcur. unfold go_to_next_page, go_to_previous_page.
  split; [| split].
  - intros Hlast.
    destruct (go_to_page_cases self (current_page_num self + 1) Hlen) as [[Hn _] | [_ ->]];
      [lia | done].
  - intros Hfirst.
    destruct (go_to_page_cases self (current_page_num self - 1) Hlen) as [[Hn _] | [_ ->]];
      [lia | done].
  - intros Hlt.
    destruct (go_to_page_cases self (current_page_num self + 1) Hlen) as [[_ H1] | [Hn _]];
      [| lia].
    eexists _, _. split; [exact H1 |]. simpl. split; [done |]. split; [done |].
    set (self1 := Viewer _ _ _ _ _ _ _ _ _).
    destruct (go_to_page_cases self1 (current_page_num self + 1 - 1)) as [[_ H2] | [Hn _]];
      [done | | simpl in Hn; lia].
    rewrite H2. simpl. split; [done |]. simpl. split; [lia | f_equal; lia].
Qed.

(** ** The page under the viewport *)

Lemma Qc_ltb_true a b : Qc_ltb a b = true → (a < b)%Qc.
Proof. unfold Qc_ltb. apply bool_decide_eq_true. Qed.

Lemma Qc_ltb_false a b : Qc_ltb a b = false → (b ≤ a)%Qc.
Proof. unfold Qc_ltb. intros H. apply bool_decide_eq_false in H. by apply Qcnot_lt_le. Qed.

Lemma closest_page_from_spec vc l p c w :
  first_closest vc p c → p !! Z.to_nat (c - 1) = Some w →
  first_closest vc (p ++ l)
    (closest_page_from vc (Z.of_nat (length p)) c (Some (widget_distance vc w)) l).
Proof.
  revert p c w. induction l as [|x l IH]; intros p c w Hbest Hw; simpl.
  - by rewrite app_nil_r.
  - destruct Hbest as (Hc & w0 & Hw0 & Hmin & Hfirst).
    assert (w0 = w) as -> by congruence.
    replace (p ++ x :: l) with ((p ++ [x]) ++ l) by (by rewrite <- app_assoc).
    replace (Z.of_nat (length p) + 1) with (Z.of_nat (length (p ++ [x])))
      by (rewrite length_app; simpl; lia).
    destruct (Qc_ltb (widget_distance vc x) (widget_distance vc w)) eqn:Hlt.
    + apply Qc_ltb_true in Hlt.
      assert ((p ++ [x]) !! Z.to_nat (Z.of_nat (length (p ++ [x])) - 1) = Some x) as Hx.
      { rewrite length_app. simpl.
        replace (Z.to_nat (Z.of_nat (length p + 1) - 1)) with (length p) by lia.
        by apply list_lookup_middle. }
      apply IH; [| done].
      split; [rewrite length_app; simpl; lia |].
      exists x. split; [done |]. split.
      * intros j w' Hj. apply lookup_app_Some in Hj as [Hj | [_ Hj]].
        -- apply Qclt_le_weak. eapply Qclt_le_trans; [exact Hlt | by eapply Hmin].
        -- destruct (j - length p)%nat; [| done]. simpl in Hj. injection Hj as <-.
           apply Qcle_refl.
      * intros j w' Hj Hjlt. apply lookup_app_Some in Hj as [Hj | [Hge _]].
        -- eapply Qclt_le_trans; [exact Hlt | by eapply Hmin].
        -- rewrite length_app in Hjlt. simpl in Hjlt. lia.
    + apply Qc_ltb_false in Hlt.
      assert ((p ++ [x]) !! Z.to_nat (c - 1) = Some w) as Hw'.
      { apply lookup_app_l_Some. done. }
      apply IH; [| done].
      split; [rewrite length_app; simpl; lia |].
      exists w. split; [done |]. split.
      * intros j w' Hj. apply lookup_app_Some in Hj as [Hj | [_ Hj]].
        -- by eapply Hmin.
        -- destruct (j - length p)%nat; [| done]. simpl in Hj. by injection Hj as <-.
      * intros j w' Hj Hjlt. apply lookup_app_Some in Hj as [Hj | [Hge _]].
        -- by eapply Hfirst.
        -- lia.
Qed.

(** X12. The page [update_current_page_on_scroll] settles on is a page of
    the document, its widget is at the least distance from the centre of the
    viewport, and among widgets at that distance it is the first. *)
Theorem closest_page_is_first_nearest viewport_center geometry :
  geometry ≠ [] →
  first_closest viewport_center geometry (closest_page_from viewport_center 0 1 None geometry).
Proof.
  destruct geometry as [|x l]; [done |]. intros _. simpl.
  apply (closest_page_from_spec viewport_center l [x] 1 x); [| done].
  split; [simpl; lia |]. exists x. split; [done |]. split.
  - intros [|j] w' Hj; simpl in Hj; [| done]. injection Hj as <-. apply Qcle_refl.
  - intros j w' _ Hj. lia.
Qed.

(** X13. A scroll event brings the page number into the document whatever
    it was before, as long as there is a page widget.  Until then, a page
    number beyond the document makes Previous and Next do nothing. *)
Theorem scroll_restores_page_range self scroll_value viewport_height geometry :
  viewer_ready self → 0 < total_pages self →
  length geometry = length (page_widgets self) →
  let self1 := update_current_page_on_scroll self scroll_value viewport_height geometry in
  1 ≤ current_page_num self1 ≤ total_pages self1
  ∧ total_pages self1 = total_pages self
  ∧ (total_pages self + 1 < current_page_num self →
     go_to_previous_page self = Returned self ∧ go_to_next_page self = Returned self).
Proof.
  intros [_ Hlen] Hpages Hgeo self1.
  assert (geometry ≠ []) as Hne.
  { intros ->. simpl in Hgeo. lia. }
  destruct (closest_page_is_first_nearest
              (Qc_of_Z scroll_value + Qc_of_Z viewport_height / Qc_of_Z 2)%Qc geometry Hne)
    as (Hc & _).
  split; [| split].
  - subst self1. unfold update_current_page_on_scroll.
    destruct (page_widgets self) as [|shown rest] eqn:Hw; [simpl in Hlen; lia |].
    rewrite <- Hw in *. case_bool_decide as Hcur; simpl.
    + lia.
    + rewrite Hcur. lia.
  - subst self1. unfold update_current_page_on_scroll.
    destruct (page_widgets self); [done |]. by case_bool_decide.
  - intros Hbeyond. unfold go_to_previous_page, go_to_next_page. split.
    + destruct (go_to_page_cases self (current_page_num self - 1) Hlen) as [[Hn _] | [_ ->]];
        [lia | done].
    + destruct (go_to_page_cases self (current_page_num self + 1) Hlen) as [[Hn _] | [_ ->]];
        [lia | done].
Qed.

(** ** Loading all pages, and zoom *)

Lemma load_pages_effect pages w self :
  is_Some (doc self) →
  length (page_widgets self) = Z.to_nat (total_pages self) →
  (∀ n, n ∈ pages → 1 ≤ n ≤ total_pages self) →
  ∃ w' self', load_pages pages w self = Returned (w', self')
    ∧ same_but_widgets self self'
    ∧ (∀ name img, cached_image w name = Some img → cached_image w' name = Some img)
    ∧ (∀ n, n ∈ pages →
         is_Some (cached_image w' (cache_filename (pdf_path self) n (current_dpi self))))
    ∧ (length (render_calls w') ≤ length (render_calls w) + length pages)%nat
    ∧ ((∀ n, n ∈ pages →
          is_Some (cached_image w (cache_filename (pdf_path self) n (current_dpi self)))) →
       render_calls w' = render_calls w ∧ cache_dir w' = cache_dir w).
Proof.
  intros [d Hd]. revert w self Hd.
  induction pages as [|p pages IH]; intros w self Hd Hlen Hrange; simpl.
  - eexists _, _. split; [done |]. split; [apply same_but_widgets_refl |].
    split; [done |]. split; [intros n Hn; by apply elem_of_nil in Hn |].
    split; [lia | done].
  - destruct (load_page_effect w self d p Hd (Hrange p ltac:(left)) Hlen)
      as (w1 & self1 & Hload & Hsame & Hp & Hcase).
    rewrite Hload. simpl.
    pose proof Hsame as (Hpath & Hdoc & Htot & Hdpi & _ & _ & _ & _ & Hlen1).
    destruct (IH w1 self1) as (w2 & self2 & Hrest & Hsame2 & Hkeep & Hall & Hcount & Hnone).
    { congruence. } { congruence. }
    { intros n Hn. rewrite Htot. apply Hrange. by right. }
    exists w2, self2. split; [done |].
    split; [by eapply same_but_widgets_trans |].
    split.
    { intros name img Hc. apply Hkeep.
      by apply (load_page_keeps_cached _ _ _ _ _ name img Hload). }
    split.
    { intros n Hn. apply elem_of_cons in Hn as [-> | Hn].
      - destruct Hp as [img Hp]. exists img. by apply Hkeep.
      - rewrite <- Hpath, <- Hdpi. by apply Hall. }
    split.
    { destruct (cached_image w _) in Hcase.
      - destruct Hcase as [_ Hr]. rewrite Hr in Hcount. simpl. lia.
      - rewrite Hcase, length_app in Hcount. simpl in *. lia. }
    intros Hcached.
    destruct (Hcached p ltac:(left)) as [img Himg]. rewrite Himg in Hcase.
    destruct Hcase as [Hc Hr].
    destruct Hnone as [Hr2 Hc2].
    { intros n Hn. rewrite Hpath, Hdpi.
      destruct (Hcached n ltac:(by right)) as [img' Himg']. exists img'.
      by apply (load_page_keeps_cached _ _ _ _ _ _ img' Hload). }
    split; congruence.
Qed.

Lemma load_all_pages_effect w self :
  viewer_ready self →
  ∃ w' self', load_all_pages w self = Returned (w', self')
    ∧ same_but_widgets self self'
    ∧ (∀ name img, cached_image w name = Some img → cached_image w' name = Some img)
    ∧ pages_cached w' self
    ∧ (length (render_calls w') ≤ length (render_calls w) + Z.to_nat (total_pages self))%nat
    ∧ (pages_cached w self → render_calls w' = render_calls w ∧ cache_dir w' = cache_dir w).
Proof.
  intros [Hdoc Hlen]. unfold load_all_pages.
  destruct (doc self) as [d |] eqn:Hd; [| by destruct Hdoc].
  assert (∀ n, n ∈ seqZ 1 (total_pages self) ↔ 1 ≤ n ≤ total_pages self) as Hseq.
  { intros n. rewrite elem_of_seqZ. lia. }
  destruct (load_pages_effect (seqZ 1 (total_pages self)) w self)
    as (w1 & self1 & Hload & Hsame & Hkeep & Hall & Hcount & Hnone).
  { rewrite Hd. by eexists. } { done. } { intros n Hn. by apply Hseq. }
  exists w1, self1. split; [done |]. split; [done |]. split; [done |].
  split; [intros n Hn; apply Hall; by apply Hseq |].
  split; [by rewrite length_seqZ in Hcount |].
  intros Hcached. apply Hnone. intros n Hn. apply Hcached. by apply Hseq.
Qed.

(** X14. After [load_all_pages] every page of the document has a readable
    cache file at the current dpi, at most one renderer call per page was
    made, and no readable cache file was changed.  Loading all pages again
    calls the renderer for no page and leaves the cache directory as it
    is. *)
Theorem load_all_pages_fills_cache w self :
  viewer_ready self →
  ∃ w1 self1 w2 self2,
    load_all_pages w self = Returned (w1, self1)
    ∧ pages_cached w1 self1
    ∧ (∀ name img, cached_image w name = Some img → cached_image w1 name = Some img)
    ∧ (length (render_calls w1) ≤ length (render_calls w) + Z.to_nat (total_pages self))%nat
    ∧ load_all_pages w1 self1 = Returned (w2, self2)
    ∧ render_calls w2 = render_calls w1
    ∧ cache_dir w2 = cache_dir w1.
Proof.
  intros Hready.
  destruct (load_all_pages_effect w self Hready)
    as (w1 & self1 & Hload & Hsame & Hkeep & Hall & Hcount & _).
  assert (pages_cached w1 self1) as Hall1.
  { destruct Hsame as (Hpath & _ & Htot & Hdpi & _). unfold pages_cached.
    rewrite Hpath, Htot, Hdpi. exact Hall. }
  destruct (load_all_pages_effect w1 self1 (viewer_ready_same _ _ Hsame Hready))
    as (w2 & self2 & Hload2 & _ & _ & _ & _ & Hnone).
  destruct (Hnone Hall1) as [Hr Hc].
  by exists w1, self1, w2, self2.
Qed.

Lemma zoom_step_effect w self step_dpi z :
  viewer_ready self → 0 < step_dpi ≤ 50 → 0 < current_dpi self →
  ∃ w' self',
    match z with
    | ZoomIn => zoom_in w self step_dpi
    | ZoomOut => zoom_out w self step_dpi
    end = Returned (w', self')
    ∧ viewer_ready self'
    ∧ 0 < current_dpi self'
    ∧ current_page_num self' = current_page_num self
    ∧ total_pages self' = total_pages self.
Proof.
  intros Hready Hstep Hdpi.
  assert (∀ dpi, 0 < dpi →
            ∃ w' self', load_all_pages w (with_dpi self dpi) = Returned (w', self')
              ∧ viewer_ready self' ∧ 0 < current_dpi self'
              ∧ current_page_num self' = current_page_num self
              ∧ total_pages self' = total_pages self) as Hload.
  { intros dpi Hpos.
    destruct (load_all_pages_effect w (with_dpi self dpi))
      as (w1 & self1 & Hl & Hsame & _); [done |].
    exists w1, self1. split; [done |].
    split; [by apply (viewer_ready_same (with_dpi self dpi)) |].
    destruct Hsame as (_ & _ & Htot & Hd & _ & Hcur & _). simpl in *.
    rewrite Hd, Hcur, Htot. done. }
  destruct z; simpl.
  - apply Hload. lia.
  - unfold zoom_out. destruct (Z.ltb_spec 50 (current_dpi self)).
    + apply Hload. lia.
    + by eexists _, _.
Qed.

(** X15. With a configured zoom step between 1 and 50 and a positive dpi to
    start from, no sequence of zoom-in and zoom-out raises or makes the dpi
    zero or negative; the page number and the page count are not touched by
    zooming. *)
Theorem zoom_keeps_dpi_positive w self step_dpi zs :
  viewer_ready self → 0 < step_dpi ≤ 50 → 0 < current_dpi self →
  ∃ w' self',
    zoom_all w self step_dpi zs = Returned (w', self')
    ∧ 0 < current_dpi self'
    ∧ current_page_num self' = current_page_num self
    ∧ total_pages self' = total_pages self.
Proof.
  intros Hready Hstep. revert w self Hready.
  induction zs as [|z zs IH]; intros w self Hready Hdpi; simpl.
  - eexists _, _. by repeat split.
  - destruct (zoom_step_effect w self step_dpi z Hready Hstep Hdpi)
      as (w1 & self1 & -> & Hready1 & Hdpi1 & Hcur1 & Htot1).
    simpl. destruct (IH w1 self1 Hready1 Hdpi1) as (w2 & self2 & Hrun & Hdpi2 & Hcur2 & Htot2).
    exists w2, self2. split; [done |]. split; [done |]. split; congruence.
Qed.

(** X16. Zoom-out at 50 dpi or less does nothing at all.  So zoom-out
    undoes a zoom-in only when the dpi after the zoom-in is above 50: then
    it comes back to the dpi before, and when every page had a readable
    cache file at that dpi, coming back calls the renderer for no page.
    When the dpi after the zoom-in is 50 or less, the zoom-out that follows
    does nothing and the dpi stays where the zoom-in put it. *)
Theorem zoom_out_undoes_zoom_in w self step_dpi :
  viewer_ready self →
  (current_dpi self ≤ 50 → zoom_out w self step_dpi = Returned (w, self))
  ∧ ∃ w1 self1,
      zoom_in w self step_dpi = Returned (w1, self1)
      ∧ current_dpi self1 = current_dpi self + step_dpi
      ∧ (50 < current_dpi self + step_dpi →
         ∃ w2 self2,
           zoom_out w1 self1 step_dpi = Returned (w2, self2)
           ∧ current_dpi self2 = current_dpi self
           ∧ (pages_cached w self → render_calls w2 = render_calls w1))
      ∧ (current_dpi self + step_dpi ≤ 50 →
         zoom_out w1 self1 step_dpi = Returned (w1, self1)).
Proof.
  intros Hready. split.
  - intros Hlow. unfold zoom_out.
    destruct (Z.ltb_spec 50 (current_dpi self)); [lia | done].
  - unfold zoom_in.
    destruct (load_all_pages_effect w (with_dpi self (current_dpi self + step_dpi)))
      as (w1 & self1 & Hin & Hsame1 & Hkeep1 & _); [done |].
    pose proof Hsame1 as (Hpath1 & Hdoc1 & Htot1 & Hdpi1 & Hlast1 & Hcur1 & Hsr1 & Hvis1 & Hlen1).
    simpl in Hpath1, Hdoc1, Htot1, Hdpi1, Hlen1.
    assert (viewer_ready self1) as Hready1
      by (by apply (viewer_ready_same (with_dpi self (current_dpi self + step_dpi)))).
    exists w1, self1. split; [done |]. split; [done |]. split.
    + intros Hhigh.
      destruct (load_all_pages_effect w1 (with_dpi self1 (current_dpi self)))
        as (w2 & self2 & Hout & Hsame2 & _ & _ & _ & Hnone).
      { destruct Hready1. by split. }
      assert (zoom_out w1 self1 step_dpi = Returned (w2, self2)) as Hzoom.
      { unfold zoom_out. rewrite Hdpi1.
        destruct (Z.ltb_spec 50 (current_dpi self + step_dpi)); [| lia].
        by replace (current_dpi self + step_dpi - step_dpi) with (current_dpi self) by lia. }
      exists w2, self2. split; [done |].
      split; [by destruct Hsame2 as (_ & _ & _ & -> & _) |].
      intros Hcached. apply Hnone. intros n Hn. simpl in *.
      rewrite Htot1 in Hn. rewrite Hpath1.
      destruct (Hcached n Hn) as [img Himg]. exists img. by apply Hkeep1.
    + intros Hlow. unfold zoom_out. rewrite Hdpi1.
      destruct (Z.ltb_spec 50 (current_dpi self + step_dpi)); [lia | done].
Qed.

(** ** Search results, colours and protected documents *)

Lemma go_to_page_keeps self n :
  viewer_ready self →
  ∃ self', go_to_page self n = Returned self'
    ∧ search_results self' = search_results self
    ∧ viewer_ready self'
    ∧ (1 ≤ n ≤ total_pages self →
       current_page_num self' = n ∧ visible_page self' = Some n)
    ∧ (¬ (1 ≤ n ≤ total_pages self) → self' = self).
Proof.
  intros [Hdoc Hlen].
  destruct (go_to_page_cases self n Hlen) as [[Hn ->] | [Hn ->]];
    eexists; (split; [reflexivity |]); simpl; repeat split; auto; try lia.
Qed.

Lemma go_to_next_result_spec self idx :
  viewer_ready self →
  search_results self ≠ [] →
  let n := Z.of_nat (length (search_results self)) in
  ∃ self', go_to_next_result self idx = Returned (self', (idx + 1) `mod` n)
    ∧ search_results self' = search_results self
    ∧ viewer_ready self'
    ∧ ∀ page rect,
        search_results self !! Z.to_nat ((idx + 1) `mod` n) = Some (page, rect) →
        1 ≤ page ≤ total_pages self →
        current_page_num self' = page ∧ visible_page self' = Some page.
Proof.
  intros Hready Hne n.
  assert (Hn : 0 < n).
  { unfold n. destruct (search_results self); [done | simpl; lia]. }
  assert (Hmatch : ∀ (A : Type) (a b : A),
             match search_results self with [] => a | _ :: _ => b end = b).
  { intros A a b. by destruct (search_results self). }
  unfold go_to_next_result. rewrite Hmatch. fold n.
  pose proof (Z.mod_pos_bound (idx + 1) n Hn) as Hmod.
  destruct (search_results self !! Z.to_nat ((idx + 1) `mod` n))
    as [[page rect] |] eqn:Hlk.
  - destruct (go_to_page_keeps self page Hready) as (self' & -> & Hsr & Hr' & Hin & _).
    exists self'. split; [reflexivity |]. split; [done |]. split; [done |].
    intros page0 rect0 [= <- <-]. apply Hin.
  - apply lookup_ge_None in Hlk. revert Hlk Hmod.
    generalize ((idx + 1) `mod` n). unfold n. lia.
Qed.

Lemma go_to_prev_result_spec self idx :
  viewer_ready self →
  search_results self ≠ [] →
  let n := Z.of_nat (length (search_results self)) in
  idx ≤ n →
  let prev := if idx - 1 <? 0 then n - 1 else idx - 1 in
  ∃ self', go_to_prev_result self idx = Returned (self', prev)
    ∧ search_results self' = search_results self
    ∧ viewer_ready self'
    ∧ ∀ page rect,
        search_results self !! Z.to_nat prev = Some (page, rect) →
        1 ≤ page ≤ total_pages self →
        current_page_num self' = page ∧ visible_page self' = Some page.
Proof.
  intros Hready Hne n Hidx prev.
  assert (Hn : 0 < n).
  { unfold n. destruct (search_results self); [done | simpl; lia]. }
  assert (Hmatch : ∀ (A : Type) (a b : A),
             match search_results self with [] => a | _ :: _ => b end = b).
  { intros A a b. by destruct (search_results self). }
  unfold go_to_prev_result. rewrite Hmatch. fold n. fold prev.
  assert (Hprev : 0 ≤ prev < n).
  { unfold prev. destruct (idx - 1 <? 0) eqn:Hlt; [lia |].
    apply Z.ltb_ge in Hlt. lia. }
  destruct (search_results self !! Z.to_nat prev) as [[page rect] |] eqn:Hlk.
  - destruct (go_to_page_keeps self page Hready) as (self' & -> & Hsr & Hr' & Hin & _).
    exists self'. split; [reflexivity |]. split; [done |]. split; [done |].
    intros page0 rect0 [= <- <-]. apply Hin.
  - apply lookup_ge_None in Hlk. unfold n in Hprev. lia.
Qed.

(** X19. With search results present and the index on one of them, "next"
    moves to the following result and wraps from the last to the first,
    "previous" moves back and wraps from the first to the last, each undoes
    the other, and the viewer goes to the page of the result reached when
    that page is in the document.  Neither call raises. *)
Theorem search_next_and_previous_cycle self idx :
  viewer_ready self →
  search_results self ≠ [] →
  0 ≤ idx < Z.of_nat (length (search_results self)) →
  let n := Z.of_nat (length (search_results self)) in
  let next := if bool_decide (idx = n - 1) then 0 else idx + 1 in
  let prev := if bool_decide (idx = 0) then n - 1 else idx - 1 in
  ∃ self1 self2 self3 self4,
    go_to_next_result self idx = Returned (self1, next)
    ∧ go_to_prev_result self1 next = Returned (self2, idx)
    ∧ go_to_prev_result self idx = Returned (self3, prev)
    ∧ go_to_next_result self3 prev = Returned (self4, idx)
    ∧ (∀ page rect, search_results self !! Z.to_nat next = Some (page, rect) →
         1 ≤ page ≤ total_pages self →
         current_page_num self1 = page ∧ visible_page self1 = Some page)
    ∧ (∀ page rect, search_results self !! Z.to_nat prev = Some (page, rect) →
         1 ≤ page ≤ total_pages self →
         current_page_num self3 = page ∧ visible_page self3 = Some page).
Proof.
  intros Hready Hne Hidx n next prev.
  assert (Hnext : (idx + 1) `mod` n = next).
  { unfold next. case_bool_decide as Hlast.
    - replace (idx + 1) with n by lia. apply Z.mod_same. unfold n. lia.
    - apply Z.mod_small. unfold n in *. lia. }
  assert (Hprev : (if idx - 1 <? 0 then n - 1 else idx - 1) = prev).
  { unfold prev. case_bool_decide as Hfirst.
    - subst idx. reflexivity.
    - destruct (idx - 1 <? 0) eqn:Hlt; [apply Z.ltb_lt in Hlt; lia | done]. }
  destruct (go_to_next_result_spec self idx Hready Hne)
    as (self1 & Hgo1 & Hsr1 & Hr1 & Hpage1).
  fold n in Hgo1, Hpage1. rewrite Hnext in Hgo1, Hpage1.
  assert (Hne1 : search_results self1 ≠ []) by (by rewrite Hsr1).
  destruct (go_to_prev_result_spec self1 next Hr1 Hne1) as (self2 & Hgo2 & _).
  { rewrite Hsr1. fold n. unfold next. case_bool_decide; unfold n in *; lia. }
  rewrite Hsr1 in Hgo2. fold n in Hgo2.
  assert (Hback : (if next - 1 <? 0 then n - 1 else next - 1) = idx).
  { unfold next. case_bool_decide as Hlast.
    - simpl. lia.
    - destruct (idx + 1 - 1 <? 0) eqn:Hlt; [apply Z.ltb_lt in Hlt |]; lia. }
  rewrite Hback in Hgo2.
  destruct (go_to_prev_result_spec self idx Hready Hne)
    as (self3 & Hgo3 & Hsr3 & Hr3 & Hpage3); [lia |].
  fold n in Hgo3, Hpage3. rewrite Hprev in Hgo3, Hpage3.
  assert (Hne3 : search_results self3 ≠ []) by (by rewrite Hsr3).
  destruct (go_to_next_result_spec self3 prev Hr3 Hne3) as (self4 & Hgo4 & _).
  rewrite Hsr3 in Hgo4. fold n in Hgo4.
  assert (Hforth : (prev + 1) `mod` n = idx).
  { unfold prev. case_bool_decide as Hfirst.
    - replace (n - 1 + 1) with n by lia. rewrite Z.mod_same; unfold n; lia.
    - replace (idx - 1 + 1) with idx by lia. apply Z.mod_small. unfold n. lia. }
  rewrite Hforth in Hgo4.
  exists self1, self2, self3, self4. repeat split; auto.
  - by apply (Hpage1 page rect).
  - by apply (Hpage1 page rect).
  - by apply (Hpage3 page rect).
  - by apply (Hpage3 page rect).
Qed.

Lemma srgb_components_packed hi r g b :
  0 ≤ r ≤ 255 → 0 ≤ g ≤ 255 → 0 ≤ b ≤ 255 →
  srgb_components (hi * 16777216 + r * 65536 + g * 256 + b) = (r, g, b).
Proof.
  intros Hr Hg Hb. unfold srgb_components.
  change 255 with (Z.ones 8).
  rewrite !Z.land_ones, !Z.shiftr_div_pow2 by lia.
  change (2 ^ 16) with 65536. change (2 ^ 8) with 256.
  repeat f_equal; Z.div_mod_to_equations; lia.
Qed.

(** X20. For an integer colour, [srgb_int_to_css] prints the three 8-bit
    channels packed as 0xRRGGBB, in decimal, and ignores every bit above
    the 24th (also for a negative integer). *)
Theorem srgb_int_to_css_unpacks_channels hi r g b :
  0 ≤ r ≤ 255 → 0 ≤ g ≤ 255 → 0 ≤ b ≤ 255 →
  srgb_int_to_css (ColorInt (hi * 16777216 + r * 65536 + g * 256 + b))
  = "rgb(" +:+ pretty r +:+ ", " +:+ pretty g +:+ ", " +:+ pretty b +:+ ")".
Proof.
  intros Hr Hg Hb. unfold srgb_int_to_css.
  by rewrite srgb_components_packed.
Qed.

Lemma password_loop_result pdf pdf_path pws password answers pws' result :
  password_loop pdf pdf_path pws password answers = Some (pws', result) →
  match result with
  | None => pws' = pws
  | Some d =>
    d = Document pdf_path (disk_page_count pdf)
    ∧ ∃ accepted, authenticate pdf accepted = true
        ∧ pws' = <[pdf_path := accepted]> pws
  end.
Proof.
  revert password. induction answers as [| [text ok] answers IH]; intros password; simpl.
  - destruct (authenticate pdf password) eqn:Hauth; [| done].
    intros [= <- <-]. split; [done |]. by exists password.
  - destruct (authenticate pdf password) eqn:Hauth.
    + intros [= <- <-]. split; [done |]. by exists password.
    + destruct ok; [apply IH |]. by intros [= <- <-].
Qed.

(** X21. Whenever [_open_pdf_with_prompt] hands back a document, it is the
    document at the given path, and if that document is encrypted the
    password cache then holds for its path a password the document accepts;
    entries of other paths are never touched.  When it hands back nothing
    (the file cannot be opened, prompting is off, or the dialog was
    cancelled) the cache is unchanged, and so it is for an unencrypted
    document. *)
Theorem opened_document_has_accepted_password
    opened pdf_path prompt_if_needed pws answers pws' result :
  _open_pdf_with_prompt opened pdf_path prompt_if_needed pws answers
    = Some (pws', result) →
  (∀ other, other ≠ pdf_path → pws' !! other = pws !! other)
  ∧ match result with
    | None => pws' = pws
    | Some d =>
      ∃ pdf, opened = Some pdf
        ∧ d = Document pdf_path (disk_page_count pdf)
        ∧ if is_encrypted pdf
          then ∃ password, pws' !! pdf_path = Some password
                 ∧ authenticate pdf password = true
          else pws' = pws
    end.
Proof.
  unfold _open_pdf_with_prompt.
  destruct opened as [pdf |]; [| by intros [= <- <-]].
  destruct (is_encrypted pdf) eqn:Henc; [| intros [= <- <-]; split; [done |];
    exists pdf; by rewrite Henc].
  destruct (pws !! pdf_path) as [cached |] eqn:Hcache.
  - destruct (authenticate pdf cached) eqn:Hauth.
    + intros [= <- <-]. split; [done |]. exists pdf. rewrite Henc.
      repeat split. by exists cached.
    + destruct prompt_if_needed; simpl; [| by intros [= <- <-]].
      intros Hloop. apply password_loop_result in Hloop.
      destruct result as [d |]; [| by subst].
      destruct Hloop as (-> & accepted & Hacc & ->). split.
      * intros other Hother. by rewrite lookup_insert_ne.
      * exists pdf. rewrite Henc. repeat split. exists accepted.
        by rewrite lookup_insert_eq.
  - destruct prompt_if_needed; simpl; [| by intros [= <- <-]].
    intros Hloop. apply password_loop_result in Hloop.
    destruct result as [d |]; [| by subst].
    destruct Hloop as (-> & accepted & Hacc & ->). split.
    + intros other Hother. by rewrite lookup_insert_ne.
    + exists pdf. rewrite Henc. repeat split. exists accepted.
      by rewrite lookup_insert_eq.
Qed.

Lemma password_loop_rejected pdf pdf_path pws password wrong answers :
  authenticate pdf password = false →
  Forall (λ a, authenticate pdf a.1 = false ∧ a.2 = true) wrong →
  password_loop pdf pdf_path pws password (wrong ++ answers)
  = match answers with
    | [] => None
    | (text, ok) :: answers =>
      if ok then password_loop pdf pdf_path pws text answers else Some (pws, None)
    end.
Proof.
  intros Hpw Hwrong. revert password Hpw.
  induction Hwrong as [| [text ok] wrong [Hrej Hok] _ IH]; intros password Hpw.
  - simpl. destruct answers; simpl; by rewrite Hpw.
  - simpl in *. subst ok. rewrite Hpw. by apply IH.
Qed.

(** X22. For an encrypted document without a usable cached password that
    rejects the empty password: after any number of rejected passwords, the
    first accepted one opens the document and is stored in the cache under
    its path, whatever was asked for later; and cancelling the dialog at
    that point instead hands back nothing and leaves the cache as it was. *)
Theorem password_dialog_until_accepted_or_cancelled
    pdf pdf_path pws wrong good text rest :
  is_encrypted pdf = true →
  (∀ cached, pws !! pdf_path = Some cached → authenticate pdf cached = false) →
  authenticate pdf "" = false →
  Forall (λ a, authenticate pdf a.1 = false ∧ a.2 = true) wrong →
  authenticate pdf good = true →
  _open_pdf_with_prompt (Some pdf) pdf_path true pws (wrong ++ (good, true) :: rest)
  = Some (<[pdf_path := good]> pws, Some (Document pdf_path (disk_page_count pdf)))
  ∧ _open_pdf_with_prompt (Some pdf) pdf_path true pws (wrong ++ (text, false) :: rest)
    = Some (pws, None).
Proof.
  intros Henc Hcache Hempty Hwrong Hgood.
  unfold _open_pdf_with_prompt. rewrite Henc.
  assert (Hc : match pws !! pdf_path with
               | Some cached_password => authenticate pdf cached_password
               | None => false
               end = false).
  { destruct (pws !! pdf_path) as [cached |] eqn:Hlk; [by apply Hcache | done]. }
  rewrite Hc. simpl negb. cbv iota.
  rewrite !password_loop_rejected by done. split; [| done].
  destruct rest; simpl; by rewrite Hgood.
Qed.

(** ** Closing and reopening *)

Lemma get_item_details_save_last_page fs path page_num :
  (get_item_details (save_last_page fs path page_num) path).2.1 =
  if existsb (λ r, bool_decide (q_path r = path)) (queue_rows fs) then page_num else 1.
Proof.
  set (f := λ r : queue_item, if bool_decide (q_path r = path)
              then QueueItem (q_id r) (q_title r) (q_path r) (Some page_num) (q_progress r)
              else r).
  assert (queue_rows (save_last_page fs path page_num) = f <$> queue_rows fs) as Hrows by done.
  assert (filter (λ r, q_path r = path) (f <$> queue_rows fs)
          = f <$> filter (λ r, q_path r = path) (queue_rows fs)) as Hfilter.
  { rewrite filter_fmap. f_equal. apply list_filter_iff. intros r.
    unfold f. by case_bool_decide. }
  rewrite get_item_details_eq, Hrows, Hfilter.
  destruct (existsb _ (queue_rows fs)) eqn:Hq.
  - apply queued_spec, list_elem_of_fmap in Hq as (r & Hp & Hr).
    destruct (filter (λ r, q_path r = path) (queue_rows fs)) as [| r0 l] eqn:Hf.
    + assert (r ∈ filter (λ r, q_path r = path) (queue_rows fs)) as Hin
        by (by apply list_elem_of_filter).
      rewrite Hf in Hin. by apply elem_of_nil in Hin.
    + assert (q_path r0 = path) as Hr0.
      { assert (r0 ∈ filter (λ r, q_path r = path) (queue_rows fs)) as Hin
          by (rewrite Hf; left).
        by apply list_elem_of_filter in Hin as [? _]. }
      simpl. unfold f. by rewrite bool_decide_eq_true_2.
  - rewrite filter_none; [done |]. intros r Hr Hp.
    assert (existsb (λ r, bool_decide (q_path r = path)) (queue_rows fs) = true)
      by (apply queued_spec; rewrite <- Hp; by apply list_elem_of_fmap_2).
    congruence.
Qed.

Lemma open_viewer_page faults w pdf_path initial_dpi d :
  let last_page := (get_item_details (fs w) pdf_path).2.1 in
  ∃ w' self',
    open_viewer faults w pdf_path initial_dpi d = Returned (w', self')
    ∧ total_pages self' = page_count d
    ∧ current_page_num self' = last_page
    ∧ visible_page self' =
        if bool_decide (1 ≤ last_page ≤ page_count d) then Some last_page else None.
Proof.
  intros last_page. unfold open_viewer, PdfViewerDialog_init.
  pose proof (get_item_details_after_migration faults (fs w) pdf_path) as Hdetails.
  destruct (migrate_pdf_data faults (fs w) pdf_path) as [fs1 report].
  cbn [fst] in Hdetails.
  destruct (get_item_details fs1 pdf_path) as [fs2 [lp progress_json]].
  cbn [snd] in Hdetails.
  assert (lp = last_page) as -> by (subst last_page; by rewrite <- Hdetails).
  set (self0 := _open_pdf_document _ d).
  destruct (setup_pages_returns (World fs2 (cache_dir w) (heap w) (render_calls w)) self0 d)
    as (w1 & self1 & Hsetup & Htot & Hlast & Hcur & Hvis & Hlen); [done |].
  rewrite Hsetup. simpl. subst self0. simpl in Hlast, Hcur, Hvis.
  destruct (0 <? total_pages self1) eqn:Hpages; simpl.
  - unfold go_to_page. rewrite Hlast, Htot.
    destruct (bool_decide (1 ≤ last_page ≤ page_count d)) eqn:Hrange.
    + apply bool_decide_eq_true in Hrange.
      assert ((1 <=? last_page) && (last_page <=? page_count d) = true) as ->.
      { apply andb_true_iff. split; apply Z.leb_le; lia. }
      simpl. destruct (page_widgets self1 !! Z.to_nat (last_page - 1)) as [shown |] eqn:Hw.
      * simpl. eexists _, _. split; [done |]. simpl. by repeat split.
      * apply lookup_ge_None in Hw. lia.
    + apply bool_decide_eq_false in Hrange.
      assert ((1 <=? last_page) && (last_page <=? page_count d) = false) as ->.
      { apply andb_false_iff.
        destruct (Z.leb_spec 1 last_page); [| by left].
        right. apply Z.leb_gt. lia. }
      simpl. eexists _, _. split; [done |]. by repeat split.
  - eexists _, _. split; [done |]. repeat split; try done.
    rewrite Hvis. apply Z.ltb_ge in Hpages. rewrite bool_decide_eq_false_2; [done | lia].
Qed.

(** X23. Closing the viewer and opening the same document again brings the
    reader back to the page the viewer was on, and scrolls there when the
    page is within the document, provided the document is in the item queue.
    For a document that is not in the queue the page is not kept: the viewer
    opens on page 1. *)
Theorem closed_viewer_reopens_on_same_page faults w self initial_dpi d :
  let queued :=
    existsb (λ r, bool_decide (q_path r = pdf_path self)) (queue_rows (fs w)) in
  let page := if queued then current_page_num self else 1 in
  ∃ w' self',
    open_viewer faults (closeEvent w self) (pdf_path self) initial_dpi d
      = Returned (w', self')
    ∧ total_pages self' = page_count d
    ∧ current_page_num self' = page
    ∧ visible_page self' =
        if bool_decide (1 ≤ page ≤ page_count d) then Some page else None.
Proof.
  intros queued page.
  destruct (open_viewer_page faults (closeEvent w self) (pdf_path self) initial_dpi d)
    as (w' & self' & Hopen & Htot & Hcur & Hvis).
  cbn [closeEvent fs] in Hcur, Hvis.
  rewrite get_item_details_save_last_page in Hcur, Hvis.
  exists w', self'. by repeat split.
Qed.

End Addon.

(** * Concrete runs *)

(** C4, counterexample. A comment is placed on page 1 and a highlight is
    drawn on page 1 afterwards: the listing shows the highlight first. *)
Lemma annotations_not_in_creation_order :
  let es := [AddComment 1 (MkPoint 0 0) "c"; AddHighlight 1 (MkRect 0 0 1 1) "h"] in
  let fs := foldl (λ fs e, edit_store path_digest fs "a.pdf" e) empty_profile es in
  (all_annotations path_digest fs "a.pdf").2 =
    [Annotation highlight 1 (Some "h"); Annotation comment 1 (Some "c")]
  ∧ listing_in_creation_order es =
    [Annotation comment 1 (Some "c"); Annotation highlight 1 (Some "h")]
  ∧ (all_annotations path_digest fs "a.pdf").2 ≠ listing_in_creation_order es.
Proof.
  vm_compute. split; [reflexivity |]. split; [reflexivity | discriminate].
Qed.

(** C3, counterexample. The first comment of a document gets rowid 1, and
    the call hands back [None]. *)
Lemma add_comment_hands_back_nothing :
  let r := add_comment_to_db path_digest empty_profile "A.pdf" 2
             (MkPoint (Qc_of_Z 10) (Qc_of_Z 10)) "note" in
  c_id <$> stored_comments path_digest r.1 "A.pdf" = [1]
  ∧ r.2 = None
  ∧ r.2 ≠ Some 1.
Proof.
  vm_compute. split; [reflexivity |]. split; [reflexivity | discriminate].
Qed.

(** C5, counterexample. The shared store says page 10 for a document that
    now has 5 pages: the opened viewer is on page 10 of 5, and nothing was
    scrolled. *)
Lemma stored_last_page_beyond_document_is_kept :
  let queue := Table [QueueItem 1 (Some "A") "A.pdf" (Some 10) None] 1 in
  let w := World (Profile ∅ (Some (MainDb queue None None))) ∅ [] [] in
  ∃ w' self',
    open_viewer path_digest no_faults w "A.pdf" 75 (Document "A.pdf" 5)
      = Returned (w', self')
    ∧ total_pages self' = 5
    ∧ current_page_num self' = 10
    ∧ visible_page self' = None.
Proof.
  eexists _, _. split; [vm_compute; reflexivity |]. by vm_compute.
Qed.

(** C1, witness: page 2 of a document that already has another highlight. *)
Lemma add_highlight_twice_one_row_witness :
  let rect := MkRect (Qc_of_Z 10) (Qc_of_Z 10) (Qc_of_Z 50) (Qc_of_Z 20) in
  let fs := add_highlight_to_db path_digest empty_profile "A.pdf" 1
              (MkRect 0 0 1 1) "first" in
  let fs1 := add_highlight_to_db path_digest fs "A.pdf" 2 rect "x" in
  let fs2 := add_highlight_to_db path_digest fs1 "A.pdf" 2 rect "x" in
  unique_highlights (stored_highlights path_digest fs "A.pdf")
  ∧ stored_highlights path_digest fs2 "A.pdf" = stored_highlights path_digest fs1 "A.pdf"
  ∧ length (filter (λ r, highlight_matches "A.pdf" 2 rect r)
              (stored_highlights path_digest fs2 "A.pdf")) = 1%nat.
Proof.
  intros rect fs fs1 fs2.
  assert (unique_highlights (stored_highlights path_digest fs "A.pdf")) as Hu.
  { vm_compute. apply NoDup_singleton. }
  split; [exact Hu |].
  pose proof (add_highlight_twice_one_row path_digest fs "A.pdf" 2 rect "x" "x" Hu)
    as (H1 & H2 & _).
  split; [exact H1 | exact H2].
Defined.

(** C2, failing input: a 10x10 pixmap in a 20x10 label at 72 dpi.  The image
    is centred with [offset_x = 5.0], so the click at pixel (17, 4) is in
    the padding on the right; building the rectangle of the image raises
    [TypeError], for this click as for the click at (0, 0). *)
Lemma mapping_raises_before_padding_test_witness :
  let page_widget := MkPageWidget (Some (MkQSize 10 10)) (MkQSize 20 10) in
  QSize_isEmpty (MkQSize 10 10) = false
  ∧ QSize_isEmpty (MkQSize 20 10) = false
  ∧ QRect_new (PyFloat (Qc_of_Z 5)) (PyInt 0) (PyInt 10) (PyInt 10) = Raised "TypeError"
  ∧ _convert_widget_pos_to_pdf_point 72 page_widget (17, 4) = Raised "TypeError"
  ∧ _convert_widget_pos_to_pdf_point 72 page_widget (0, 0) = Raised "TypeError"
  ∧ (∃ e, _convert_widget_pos_to_pdf_point 72 page_widget (17, 4) = Raised e
        ∧ _convert_widget_pos_to_pdf_point 72 page_widget (17, 4) ≠ Returned None).
Proof.
  intros page_widget.
  split; [reflexivity |]. split; [reflexivity |]. split; [reflexivity |].
  split; [by vm_compute |]. split; [by vm_compute |].
  exact (proj2 (mapping_raises_before_padding_test 72 (MkQSize 10 10) (MkQSize 20 10)
                  eq_refl eq_refl) (17, 4)).
Defined.

(** C6, witness: page 3 at 75 dpi, twice, with an empty cache directory;
    then page 4 of the same document, and page 3 of another document. *)
Lemma second_load_page_skips_render_witness :
  let self := Viewer "A.pdf" (Some (Document "A.pdf" 5)) 5 75 1 1 []
                (replicate 5 NullPixmap) None in
  let other := Viewer "B.pdf" (Some (Document "B.pdf" 5)) 5 75 1 1 []
                 (replicate 5 NullPixmap) None in
  let w := World empty_profile ∅ [] [] in
  viewer_ready self
  ∧ 1 ≤ 3 ≤ total_pages self
  ∧ ∃ w1 self1 w2 self2,
      load_page path_digest w self 3 = Returned (w1, self1)
      ∧ load_page path_digest w1 self1 3 = Returned (w2, self2)
      ∧ render_calls w2 = [(2, 75)]
      ∧ (∃ w3 self3, load_page path_digest w2 self 4 = Returned (w3, self3)
           ∧ render_calls w3 = render_calls w2 ++ [(3, 75)])
      ∧ (∃ w3 other3, load_page path_digest w2 other 3 = Returned (w3, other3)
           ∧ render_calls w3 = render_calls w2 ++ [(2, 75)]).
Proof.
  intros self other w.
  assert (viewer_ready self) as Hready by (split; [by eexists | done]).
  assert (viewer_ready other) as Hother by (split; [by eexists | done]).
  assert (1 ≤ 3 ≤ total_pages self) as Hrange by (simpl; lia).
  split; [exact Hready |]. split; [exact Hrange |].
  destruct (second_load_page_skips_render path_digest w self 3 Hready Hrange)
    as (d & w1 & self1 & w2 & self2 & _ & H1 & H2 & _ & _ & Hmiss & _ & Hkey).
  exists w1, self1, w2, self2. split; [exact H1 |]. split; [exact H2 |].
  split; [apply Hmiss; by vm_compute |]. split.
  - destruct (Hkey self 4 Hready ltac:(simpl; lia) eq_refl ltac:(discriminate))
      as (_ & Hrender).
    destruct (Hrender ltac:(by vm_compute)) as (w3 & self3 & Hload & Hcalls & _).
    by exists w3, self3.
  - destruct (Hkey other 3 Hother ltac:(simpl; lia) eq_refl ltac:(discriminate))
      as (_ & Hrender).
    destruct (Hrender ltac:(by vm_compute)) as (w3 & other3 & Hload & Hcalls & _).
    by exists w3, other3.
Defined.

(** C7, witness: page 3 is cached; a highlight is added, a comment is added
    and edited, the highlight is removed. *)
Lemma overlays_never_reach_cache_witness :
  let self := Viewer "A.pdf" (Some (Document "A.pdf" 5)) 5 75 1 1 []
                (replicate 5 NullPixmap) None in
  let name := cache_filename path_digest "A.pdf" 3 75 in
  let img := Image ("A.pdf", 2, 75) [] in
  let w := World empty_profile {[ name := PngFile img ]} [] [] in
  let rect := MkRect (Qc_of_Z 10) (Qc_of_Z 10) (Qc_of_Z 50) (Qc_of_Z 20) in
  let es := [AddHighlight 3 rect "x"; AddComment 3 (MkPoint 0 0) "note";
             UpdateComment 3 1 "changed"; RemoveHighlight 3 rect] in
  viewer_ready self
  ∧ ∃ w' self', apply_edits path_digest w self es = Returned (w', self')
      ∧ cached_image w' name = Some img.
Proof.
  intros self name img w rect es.
  assert (viewer_ready self) as Hready by (split; [by eexists | done]).
  split; [exact Hready |].
  destruct (overlays_never_reach_cache path_digest w self) as (_ & _ & Hedits).
  destruct (Hedits Hready es) as (w' & self' & Hrun & Hkeep).
  exists w', self'. split; [exact Hrun |]. apply Hkeep. by vm_compute.
Defined.

(** C8, witness: the per-document store exists while the shared store still
    has a row for the document. *)
Lemma migration_guarded_and_idempotent_witness :
  let row := HighlightRow 1 "A.pdf" 2 0 0 1 1 (Some "x") in
  let fs := Profile {[ get_pdf_db_path path_digest "A.pdf" := empty_pdf_db ]}
              (Some (MainDb empty_table (Some (Table [row] 1)) (Some empty_table))) in
  is_Some (pdf_files fs !! get_pdf_db_path path_digest "A.pdf")
  ∧ migrate_pdf_data path_digest no_faults fs "A.pdf" = (fs, Skipped).
Proof.
  intros row fs.
  assert (is_Some (pdf_files fs !! get_pdf_db_path path_digest "A.pdf")) as Hnew.
  { exists empty_pdf_db. by vm_compute. }
  split; [exact Hnew |].
  exact (proj1 (migration_guarded_and_idempotent path_digest no_faults fs "A.pdf") Hnew).
Defined.

(** C9, witness: the store has the rectangle (10,10,50,20) on page 2;
    removing another rectangle changes nothing, removing that one removes
    one row. *)
Lemma remove_highlight_exact_match_only_witness :
  let rect := MkRect (Qc_of_Z 10) (Qc_of_Z 10) (Qc_of_Z 50) (Qc_of_Z 20) in
  let other := MkRect 0 0 1 1 in
  let fs := add_highlight_to_db path_digest empty_profile "A.pdf" 2 rect "x" in
  existsb (highlight_matches "A.pdf" 2 other) (stored_highlights path_digest fs "A.pdf") = false
  ∧ stored_highlights path_digest (remove_highlight_from_db path_digest fs "A.pdf" 2 other) "A.pdf"
    = stored_highlights path_digest fs "A.pdf"
  ∧ existsb (highlight_matches "A.pdf" 2 rect) (stored_highlights path_digest fs "A.pdf") = true
  ∧ S (length (stored_highlights path_digest
                 (remove_highlight_from_db path_digest fs "A.pdf" 2 rect) "A.pdf"))
    = length (stored_highlights path_digest fs "A.pdf").
Proof.
  intros rect other fs.
  assert (existsb (highlight_matches "A.pdf" 2 other)
            (stored_highlights path_digest fs "A.pdf") = false) as Habsent by (by vm_compute).
  assert (existsb (highlight_matches "A.pdf" 2 rect)
            (stored_highlights path_digest fs "A.pdf") = true) as Hpresent by (by vm_compute).
  assert (unique_highlights (stored_highlights path_digest fs "A.pdf")) as Hu.
  { vm_compute. apply NoDup_singleton. }
  destruct (remove_highlight_exact_match_only path_digest fs "A.pdf" 2 other)
    as (_ & _ & Hnoop & _).
  destruct (remove_highlight_exact_match_only path_digest fs "A.pdf" 2 rect)
    as (_ & _ & _ & Hone).
  split; [exact Habsent |]. split; [exact (Hnoop Habsent) |].
  split; [exact Hpresent |]. exact (Hone Hu Hpresent).
Defined.

(** C10, witness: the shared store has a highlight and a comment of the
    document; the commit of the per-document store raises. *)
Lemma shared_rows_deleted_only_after_commit_witness :
  let h := HighlightRow 1 "A.pdf" 2 0 0 1 1 (Some "x") in
  let c := CommentRow 1 "A.pdf" 2 0 0 "note" in
  let fs := Profile ∅ (Some (MainDb empty_table (Some (Table [h] 1)) (Some (Table [c] 1)))) in
  let faults := λ s, match s with CommitNew => true | _ => false end in
  (migrate_pdf_data path_digest faults fs "A.pdf").2 = Warned CommitNew
  ∧ before_new_commit CommitNew = true
  ∧ item_manager (migrate_pdf_data path_digest faults fs "A.pdf").1 = item_manager fs.
Proof.
  intros h c fs faults.
  assert ((migrate_pdf_data path_digest faults fs "A.pdf").2 = Warned CommitNew) as Hraised
    by (by vm_compute).
  split; [exact Hraised |]. split; [reflexivity |].
  exact (proj1 (shared_rows_deleted_only_after_commit path_digest faults fs "A.pdf")
           CommitNew Hraised eq_refl).
Defined.


(** X9, witness: the shared store has two highlights and a comment of the
    document on page 2, the later highlight to the left of the earlier one,
    and the migration meets no fault. *)
Lemma migrated_annotations_are_listed_witness :
  let h1 := HighlightRow 1 "A.pdf" 2 (Qc_of_Z 10) (Qc_of_Z 10) (Qc_of_Z 50) (Qc_of_Z 20)
              (Some "x") in
  let h2 := HighlightRow 2 "A.pdf" 2 0 0 1 1 (Some "y") in
  let c := CommentRow 1 "A.pdf" 2 0 0 "note" in
  let old_h := Table [h1; h2] 2 in
  let old_c := Table [c] 1 in
  let old := MainDb empty_table (Some old_h) (Some old_c) in
  let fs := Profile ∅ (Some old) in
  let fs1 := (migrate_pdf_data path_digest no_faults fs "A.pdf").1 in
  (migrate_pdf_data path_digest no_faults fs "A.pdf").2 = Migrated
  ∧ NoDup (h_id <$> rows old_h) ∧ unique_highlights (rows old_h)
  ∧ NoDup (c_id <$> rows old_c)
  ∧ (get_highlights_for_page path_digest fs1 "A.pdf" 2).2
    = [MkRect 0 0 1 1; MkRect (Qc_of_Z 10) (Qc_of_Z 10) (Qc_of_Z 50) (Qc_of_Z 20)]
  ∧ (get_comments_for_page path_digest fs1 "A.pdf" 2).2
    ≡ₚ [PageComment 1 (MkPoint 0 0) "note"].
Proof.
  intros h1 h2 c old_h old_c old fs fs1.
  assert ((migrate_pdf_data path_digest no_faults fs "A.pdf").2 = Migrated) as Hm
    by (by vm_compute).
  assert (NoDup (h_id <$> rows old_h)) as Hh
    by (apply (bool_decide_unpack _); by vm_compute).
  assert (unique_highlights (rows old_h)) as Hu
    by (apply (bool_decide_unpack _); by vm_compute).
  assert (NoDup (c_id <$> rows old_c)) as Hc by (vm_compute; apply NoDup_singleton).
  pose proof (migrated_annotations_are_listed path_digest no_faults fs "A.pdf"
                old old_h old_c eq_refl eq_refl eq_refl Hh Hu Hc Hm) as (Hhl & Hcl & _).
  split; [exact Hm |]. split; [exact Hh |]. split; [exact Hu |]. split; [exact Hc |].
  split; [exact (Hhl 2) | exact (Hcl 2)].
Defined.

(** X10, witness: a document of 5 pages opened on page 1, and a walk
    through it with requests inside and outside the document. *)
Lemma navigation_stays_in_range_witness :
  let self := Viewer "A.pdf" (Some (Document "A.pdf" 5)) 5 75 1 1 []
                (replicate 5 NullPixmap) None in
  let steps := [NextPage; GoToPage 9; JumpToInput (Some 5); NextPage;
                PreviousPage; JumpToInput None; GoToPage 0] in
  viewer_ready self
  ∧ 1 ≤ current_page_num self ≤ total_pages self
  ∧ ∃ self', navigate_all self steps = Returned self'
      ∧ total_pages self' = total_pages self
      ∧ 1 ≤ current_page_num self' ≤ total_pages self'.
Proof.
  intros self steps.
  assert (viewer_ready self) as Hready by (split; [by eexists | done]).
  assert (1 ≤ current_page_num self ≤ total_pages self) as Hrange by (simpl; lia).
  split; [exact Hready |]. split; [exact Hrange |].
  exact (navigation_stays_in_range self steps Hready Hrange).
Defined.

(** X11, witness: page 2 of 5. *)
Lemma previous_and_next_page_witness :
  let self := Viewer "A.pdf" (Some (Document "A.pdf" 5)) 5 75 1 2 []
                (replicate 5 NullPixmap) None in
  viewer_ready self
  ∧ 1 ≤ current_page_num self ≤ total_pages self
  ∧ current_page_num self < total_pages self
  ∧ ∃ self1 self2,
      go_to_next_page self = Returned self1
      ∧ current_page_num self1 = current_page_num self + 1
      ∧ visible_page self1 = Some (current_page_num self + 1)
      ∧ go_to_previous_page self1 = Returned self2
      ∧ current_page_num self2 = current_page_num self
      ∧ visible_page self2 = Some (current_page_num self).
Proof.
  intros self.
  assert (viewer_ready self) as Hready by (split; [by eexists | done]).
  assert (1 ≤ current_page_num self ≤ total_pages self) as Hrange by (simpl; lia).
  assert (current_page_num self < total_pages self) as Hlt by (simpl; lia).
  split; [exact Hready |]. split; [exact Hrange |]. split; [exact Hlt |].
  exact (proj2 (proj2 (previous_and_next_page self Hready Hrange)) Hlt).
Defined.

(** X12, witness: three page widgets of height 100 at y = 0, 110, 220 and
    the centre of the viewport at 105, as far from the first widget as from
    the second. *)
Lemma closest_page_is_first_nearest_witness :
  let geometry := [(0, 100); (110, 100); (220, 100)] in
  closest_page_from (Qc_of_Z 105) 0 1 None geometry = 1
  ∧ geometry ≠ []
  ∧ first_closest (Qc_of_Z 105) geometry
      (closest_page_from (Qc_of_Z 105) 0 1 None geometry).
Proof.
  intros geometry.
  assert (geometry ≠ []) as Hne by discriminate.
  split; [by vm_compute |]. split; [exact Hne |].
  exact (closest_page_is_first_nearest (Qc_of_Z 105) geometry Hne).
Defined.

(** X13, witness: a viewer opened on stored page 10 of a document that has
    5 pages now, and the first scroll event. *)
Lemma scroll_restores_page_range_witness :
  let self := Viewer "A.pdf" (Some (Document "A.pdf" 5)) 5 75 10 10 []
                (replicate 5 NullPixmap) None in
  let geometry := [(0, 100); (110, 100); (220, 100); (330, 100); (440, 100)] in
  let self1 := update_current_page_on_scroll self 0 300 geometry in
  viewer_ready self
  ∧ 0 < total_pages self
  ∧ length geometry = length (page_widgets self)
  ∧ 1 ≤ current_page_num self1 ≤ total_pages self1
  ∧ total_pages self1 = total_pages self
  ∧ (total_pages self + 1 < current_page_num self →
     go_to_previous_page self = Returned self ∧ go_to_next_page self = Returned self).
Proof.
  intros self geometry self1.
  assert (viewer_ready self) as Hready by (split; [by eexists | done]).
  assert (0 < total_pages self) as Hpages by (simpl; lia).
  assert (length geometry = length (page_widgets self)) as Hlen by reflexivity.
  split; [exact Hready |]. split; [exact Hpages |]. split; [exact Hlen |].
  exact (scroll_restores_page_range self 0 300 geometry Hready Hpages Hlen).
Defined.

(** X14, witness: a document of 5 pages and an empty cache directory. *)
Lemma load_all_pages_fills_cache_witness :
  let self := Viewer "A.pdf" (Some (Document "A.pdf" 5)) 5 75 1 1 []
                (replicate 5 NullPixmap) None in
  let w := World empty_profile ∅ [] [] in
  viewer_ready self
  ∧ ∃ w1 self1 w2 self2,
      load_all_pages path_digest w self = Returned (w1, self1)
      ∧ pages_cached path_digest w1 self1
      ∧ (∀ name img, cached_image w name = Some img → cached_image w1 name = Some img)
      ∧ (length (render_calls w1) ≤ length (render_calls w) + Z.to_nat (total_pages self))%nat
      ∧ load_all_pages path_digest w1 self1 = Returned (w2, self2)
      ∧ render_calls w2 = render_calls w1
      ∧ cache_dir w2 = cache_dir w1.
Proof.
  intros self w.
  assert (viewer_ready self) as Hready by (split; [by eexists | done]).
  split; [exact Hready |].
  exact (load_all_pages_fills_cache path_digest w self Hready).
Defined.

(** X15, witness: 75 dpi, step 25: out to 50, out again (ignored), in, out. *)
Lemma zoom_keeps_dpi_positive_witness :
  let self := Viewer "A.pdf" (Some (Document "A.pdf" 5)) 5 75 1 1 []
                (replicate 5 NullPixmap) None in
  let w := World empty_profile ∅ [] [] in
  let zs := [ZoomOut; ZoomOut; ZoomIn; ZoomOut] in
  viewer_ready self
  ∧ 0 < 25 ≤ 50
  ∧ 0 < current_dpi self
  ∧ ∃ w' self',
      zoom_all path_digest w self 25 zs = Returned (w', self')
      ∧ 0 < current_dpi self'
      ∧ current_page_num self' = current_page_num self
      ∧ total_pages self' = total_pages self.
Proof.
  intros self w zs.
  assert (viewer_ready self) as Hready by (split; [by eexists | done]).
  assert (0 < 25 ≤ 50) as Hstep by lia.
  assert (0 < current_dpi self) as Hdpi by (simpl; lia).
  split; [exact Hready |]. split; [exact Hstep |]. split; [exact Hdpi |].
  exact (zoom_keeps_dpi_positive path_digest w self 25 zs Hready Hstep Hdpi).
Defined.

(** X16, witness: 75 dpi, step 25: in to 100 and out again to 75; and
    20 dpi, step 25: in to 45, where zoom-out does nothing. *)
Lemma zoom_out_undoes_zoom_in_witness :
  let self := Viewer "A.pdf" (Some (Document "A.pdf" 5)) 5 75 1 1 []
                (replicate 5 NullPixmap) None in
  let low := Viewer "A.pdf" (Some (Document "A.pdf" 5)) 5 20 1 1 []
                (replicate 5 NullPixmap) None in
  let w := World empty_profile ∅ [] [] in
  viewer_ready self
  ∧ viewer_ready low
  ∧ (∃ w1 self1 w2 self2,
       zoom_in path_digest w self 25 = Returned (w1, self1)
       ∧ current_dpi self1 = 100
       ∧ zoom_out path_digest w1 self1 25 = Returned (w2, self2)
       ∧ current_dpi self2 = 75)
  ∧ (∃ w1 low1,
       zoom_in path_digest w low 25 = Returned (w1, low1)
       ∧ current_dpi low1 = 45
       ∧ zoom_out path_digest w1 low1 25 = Returned (w1, low1)).
Proof.
  intros self low w.
  assert (viewer_ready self) as Hready by (split; [by eexists | done]).
  assert (viewer_ready low) as Hlow by (split; [by eexists | done]).
  split; [exact Hready |]. split; [exact Hlow |]. split.
  - destruct (proj2 (zoom_out_undoes_zoom_in path_digest w self 25 Hready))
      as (w1 & self1 & Hin & Hdpi & Hback & _).
    assert (50 < current_dpi self + 25) as Hhigh by (cbn [current_dpi self]; lia).
    destruct (Hback Hhigh) as (w2 & self2 & Hout & Hdpi2 & _).
    exists w1, self1, w2, self2.
    split; [exact Hin |]. split; [exact Hdpi |]. split; [exact Hout | exact Hdpi2].
  - destruct (proj2 (zoom_out_undoes_zoom_in path_digest w low 25 Hlow))
      as (w1 & low1 & Hin & Hdpi & _ & Hstay).
    assert (current_dpi low + 25 ≤ 50) as Hsmall by (cbn [current_dpi low]; lia).
    exists w1, low1. split; [exact Hin |]. split; [exact Hdpi |].
    exact (Hstay Hsmall).
Defined.

(** X19, witness: three results on pages 1, 3 and 3 of a document of 5
    pages, with the index on the last one. *)
Lemma search_next_and_previous_cycle_witness :
  let results := [(1, MkRect 0 0 1 1); (3, MkRect 0 0 1 1); (3, MkRect 1 1 2 2)] in
  let self := Viewer "A.pdf" (Some (Document "A.pdf" 5)) 5 75 1 3 results
                (replicate 5 NullPixmap) None in
  length (search_results self) = 3%nat
  ∧ viewer_ready self
  ∧ ∃ self1 self2 self3 self4,
      go_to_next_result self 2 = Returned (self1, 0)
      ∧ go_to_prev_result self1 0 = Returned (self2, 2)
      ∧ go_to_prev_result self 2 = Returned (self3, 1)
      ∧ go_to_next_result self3 1 = Returned (self4, 2)
      ∧ current_page_num self1 = 1.
Proof.
  intros results self.
  assert (viewer_ready self) as Hready by (split; [by eexists | done]).
  split; [reflexivity |]. split; [exact Hready |].
  destruct (search_next_and_previous_cycle self 2 Hready ltac:(discriminate)
              ltac:(simpl; lia))
    as (self1 & self2 & self3 & self4 & H1 & H2 & H3 & H4 & Hpage & _).
  exists self1, self2, self3, self4.
  split; [exact H1 |]. split; [exact H2 |]. split; [exact H3 |]. split; [exact H4 |].
  exact (proj1 (Hpage 1 (MkRect 0 0 1 1) eq_refl ltac:(simpl; lia))).
Defined.

(** X20, witness: the colour 0xFF8000 with all higher bits set (a negative
    integer) prints as orange. *)
Lemma srgb_int_to_css_unpacks_channels_witness :
  srgb_int_to_css (ColorInt (-32768)) = "rgb(255, 128, 0)"
  ∧ -32768 = -1 * 16777216 + 255 * 65536 + 128 * 256 + 0.
Proof.
  split; [| reflexivity].
  exact (srgb_int_to_css_unpacks_channels (-1) 255 128 0
           ltac:(lia) ltac:(lia) ltac:(lia)).
Defined.

(** X21, witness: an encrypted document of 3 pages that accepts "secret";
    the user types a wrong password and then the right one. *)
Lemma opened_document_has_accepted_password_witness :
  let pdf := PdfOnDisk true (λ p, bool_decide (p = "secret")) 3 in
  let answers := [("bad", true); ("secret", true)] in
  let pws' : gmap string string := {[ "A.pdf" := "secret" ]} in
  _open_pdf_with_prompt (Some pdf) "A.pdf" true ∅ answers
  = Some (pws', Some (Document "A.pdf" 3))
  ∧ (∀ other, other ≠ "A.pdf" → pws' !! other = (∅ : gmap string string) !! other)
  ∧ ∃ password, pws' !! "A.pdf" = Some password ∧ authenticate pdf password = true.
Proof.
  intros pdf answers pws'.
  assert (_open_pdf_with_prompt (Some pdf) "A.pdf" true ∅ answers
          = Some (pws', Some (Document "A.pdf" 3))) as Hrun by (by vm_compute).
  split; [exact Hrun |].
  destruct (opened_document_has_accepted_password _ _ _ _ _ _ _ Hrun)
    as (Hother & pdf0 & Hpdf & _ & Hacc).
  split; [exact Hother |].
  injection Hpdf as <-. exact Hacc.
Defined.

(** X22, witness: the same document; two wrong passwords, then the right
    one, or a cancelled dialog. *)
Lemma password_dialog_until_accepted_or_cancelled_witness :
  let pdf := PdfOnDisk true (λ p, bool_decide (p = "secret")) 3 in
  let wrong := [("bad", true); ("worse", true)] in
  is_encrypted pdf = true
  ∧ authenticate pdf "" = false
  ∧ Forall (λ a, authenticate pdf a.1 = false ∧ a.2 = true) wrong
  ∧ authenticate pdf "secret" = true
  ∧ _open_pdf_with_prompt (Some pdf) "A.pdf" true ∅ (wrong ++ [("secret", true)])
    = Some (<["A.pdf" := "secret"]> ∅, Some (Document "A.pdf" 3))
  ∧ _open_pdf_with_prompt (Some pdf) "A.pdf" true ∅ (wrong ++ [("", false)])
    = Some (∅, None).
Proof.
  intros pdf wrong.
  assert (Forall (λ a, authenticate pdf a.1 = false ∧ a.2 = true) wrong) as Hwrong
    by (repeat constructor).
  split; [reflexivity |]. split; [reflexivity |]. split; [exact Hwrong |].
  split; [reflexivity |].
  exact (password_dialog_until_accepted_or_cancelled pdf "A.pdf" ∅ wrong "secret" "" []
           eq_refl ltac:(intros cached H; by rewrite lookup_empty in H)
           eq_refl Hwrong eq_refl).
Defined.
